(** * Chile real-estate investment engine: a shallow embedding

    The development follows [financials.py] and [market_intelligence.py].

    Number model.  Python [float] values are idealised as exact numbers:
    rationals ([Q]) wherever the code stays within field operations,
    comparisons and decimal rounding, and reals ([R]) where it takes a
    square root or a trigonometric function.  Rounding error, overflow
    and the special values of binary floating point are outside the
    model; the one place where the code asks for infinity explicitly
    ([float('inf')] in the location analysis) has a constructor of its
    own, and a numpy division by zero is a distinguished outcome
    ([NonFinite]) that the model does not follow any further.

    Exceptions are values of [result]; the hidden state of Python's
    [random] module is threaded explicitly. *)

From Stdlib Require Import QArith Qround Qabs Qpower Lqa.
From Stdlib Require Import ZArith Lia List Bool.
From Stdlib Require Import Reals Lra Psatz.
From Stdlib Require Import Sorting.Sorted.
From stdpp Require Import base option gmap strings.

Set Default Proof Using "Type".

(** ** Python prelude: exceptions, indexing, rounding *)

Module Py.

Inductive exn : Set :=
| IndexError
| KeyError
| ZeroDivisionError
| ValueError
| StatisticsError
| NonFinite.

Inductive result (A : Type) : Type :=
| Ok (a : A)
| Raise (e : exn).
Arguments Ok {A} a.
Arguments Raise {A} e.

#[export] Instance result_ret : MRet result := fun A a => Ok a.
#[export] Instance result_bind : MBind result := fun A B f r =>
  match r with
  | Ok a => f a
  | Raise e => Raise e
  end.

Definition is_ok {A} (r : result A) : Prop :=
  match r with Ok _ => True | Raise _ => False end.

(** [seq[i]] with Python's negative indices. *)
Definition getitem {A} (l : list A) (i : Z) : result A :=
  let n := Z.of_nat (length l) in
  let j := (if i <? 0 then n + i else i)%Z in
  if (j <? 0)%Z then Raise IndexError
  else match nth_error l (Z.to_nat j) with
       | Some x => Ok x
       | None => Raise IndexError
       end.

(** [seq[:-1]] *)
Definition all_but_last {A} (l : list A) : list A := removelast l.

(** [[x] * n] *)
Definition replicate_list {A} (x : A) (n : Z) : list A := repeat x (Z.to_nat n).

Definition Qlt_bool (x y : Q) : bool := negb (Qle_bool y x).

(** Float division: [x / y] raises [ZeroDivisionError] on a zero divisor. *)
Definition fdiv (x y : Q) : result Q :=
  if Qeq_bool y 0 then Raise ZeroDivisionError else Ok (x / y)%Q.

(** Two-argument [max] and [min]: the first argument wins ties. *)
Definition max2 (a b : Q) : Q := if Qlt_bool a b then b else a.
Definition min2 (a b : Q) : Q := if Qlt_bool b a then b else a.

(** Round to the nearest integer, ties to the even one. *)
Definition rint (x : Q) : Z :=
  let f := Qfloor x in
  let r := (x - inject_Z f)%Q in
  if Qlt_bool r (1 # 2) then f
  else if Qlt_bool (1 # 2) r then (f + 1)%Z
  else if Z.even f then f else (f + 1)%Z.

(** [round(x, ndigits)] on a float: the multiple of [10^-ndigits] nearest
    to [x], ties to even.  The code rounds the binary float that its
    arithmetic produced; where the exact value lies on or next to a
    decimal tie that float may fall on the other side of it, and the
    stored figure then is the other neighbour.  Properties that are to
    hold of the stored figure whatever the side are stated as bounds
    around the exact value ([round_error] below). *)
Definition round (x : Q) (ndigits : Z) : Q :=
  let s := (10 ^ ndigits)%Q in
  (inject_Z (rint (x * s)) / s)%Q.

(** Truth value of a float: everything but zero. *)
Definition truthy (x : Q) : bool := negb (Qeq_bool x 0).

End Py.
Import Py.

(** ** numpy_financial

    The library is not part of the repository.  [pmt] follows its
    implementation with [fv = 0] and [when = 'end'], which is the formula
    quoted in the docstring of [calculate_mortgage_payment]:
    [temp = (1 + rate) ** nper], [fact = nper] when [rate == 0] and
    [(temp - 1) / rate] otherwise, and the result is [-(pv * temp) / fact].
    numpy divides by zero without raising; the result is then infinite or
    not a number, which the model reports as [NonFinite]. *)

Module npf.

Definition pmt (rate : Q) (nper : Z) (pv : Q) : result Q :=
  if Qeq_bool (1 + rate) 0 && (nper <? 0)%Z then Raise NonFinite
  else
    let temp := ((1 + rate) ^ nper)%Q in
    let fact := if Qeq_bool rate 0 then inject_Z nper
                else ((temp - 1) / rate)%Q in
    if Qeq_bool fact 0 then Raise NonFinite
    else Ok (- (pv * temp) / fact)%Q.

(** What a call of [npf.irr] can do: raise, return [None], return [nan],
    or return a periodic rate.  The root finder itself is a parameter of
    the functions that call it. *)
Inductive irr_outcome : Type :=
| IrrRaises
| IrrNone
| IrrNaN
| IrrRate (r : Q).

End npf.

(** ** financials.py *)

Module Financials.

Local Open Scope Q_scope.

Module FIXED_COSTS_UF.
Definition tasacion : Q := 3.0.
Definition estudio_titulos : Q := 5.0.
Definition borrador_escritura : Q := 3.0.
Definition notaria : Q := 4.0.
End FIXED_COSTS_UF.

Module MARKET_RATES.
Definition impuesto_mutuo : Q := 0.008.
Definition cbrs_rate : Q := 0.005.
Definition cbrs_tope_uf : Q := 50.0.
Definition corretaje_rate : Q := 0.02.
Definition iva : Q := 0.19.
Definition contribuciones_annual : Q := 0.0075.
Definition desgravamen_monthly : Q := 0.00025.
Definition incendio_sismo_monthly : Q := 0.0002.
Definition default_pie : Q := 0.30.
Definition default_property_mgmt : Q := 0.10.
Definition default_maintenance : Q := 0.05.
Definition default_vacancy : Q := 0.05.
Definition default_plusvalia : Q := 0.02.
End MARKET_RATES.

(** A [datetime] is opaque to every function modelled here. *)
Definition datetime : Type := Z.

Record CurrencyRates : Type := mkCurrencyRates {
  uf_clp : Q;
  eur_clp : Q;
  usd_clp : Q;
  fecha : datetime
}.

(** The constructor generated by [@dataclass]: it stores its four
    arguments; the class has no [__post_init__]. *)
Definition CurrencyRates_init (uf eur usd : Q) (f : datetime)
  : result CurrencyRates :=
  Ok (mkCurrencyRates uf eur usd f).

Definition uf_eur (self : CurrencyRates) : result Q :=
  fdiv (uf_clp self) (eur_clp self).

Definition clp_eur (self : CurrencyRates) : result Q :=
  fdiv 1 (eur_clp self).

(** The cache of [CurrencyAPI]: a class-level dict from a key to a pair
    of a value and the time it was stored; [now] is the reading of
    [datetime.now()], in microseconds. *)
Definition CACHE_DURATION : Z := 3600 * 1000000.

Definition _get_cached {V : Type} (_cache : gmap string (V * Z)) (now : Z)
    (key : string) : option V :=
  match _cache !! key with
  | Some (value, timestamp) =>
      if (now - timestamp <? CACHE_DURATION)%Z then Some value else None
  | None => None
  end.

Definition _set_cache {V : Type} (_cache : gmap string (V * Z)) (now : Z)
    (key : string) (value : V) : gmap string (V * Z) :=
  <[key := (value, now)]> _cache.

Record PropertyInput : Type := mkPropertyInput {
  precio_uf : Q;
  arriendo_clp : Q;
  gastos_comunes_clp : Q;
  superficie_m2 : Q;
  comuna : string;
  url : string
}.

Record MortgageInput : Type := mkMortgageInput {
  pie_percent : Q;
  tasa_anual : Q;
  plazo_anos : Z
}.

Record OperatingInput : Type := mkOperatingInput {
  vacancy_rate : Q;
  property_mgmt_rate : Q;
  maintenance_rate : Q;
  plusvalia_annual : Q
}.

Record CapexBreakdown : Type := mkCapexBreakdown {
  pie_uf : Q;
  impuesto_mutuo_uf : Q;
  tasacion_uf : Q;
  estudio_titulos_uf : Q;
  borrador_escritura_uf : Q;
  notaria_uf : Q;
  cbrs_uf : Q;
  corretaje_uf : Q
}.

Definition total_uf (self : CapexBreakdown) : Q :=
  pie_uf self + impuesto_mutuo_uf self + tasacion_uf self
  + estudio_titulos_uf self + borrador_escritura_uf self + notaria_uf self
  + cbrs_uf self + corretaje_uf self.

Definition gastos_cierre_uf (self : CapexBreakdown) : Q :=
  total_uf self - pie_uf self.

Record MortgagePayment : Type := mkMortgagePayment {
  cuota_base_uf : Q;
  seguro_desgravamen_uf : Q;
  seguro_incendio_uf : Q
}.

Definition dividendo_total_uf (self : MortgagePayment) : Q :=
  cuota_base_uf self + seguro_desgravamen_uf self + seguro_incendio_uf self.

Record OpexBreakdown : Type := mkOpexBreakdown {
  contribuciones_clp : Q;
  administracion_clp : Q;
  mantencion_clp : Q;
  vacancia_clp : Q;
  opex_gastos_comunes_clp : Q
}.

Definition total_clp (self : OpexBreakdown) : Q :=
  contribuciones_clp self + administracion_clp self + mantencion_clp self
  + vacancia_clp self + opex_gastos_comunes_clp self.

Record InvestmentMetrics : Type := mkInvestmentMetrics {
  precio_total_uf : Q;
  precio_total_eur : Q;
  inversion_inicial_uf : Q;
  inversion_inicial_eur : Q;
  dividendo_mensual_uf : Q;
  dividendo_mensual_eur : Q;
  noi_mensual_clp : Q;
  noi_mensual_eur : Q;
  cashflow_mensual_clp : Q;
  cashflow_mensual_eur : Q;
  cap_rate : Q;
  cash_on_cash : Q;
  irr_5_years : option Q;
  irr_10_years : option Q;
  capex_breakdown : CapexBreakdown;
  opex_breakdown : OpexBreakdown;
  mortgage_payment : MortgagePayment;
  currency_rates : CurrencyRates;
  is_cashflow_positive : bool
}.

(** One row of the amortization table (a dict with five fixed keys). *)
Record ScheduleEntry : Type := mkScheduleEntry {
  periodo : Z;
  cuota_uf : Q;
  interes_uf : Q;
  capital_uf : Q;
  saldo_uf : Q
}.

Record RealEstateCalculator : Type := mkRealEstateCalculator {
  rates : CurrencyRates
}.

(** *** Currency conversions *)

Definition uf_to_clp (self : RealEstateCalculator) (amount_uf : Q) : Q :=
  amount_uf * uf_clp (rates self).

Definition clp_to_uf (self : RealEstateCalculator) (amount_clp : Q)
  : result Q :=
  fdiv amount_clp (uf_clp (rates self)).

Definition uf_to_eur (self : RealEstateCalculator) (amount_uf : Q)
  : result Q :=
  let clp := uf_to_clp self amount_uf in
  fdiv clp (eur_clp (rates self)).

Definition clp_to_eur (self : RealEstateCalculator) (amount_clp : Q)
  : result Q :=
  fdiv amount_clp (eur_clp (rates self)).

Definition eur_to_clp (self : RealEstateCalculator) (amount_eur : Q) : Q :=
  amount_eur * eur_clp (rates self).

Definition eur_to_uf (self : RealEstateCalculator) (amount_eur : Q)
  : result Q :=
  let clp := eur_to_clp self amount_eur in
  clp_to_uf self clp.

(** *** Mortgage *)

Definition calculate_mortgage_payment (self : RealEstateCalculator)
    (principal_uf rate_annual : Q) (years : Z) (property_value_uf : Q)
  : result MortgagePayment :=
  let monthly_rate := (rate_annual / 100) / 12 in
  let n_payments := (years * 12)%Z in
  p ← npf.pmt monthly_rate n_payments principal_uf;
  let cuota_base := - p in
  let seguro_desgravamen := principal_uf * MARKET_RATES.desgravamen_monthly in
  let seguro_incendio := property_value_uf * MARKET_RATES.incendio_sismo_monthly in
  mret (mkMortgagePayment (round cuota_base 4)
                          (round seguro_desgravamen 4)
                          (round seguro_incendio 4)).

(** The body of [for periodo in range(1, n_payments + 1)], run for the
    [k] periods that remain; [saldo] is the loop-carried variable, kept
    in lowest terms ([Qred] is the identity up to [==]) so that the loop
    can be evaluated over its whole length. *)
Fixpoint schedule_loop (monthly_rate cuota : Q) (periodo : Z) (saldo : Q)
    (k : nat) : list ScheduleEntry :=
  match k with
  | O => []
  | S k' =>
      let interes := saldo * monthly_rate in
      let capital := cuota - interes in
      let saldo' := Qred (saldo - capital) in
      mkScheduleEntry periodo (round cuota 4) (round interes 4)
                      (round capital 4) (round (max2 0 saldo') 4)
      :: schedule_loop monthly_rate cuota (periodo + 1) saldo' k'
  end.

Definition generate_amortization_schedule (self : RealEstateCalculator)
    (principal_uf rate_annual : Q) (years : Z)
  : result (list ScheduleEntry) :=
  let monthly_rate := (rate_annual / 100) / 12 in
  let n_payments := (years * 12)%Z in
  p ← npf.pmt monthly_rate n_payments principal_uf;
  let cuota := Qred (- p) in
  mret (schedule_loop monthly_rate cuota 1 principal_uf (Z.to_nat n_payments)).

(** *** Initial investment (CAPEX) *)

Definition calculate_initial_investment (self : RealEstateCalculator)
    (property_value_uf pie_percent : Q) : CapexBreakdown :=
  let pie_uf := property_value_uf * pie_percent in
  let credito_uf := property_value_uf - pie_uf in
  let impuesto_mutuo := credito_uf * MARKET_RATES.impuesto_mutuo in
  let tasacion := FIXED_COSTS_UF.tasacion in
  let estudio_titulos := FIXED_COSTS_UF.estudio_titulos in
  let borrador_escritura := FIXED_COSTS_UF.borrador_escritura in
  let notaria := FIXED_COSTS_UF.notaria in
  let cbrs := min2 (property_value_uf * MARKET_RATES.cbrs_rate)
                   MARKET_RATES.cbrs_tope_uf in
  let corretaje_neto := property_value_uf * MARKET_RATES.corretaje_rate in
  let corretaje_con_iva := corretaje_neto * (1 + MARKET_RATES.iva) in
  mkCapexBreakdown (round pie_uf 2) (round impuesto_mutuo 2)
                   tasacion estudio_titulos borrador_escritura notaria
                   (round cbrs 2) (round corretaje_con_iva 2).

(** *** Monthly operating costs (OPEX) *)

Definition calculate_monthly_opex (self : RealEstateCalculator)
    (property_value_uf arriendo_clp gastos_comunes_clp : Q)
    (operating : OperatingInput) : OpexBreakdown :=
  let valor_comercial_clp := uf_to_clp self property_value_uf in
  let contribuciones_annual :=
    valor_comercial_clp * MARKET_RATES.contribuciones_annual in
  let contribuciones_monthly := contribuciones_annual / 12 in
  let admin_neto := arriendo_clp * property_mgmt_rate operating in
  let administracion := admin_neto * (1 + MARKET_RATES.iva) in
  let mantencion := arriendo_clp * maintenance_rate operating in
  let vacancia := arriendo_clp * vacancy_rate operating in
  mkOpexBreakdown (round contribuciones_monthly 0) (round administracion 0)
                  (round mantencion 0) (round vacancia 0)
                  (round gastos_comunes_clp 0).

(** *** Cash flow and return metrics *)

Definition calculate_monthly_cashflow (self : RealEstateCalculator)
    (arriendo_clp : Q) (opex : OpexBreakdown) (mortgage : MortgagePayment)
  : Q * Q :=
  let noi_clp := arriendo_clp - total_clp opex in
  let dividendo_clp := uf_to_clp self (dividendo_total_uf mortgage) in
  let cashflow_clp := noi_clp - dividendo_clp in
  (noi_clp, cashflow_clp).

Definition calculate_cap_rate (self : RealEstateCalculator)
    (noi_annual_clp property_value_clp : Q) : Q :=
  if Qle_bool property_value_clp 0 then 0.0
  else noi_annual_clp / property_value_clp.

Definition calculate_cash_on_cash (self : RealEstateCalculator)
    (cashflow_annual_clp cash_invested_clp : Q) : Q :=
  if Qle_bool cash_invested_clp 0 then 0.0
  else cashflow_annual_clp / cash_invested_clp.

Section WithRootFinder.

(** [npf.irr], the root finder of numpy_financial. *)
Variable npf_irr : list Q → npf.irr_outcome.

(** The cash-flow vector is assembled before the [try]; everything after
    it is inside, and [except Exception] turns a raise into [None]. *)
Definition calculate_irr (self : RealEstateCalculator)
    (cash_invested : Q) (monthly_cashflows : list Q) (exit_value : Q)
  : result (option Q) :=
  let cashflows := [- cash_invested] ++ all_but_last monthly_cashflows in
  final ← getitem monthly_cashflows (-1);
  let cashflows := cashflows ++ [final + exit_value] in
  match npf_irr cashflows with
  | npf.IrrRaises => mret None
  | npf.IrrNone => mret None
  | npf.IrrNaN => mret None
  | npf.IrrRate irr_monthly =>
      let irr_annual := (1 + irr_monthly) ^ 12 - 1 in
      mret (Some irr_annual)
  end.

(** *** Projections *)

(** The body of [for _ in range(years)]; [last_value] is [values[-1]],
    kept in lowest terms like [saldo] above. *)
Fixpoint project_loop (plusvalia_rate : Q) (last_value : Q) (k : nat)
  : list Q :=
  match k with
  | O => []
  | S k' =>
      let v := Qred (last_value * (1 + plusvalia_rate)) in
      v :: project_loop plusvalia_rate v k'
  end.

Definition project_property_value (self : RealEstateCalculator)
    (initial_value_uf : Q) (years : Z) (plusvalia_rate : Q) : list Q :=
  initial_value_uf
  :: project_loop plusvalia_rate initial_value_uf (Z.to_nat years).

(** One row of the equity projection (a dict with four fixed keys). *)
Record EquityRow : Type := mkEquityRow {
  year : Z;
  property_value_uf : Q;
  debt_uf : Q;
  equity_uf : Q
}.

(** The body of [for year in range(len(property_values))], from [year]
    on; [values] is [property_values[year:]]. *)
Fixpoint project_equity_loop (amortization_schedule : list ScheduleEntry)
    (year : Z) (values : list Q) : result (list EquityRow) :=
  match values with
  | [] => mret []
  | property_value :: rest =>
      debt ← (if (year =? 0)%Z then
                match amortization_schedule with
                | [] => mret 0
                | _ => row ← getitem amortization_schedule 0;
                       mret (saldo_uf row)
                end
              else
                let month_index :=
                  Z.min (year * 12 - 1)
                        (Z.of_nat (length amortization_schedule) - 1) in
                row ← getitem amortization_schedule month_index;
                mret (saldo_uf row));
      let equity := property_value - debt in
      projections ← project_equity_loop amortization_schedule (year + 1) rest;
      mret (mkEquityRow year (round property_value 2) (round debt 2)
                        (round equity 2) :: projections)
  end.

Definition project_equity (self : RealEstateCalculator)
    (property_values : list Q) (amortization_schedule : list ScheduleEntry)
  : result (list EquityRow) :=
  project_equity_loop amortization_schedule 0 property_values.

(** The row of the amortization table that [project_equity] reads for
    a given year. *)
Definition equity_row_index (len : nat) (year : Z) : nat :=
  if (year =? 0)%Z then 0%nat
  else Z.to_nat (Z.min (year * 12 - 1) (Z.of_nat len - 1)).

(** *** Full analysis *)

(** [round(irr, 4) if irr else None] *)
Definition irr_field (irr : option Q) : option Q :=
  match irr with
  | Some v => if truthy v then Some (round v 4) else None
  | None => None
  end.

Definition analyze_investment (self : RealEstateCalculator)
    (property_input : PropertyInput) (mortgage_input : MortgageInput)
    (operating_input : OperatingInput) : result InvestmentMetrics :=
  let precio_uf := precio_uf property_input in
  let arriendo_clp := arriendo_clp property_input in
  let gastos_comunes := gastos_comunes_clp property_input in
  let capex :=
    calculate_initial_investment self precio_uf (pie_percent mortgage_input) in
  let credito_uf := precio_uf - pie_uf capex in
  mortgage_payment ← calculate_mortgage_payment self credito_uf
                        (tasa_anual mortgage_input)
                        (plazo_anos mortgage_input) precio_uf;
  let opex := calculate_monthly_opex self precio_uf arriendo_clp
                gastos_comunes operating_input in
  let '(noi_clp, cashflow_clp) :=
    calculate_monthly_cashflow self arriendo_clp opex mortgage_payment in
  let precio_clp := uf_to_clp self precio_uf in
  let capex_clp := uf_to_clp self (total_uf capex) in
  let cap_rate := calculate_cap_rate self (noi_clp * 12) precio_clp in
  let cash_on_cash :=
    calculate_cash_on_cash self (cashflow_clp * 12) capex_clp in
  amortization ← generate_amortization_schedule self credito_uf
                    (tasa_anual mortgage_input) (plazo_anos mortgage_input);
  let property_values :=
    project_property_value self precio_uf 10
      (plusvalia_annual operating_input) in
  let cashflows_5y := replicate_list cashflow_clp 60 in
  value_5 ← getitem property_values 5;
  row_59 ← getitem amortization 59;
  let equity_5y := uf_to_clp self (value_5 - saldo_uf row_59) in
  irr_5 ← calculate_irr self capex_clp cashflows_5y equity_5y;
  let cashflows_10y := replicate_list cashflow_clp 120 in
  value_10 ← getitem property_values 10;
  row_119 ← getitem amortization 119;
  let equity_10y := uf_to_clp self (value_10 - saldo_uf row_119) in
  irr_10 ← calculate_irr self capex_clp cashflows_10y equity_10y;
  precio_eur ← uf_to_eur self precio_uf;
  capex_eur ← uf_to_eur self (total_uf capex);
  dividendo_eur ← uf_to_eur self (dividendo_total_uf mortgage_payment);
  noi_eur ← clp_to_eur self noi_clp;
  cashflow_eur ← clp_to_eur self cashflow_clp;
  mret {|
    precio_total_uf := precio_uf;
    precio_total_eur := round precio_eur 2;
    inversion_inicial_uf := total_uf capex;
    inversion_inicial_eur := round capex_eur 2;
    dividendo_mensual_uf := dividendo_total_uf mortgage_payment;
    dividendo_mensual_eur := round dividendo_eur 2;
    noi_mensual_clp := round noi_clp 0;
    noi_mensual_eur := round noi_eur 2;
    cashflow_mensual_clp := round cashflow_clp 0;
    cashflow_mensual_eur := round cashflow_eur 2;
    cap_rate := round cap_rate 4;
    cash_on_cash := round cash_on_cash 4;
    irr_5_years := irr_field irr_5;
    irr_10_years := irr_field irr_10;
    capex_breakdown := capex;
    opex_breakdown := opex;
    mortgage_payment := mortgage_payment;
    currency_rates := rates self;
    is_cashflow_positive := Qlt_bool 0 cashflow_clp
  |}.

End WithRootFinder.

End Financials.

(** ** market_intelligence.py *)

Module MarketIntelligence.

(** Comparisons of reals as decisions, so that they can guard an [if]. *)
#[export] Instance Rlt_decision : RelDecision Rlt := Rlt_dec.
#[export] Instance Rle_decision : RelDecision Rle := Rle_dec.

(** [a in b] on strings. *)
Fixpoint is_substring (a b : string) : bool :=
  String.prefix a b
  || match b with
     | EmptyString => false
     | String _ b' => is_substring a b'
     end.

(** *** Reference tables

    A dict that the code iterates over is an association list in source
    order; a dict that is only looked up is a finite map. *)

Local Open Scope Q_scope.

Definition AVG_PRICE_PER_COMMUNE : list (string * Q) :=
  [ ("Las Condes", 95.0); ("Vitacura", 110.0); ("Lo Barnechea", 85.0);
    ("Providencia", 90.0); ("Ñuñoa", 75.0); ("La Reina", 70.0);
    ("Santiago", 65.0); ("Independencia", 55.0); ("Recoleta", 50.0);
    ("Quinta Normal", 45.0); ("Estación Central", 50.0);
    ("San Miguel", 55.0); ("San Joaquín", 45.0); ("Macul", 55.0);
    ("La Florida", 50.0); ("Puente Alto", 35.0); ("La Granja", 35.0);
    ("La Cisterna", 45.0); ("San Bernardo", 32.0);
    ("Huechuraba", 50.0); ("Conchalí", 40.0); ("Renca", 38.0);
    ("Quilicura", 40.0); ("Colina", 45.0);
    ("Maipú", 42.0); ("Pudahuel", 38.0); ("Cerrillos", 45.0);
    ("Lo Prado", 40.0); ("Cerro Navia", 35.0);
    ("Peñalolén", 55.0); ("La Pintana", 28.0); ("El Bosque", 35.0);
    ("San Ramón", 32.0);
    ("_default", 50.0) ].

Definition AVG_RENT_PER_COMMUNE : gmap string (Q * Q) :=
  list_to_map
  [ ("Las Condes", (10000, 15000)); ("Vitacura", (12000, 18000));
    ("Lo Barnechea", (9000, 14000)); ("Providencia", (10000, 14000));
    ("Ñuñoa", (8000, 12000)); ("La Reina", (8000, 11000));
    ("Santiago", (7000, 11000)); ("San Miguel", (7000, 10000));
    ("La Florida", (6000, 9000)); ("Maipú", (5500, 8500));
    ("Puente Alto", (5000, 7500)); ("_default", (6000, 10000)) ].

Local Close Scope Q_scope.
Local Open Scope R_scope.

(** An entry of [METRO_STATIONS] (a dict with four fixed keys). *)
Record StationData : Type := mkStationData {
  sd_name : string;
  sd_line : string;
  sd_lat : R;
  sd_lon : R
}.

Definition METRO_STATIONS : list StationData := [
  mkStationData "Los Dominicos" "L1" (-33.4101) (-70.5241);
  mkStationData "Hernando de Magallanes" "L1" (-33.4082) (-70.5359);
  mkStationData "Manquehue" "L1" (-33.4028) (-70.5480);
  mkStationData "Escuela Militar" "L1" (-33.4025) (-70.5585);
  mkStationData "Alcántara" "L1" (-33.4053) (-70.5695);
  mkStationData "El Golf" "L1" (-33.4101) (-70.5804);
  mkStationData "Tobalaba" "L1" (-33.4187) (-70.5893);
  mkStationData "Los Leones" "L1" (-33.4230) (-70.5982);
  mkStationData "Pedro de Valdivia" "L1" (-33.4251) (-70.6093);
  mkStationData "Manuel Montt" "L1" (-33.4262) (-70.6186);
  mkStationData "Salvador" "L1" (-33.4310) (-70.6274);
  mkStationData "Baquedano" "L1" (-33.4375) (-70.6350);
  mkStationData "Universidad Católica" "L1" (-33.4417) (-70.6421);
  mkStationData "Santa Lucía" "L1" (-33.4426) (-70.6478);
  mkStationData "Universidad de Chile" "L1" (-33.4432) (-70.6536);
  mkStationData "La Moneda" "L1" (-33.4427) (-70.6602);
  mkStationData "Los Héroes" "L1" (-33.4467) (-70.6656);
  mkStationData "República" "L1" (-33.4503) (-70.6715);
  mkStationData "Estación Central" "L1" (-33.4527) (-70.6786);
  mkStationData "Unión Latinoamericana" "L1" (-33.4539) (-70.6870);
  mkStationData "Alberto Hurtado" "L1" (-33.4556) (-70.6969);
  mkStationData "Ecuador" "L1" (-33.4586) (-70.7051);
  mkStationData "Las Rejas" "L1" (-33.4631) (-70.7157);
  mkStationData "Pajaritos" "L1" (-33.4685) (-70.7289);
  mkStationData "Del Sol" "L1" (-33.4688) (-70.7430);
  mkStationData "Monte Tabor" "L1" (-33.4687) (-70.7522);
  mkStationData "Santiago Bueras" "L1" (-33.4688) (-70.7618);
  mkStationData "San Pablo" "L1" (-33.4688) (-70.7730);
  mkStationData "Vespucio Norte" "L2" (-33.3900) (-70.6200);
  mkStationData "Zapadores" "L2" (-33.3960) (-70.6212);
  mkStationData "Dorsal" "L2" (-33.4050) (-70.6240);
  mkStationData "Einstein" "L2" (-33.4130) (-70.6275);
  mkStationData "Cerro Blanco" "L2" (-33.4190) (-70.6345);
  mkStationData "Patronato" "L2" (-33.4260) (-70.6392);
  mkStationData "Puente Cal y Canto" "L2" (-33.4333) (-70.6440);
  mkStationData "Santa Ana" "L2" (-33.4409) (-70.6505);
  mkStationData "Parque O'Higgins" "L2" (-33.4630) (-70.6605);
  mkStationData "Rondizzoni" "L2" (-33.4710) (-70.6600);
  mkStationData "Franklin" "L2" (-33.4790) (-70.6590);
  mkStationData "El Llano" "L2" (-33.4890) (-70.6575);
  mkStationData "San Miguel" "L2" (-33.4970) (-70.6555);
  mkStationData "Departamental" "L2" (-33.5070) (-70.6520);
  mkStationData "Ciudad del Niño" "L2" (-33.5150) (-70.6485);
  mkStationData "Lo Ovalle" "L2" (-33.5233) (-70.6450);
  mkStationData "El Parrón" "L2" (-33.5310) (-70.6435);
  mkStationData "La Cisterna" "L2" (-33.5390) (-70.6590);
  mkStationData "Los Libertadores" "L3" (-33.3756) (-70.6585);
  mkStationData "Cardenal Caro" "L3" (-33.3830) (-70.6567);
  mkStationData "Vivaceta" "L3" (-33.3975) (-70.6545);
  mkStationData "Conchalí" "L3" (-33.4030) (-70.6520);
  mkStationData "Plaza Chacabuco" "L3" (-33.4195) (-70.6480);
  mkStationData "Hospitales" "L3" (-33.4295) (-70.6480);
  mkStationData "Cal y Canto" "L3" (-33.4333) (-70.6440);
  mkStationData "Plaza de Armas" "L3" (-33.4380) (-70.6505);
  mkStationData "Universidad de Chile (L3)" "L3" (-33.4432) (-70.6536);
  mkStationData "Parque Almagro" "L3" (-33.4498) (-70.6485);
  mkStationData "Matta" "L3" (-33.4595) (-70.6395);
  mkStationData "Irarrázaval" "L3" (-33.4535) (-70.6130);
  mkStationData "Monseñor Eyzaguirre" "L3" (-33.4545) (-70.5985);
  mkStationData "Ñuñoa" "L3" (-33.4555) (-70.5940);
  mkStationData "Chile España" "L3" (-33.4555) (-70.5830);
  mkStationData "Villa Frei" "L3" (-33.4590) (-70.5725);
  mkStationData "Plaza Egaña" "L3" (-33.4545) (-70.5683);
  mkStationData "Fernando Castillo Velasco" "L3" (-33.4535) (-70.5540);
  mkStationData "Tobalaba (L4)" "L4" (-33.4187) (-70.5893);
  mkStationData "Cristóbal Colón" "L4" (-33.4265) (-70.5810);
  mkStationData "Francisco Bilbao" "L4" (-33.4380) (-70.5795);
  mkStationData "Príncipe de Gales" "L4" (-33.4470) (-70.5780);
  mkStationData "Simón Bolívar" "L4" (-33.4515) (-70.5760);
  mkStationData "Grecia" "L4" (-33.4590) (-70.5720);
  mkStationData "Los Orientales" "L4" (-33.4695) (-70.5665);
  mkStationData "Quilín" "L4" (-33.4895) (-70.5605);
  mkStationData "Las Torres" "L4" (-33.5010) (-70.5572);
  mkStationData "Macul" "L4" (-33.5115) (-70.5545);
  mkStationData "Vicuña Mackenna" "L4" (-33.5275) (-70.5905);
  mkStationData "Vicente Valdés" "L4" (-33.5380) (-70.5950);
  mkStationData "Rojas Magallanes" "L4" (-33.5485) (-70.5995);
  mkStationData "Trinidad" "L4" (-33.5590) (-70.6020);
  mkStationData "San José de la Estrella" "L4" (-33.5705) (-70.6050);
  mkStationData "Los Quillayes" "L4" (-33.5840) (-70.6075);
  mkStationData "Elisa Correa" "L4" (-33.5955) (-70.6035);
  mkStationData "Hospital Sótero del Río" "L4" (-33.6085) (-70.5975);
  mkStationData "Protectora de la Infancia" "L4" (-33.6195) (-70.5920);
  mkStationData "Las Mercedes" "L4" (-33.6295) (-70.5865);
  mkStationData "Plaza de Puente Alto" "L4" (-33.6100) (-70.5770);
  mkStationData "Vicuña Mackenna (4A)" "L4A" (-33.5275) (-70.5905);
  mkStationData "Los Presidentes" "L4A" (-33.5275) (-70.6100);
  mkStationData "Quilín (4A)" "L4A" (-33.5245) (-70.6280);
  mkStationData "Santa Julia" "L4A" (-33.5240) (-70.6430);
  mkStationData "La Granja" "L4A" (-33.5350) (-70.6505);
  mkStationData "Santa Rosa" "L4A" (-33.5390) (-70.6590);
  mkStationData "La Cisterna (4A)" "L4A" (-33.5390) (-70.6590);
  mkStationData "Plaza de Maipú" "L5" (-33.5098) (-70.7559);
  mkStationData "Santiago Bueras (L5)" "L5" (-33.4980) (-70.7445);
  mkStationData "Del Sol (L5)" "L5" (-33.4915) (-70.7350);
  mkStationData "Monte Tabor (L5)" "L5" (-33.4845) (-70.7248);
  mkStationData "Laguna Sur" "L5" (-33.4769) (-70.7152);
  mkStationData "Barrancas" "L5" (-33.4720) (-70.7040);
  mkStationData "Pudahuel" "L5" (-33.4635) (-70.6880);
  mkStationData "San Pablo (L5)" "L5" (-33.4490) (-70.6740);
  mkStationData "Lo Prado" "L5" (-33.4440) (-70.6655);
  mkStationData "Blanqueado" "L5" (-33.4420) (-70.6560);
  mkStationData "Gruta de Lourdes" "L5" (-33.4420) (-70.6475);
  mkStationData "Quinta Normal" "L5" (-33.4390) (-70.6585);
  mkStationData "Cumming" "L5" (-33.4408) (-70.6525);
  mkStationData "Santa Ana (L5)" "L5" (-33.4409) (-70.6505);
  mkStationData "Plaza de Armas (L5)" "L5" (-33.4380) (-70.6505);
  mkStationData "Bellas Artes" "L5" (-33.4365) (-70.6425);
  mkStationData "Baquedano (L5)" "L5" (-33.4375) (-70.6350);
  mkStationData "Parque Bustamante" "L5" (-33.4425) (-70.6275);
  mkStationData "Santa Isabel" "L5" (-33.4520) (-70.6240);
  mkStationData "Ñuble" "L5" (-33.4615) (-70.6195);
  mkStationData "Rodrigo de Araya" "L5" (-33.4732) (-70.6115);
  mkStationData "Carlos Valdovinos" "L5" (-33.4835) (-70.6050);
  mkStationData "Camino Agrícola" "L5" (-33.4930) (-70.5990);
  mkStationData "San Joaquín" "L5" (-33.4960) (-70.6213);
  mkStationData "Pedrero" "L5" (-33.5010) (-70.6175);
  mkStationData "Mirador" "L5" (-33.5085) (-70.6115);
  mkStationData "Bellavista de La Florida" "L5" (-33.5180) (-70.6030);
  mkStationData "Vicente Valdés (L5)" "L5" (-33.5380) (-70.5950);
  mkStationData "Cerrillos" "L6" (-33.4930) (-70.7140);
  mkStationData "Lo Valledor" "L6" (-33.4790) (-70.6905);
  mkStationData "Pedro Aguirre Cerda" "L6" (-33.4720) (-70.6760);
  mkStationData "Franklin (L6)" "L6" (-33.4680) (-70.6635);
  mkStationData "Bio Bío" "L6" (-33.4595) (-70.6515);
  mkStationData "Ñuñoa (L6)" "L6" (-33.4535) (-70.6125);
  mkStationData "Estadio Nacional" "L6" (-33.4620) (-70.6065);
  mkStationData "Ñuble (L6)" "L6" (-33.4615) (-70.6195);
  mkStationData "Inés de Suárez" "L6" (-33.4350) (-70.6015);
  mkStationData "Los Leones (L6)" "L6" (-33.4230) (-70.5982);
  mkStationData "Renca" "L7" (-33.4095) (-70.7245);
  mkStationData "Cerro Navia" "L7" (-33.4220) (-70.7200);
  mkStationData "Quinta Normal (L7)" "L7" (-33.4345) (-70.6975);
  mkStationData "Brasil" "L7" (-33.4420) (-70.6625);
  mkStationData "Cumming (L7)" "L7" (-33.4430) (-70.6535);
  mkStationData "Irarrázaval (L7)" "L7" (-33.4450) (-70.6245);
  mkStationData "Ñuñoa (L7)" "L7" (-33.4535) (-70.5995);
  mkStationData "Vitacura" "L7" (-33.3975) (-70.5795);
  mkStationData "Estoril" "L7" (-33.3895) (-70.5675)
].

(** *** Data structures *)

Inductive ConnectivityLevel : Set := HIGH | MEDIUM | LOW | NONE.

Inductive PricePosition : Set :=
| BELOW_MARKET
| AT_MARKET
| ABOVE_MARKET
| PREMIUM.

Record RentComparable : Type := mkRentComparable {
  precio_clp : Q;
  superficie_m2 : Q;
  comuna : string;
  dormitorios : Z;
  banos : Z;
  url : option string;
  precio_m2 : Q
}.

(** The dataclass constructor followed by [__post_init__]: [precio_m2]
    keeps its default [0.0] unless the area is positive. *)
Definition RentComparable_init (precio_clp superficie_m2 : Q)
    (comuna : string) (dormitorios banos : Z) (url : option string)
  : RentComparable :=
  mkRentComparable precio_clp superficie_m2 comuna dormitorios banos url
    (if Qlt_bool 0 superficie_m2 then (precio_clp / superficie_m2)%Q
     else 0.0%Q).

(** What every generated comparable satisfies (used in the properties
    of the generator). *)
Definition well_formed_comparable (commune : string) (c : RentComparable)
  : Prop :=
  comuna c = commune
  /\ url c = None
  /\ (1 <= banos c)%Z
  /\ (exists z : Z, precio_clp c == inject_Z z * 1000)%Q
  /\ (0 < superficie_m2 c -> precio_m2 c * superficie_m2 c == precio_clp c)%Q
  /\ (superficie_m2 c <= 0 -> precio_m2 c == 0)%Q.

Record MarketRentAnalysis : Type := mkMarketRentAnalysis {
  comparables_count : Z;
  average_rent_clp : Q;
  median_rent_clp : Q;
  min_rent_clp : Q;
  max_rent_clp : Q;
  std_dev_clp : R;
  average_price_m2 : Q;
  suggested_rent_clp : Q;
  suggested_rent_range : Q * Q;
  comparables : list RentComparable;
  methodology : string
}.

Record MetroStation : Type := mkMetroStation {
  name : string;
  line : string;
  lat : R;
  lon : R;
  distance_m : R
}.

(** A distance in meters, or [float('inf')]. *)
Inductive distance : Type :=
| Meters (d : R)
| Infinite.

(** [distance < bound] for a finite bound. *)
Definition dist_lt (d : distance) (bound : R) : bool :=
  match d with
  | Meters x => bool_decide (x < bound)
  | Infinite => false
  end.

Record LocationAnalysisResult : Type := mkLocationAnalysisResult {
  nearest_station : option MetroStation;
  distance_meters : distance;
  connectivity_level : ConnectivityLevel;
  nearby_stations : list MetroStation;
  metro_lines_nearby : list string;
  walking_time_minutes : Z;
  has_metro_access : bool
}.

Record PriceAnalysisResult : Type := mkPriceAnalysisResult {
  uf_per_m2 : Q;
  commune_average_uf_m2 : Q;
  price_position : PricePosition;
  price_diff_percent : Q;
  price_diff_uf_m2 : Q;
  is_opportunity : bool;
  analysis_text : string
}.

(** *** Geography *)

(** [math.radians] *)
Definition radians (x : R) : R := x * (PI / 180).

(** [math.atan2] *)
Definition atan2 (y x : R) : R :=
  if decide (0 < x) then atan (y / x)
  else if decide (x < 0) then
         if decide (0 <= y) then atan (y / x) + PI else atan (y / x) - PI
  else if decide (0 < y) then PI / 2
  else if decide (y < 0) then - (PI / 2)
  else 0.

Definition haversine_distance (lat1 lon1 lat2 lon2 : R) : R :=
  let R_earth := 6371000 in
  let phi1 := radians lat1 in
  let phi2 := radians lat2 in
  let delta_phi := radians (lat2 - lat1) in
  let delta_lambda := radians (lon2 - lon1) in
  let a := sin (delta_phi / 2) ^ 2
           + cos phi1 * cos phi2 * sin (delta_lambda / 2) ^ 2 in
  let c := 2 * atan2 (sqrt a) (sqrt (1 - a)) in
  R_earth * c.

(** [int(x)] on a float: truncation towards zero. *)
Definition trunc (x : R) : Z :=
  if decide (0 <= x) then Int_part x else (- Int_part (- x))%Z.

(** *** Location analyzer *)

Definition COMMUNE_COORDINATES : list (string * (R * R)) :=
  [ ("Las Condes", (-33.4170, -70.5875));
    ("Vitacura", (-33.3970, -70.5780));
    ("Lo Barnechea", (-33.3550, -70.5180));
    ("Providencia", (-33.4270, -70.6100));
    ("Ñuñoa", (-33.4560, -70.5970));
    ("La Reina", (-33.4520, -70.5420));
    ("Santiago", (-33.4450, -70.6550));
    ("Independencia", (-33.4170, -70.6650));
    ("Recoleta", (-33.4050, -70.6420));
    ("San Miguel", (-33.4970, -70.6520));
    ("La Florida", (-33.5220, -70.5980));
    ("Maipú", (-33.5100, -70.7570));
    ("Puente Alto", (-33.6100, -70.5770));
    ("Peñalolén", (-33.4870, -70.5310));
    ("Macul", (-33.4890, -70.6000));
    ("San Joaquín", (-33.4960, -70.6300));
    ("La Granja", (-33.5380, -70.6240));
    ("La Cisterna", (-33.5350, -70.6600));
    ("Estación Central", (-33.4520, -70.6800));
    ("Quinta Normal", (-33.4400, -70.6950));
    ("Cerrillos", (-33.4900, -70.7150));
    ("Huechuraba", (-33.3700, -70.6350));
    ("Conchalí", (-33.3900, -70.6650));
    ("Quilicura", (-33.3650, -70.7250));
    ("Pudahuel", (-33.4350, -70.7450));
    ("Renca", (-33.4050, -70.7200));
    ("El Bosque", (-33.5580, -70.6730));
    ("San Bernardo", (-33.5950, -70.7000));
    ("La Pintana", (-33.5850, -70.6350));
    ("San Ramón", (-33.5380, -70.6420));
    ("Lo Prado", (-33.4450, -70.7150));
    ("Cerro Navia", (-33.4270, -70.7350));
    ("Colina", (-33.2050, -70.6750)) ].

(** [key in d] followed by [d[key]] on a dict in source order. *)
Fixpoint dict_lookup {V} (d : list (string * V)) (key : string) : option V :=
  match d with
  | [] => None
  | (k, v) :: d' => if String.eqb k key then Some v else dict_lookup d' key
  end.

Record LocationAnalyzer : Type := mkLocationAnalyzer {
  stations : list StationData
}.

(** [self.stations = metro_stations or METRO_STATIONS]: [None] and the
    empty list both select the built-in table. *)
Definition LocationAnalyzer_init (metro_stations : option (list StationData))
  : LocationAnalyzer :=
  match metro_stations with
  | Some (s :: l) => mkLocationAnalyzer (s :: l)
  | _ => mkLocationAnalyzer METRO_STATIONS
  end.

(** [list.sort(key=lambda s: s.distance_m)]: a stable sort; an element
    goes in front of the first one that is not nearer. *)
Fixpoint insert_by_distance (s : MetroStation) (l : list MetroStation)
  : list MetroStation :=
  match l with
  | [] => [s]
  | h :: t => if decide (distance_m h < distance_m s)
              then h :: insert_by_distance s t
              else s :: l
  end.

Definition sort_by_distance (l : list MetroStation) : list MetroStation :=
  foldr insert_by_distance [] l.

(** [list(set(...))] followed by [sort()]: the distinct strings in
    increasing order. *)
Fixpoint insert_line (s : string) (l : list string) : list string :=
  match l with
  | [] => [s]
  | h :: t => if String.eqb s h then l
              else if String.ltb s h then s :: l
              else h :: insert_line s t
  end.

Definition sorted_set (l : list string) : list string :=
  foldr insert_line [] l.

(** The order in which the sorted stations stand. *)
Definition by_distance (a b : MetroStation) : Prop :=
  distance_m a <= distance_m b.

(** The result returned when no coordinates can be found. *)
Definition no_coordinates : LocationAnalysisResult :=
  mkLocationAnalysisResult None Infinite NONE [] [] 0 false.

Section WithBuiltins.

(** [str.lower] *)
Variable lower : string → string.

(** [format(x, '.Nf')]: a float printed with [N] decimals. *)
Variable format_f : Z → Q → string.

(** The loop over [items()] of the partial match. *)
Fixpoint partial_match {V} (d : list (string * V)) (comuna_lower : string)
  : option V :=
  match d with
  | [] => None
  | (comm, v) :: d' =>
      if is_substring (lower comm) comuna_lower
         || is_substring comuna_lower (lower comm)
      then Some v
      else partial_match d' comuna_lower
  end.

Definition get_coordinates_for_comuna (self : LocationAnalyzer)
    (comuna : string) : option (R * R) :=
  match dict_lookup COMMUNE_COORDINATES comuna with
  | Some coords => Some coords
  | None =>
      let comuna_lower := lower comuna in
      partial_match COMMUNE_COORDINATES comuna_lower
  end.

Definition with_distance (lat lon : R) (station_data : StationData)
  : MetroStation :=
  let distance := haversine_distance lat lon
                    (sd_lat station_data) (sd_lon station_data) in
  mkMetroStation (sd_name station_data) (sd_line station_data)
                 (sd_lat station_data) (sd_lon station_data) distance.

(** The part of [analyze] that runs once coordinates are known. *)
Definition analyze_at (self : LocationAnalyzer) (lat lon : R)
  : LocationAnalysisResult :=
  let stations_with_distance := map (with_distance lat lon) (stations self) in
  let stations_with_distance := sort_by_distance stations_with_distance in
  let nearest := head stations_with_distance in
  let distance := match nearest with
                  | Some s => Meters (distance_m s)
                  | None => Infinite
                  end in
  let connectivity :=
    if dist_lt distance 500 then HIGH
    else if dist_lt distance 800 then MEDIUM
    else if dist_lt distance 1500 then LOW
    else NONE in
  let nearby := filter (λ s, distance_m s <= 1500) stations_with_distance in
  let lines := sorted_set (map line nearby) in
  let walking_time :=
    match distance with
    | Meters d => if decide (d < 3000) then trunc (d / 80) else 0%Z
    | Infinite => 0%Z
    end in
  mkLocationAnalysisResult nearest distance connectivity (take 5 nearby)
                           lines walking_time (dist_lt distance 1500).

Definition LocationAnalyzer_analyze (self : LocationAnalyzer)
    (lat lon : option R)
    (comuna : option string) : LocationAnalysisResult :=
  match lat, lon with
  | Some lat, Some lon => analyze_at self lat lon
  | _, _ =>
      match comuna with
      | Some (String c s) =>
          match get_coordinates_for_comuna self (String c s) with
          | Some (lat, lon) => analyze_at self lat lon
          | None => no_coordinates
          end
      | _ => no_coordinates
      end
  end.

(** *** Price analyzer *)

Local Close Scope R_scope.
Local Open Scope Q_scope.

Record PriceAnalyzer : Type := mkPriceAnalyzer {
  price_data : list (string * Q)
}.

(** [self.price_data = price_data or AVG_PRICE_PER_COMMUNE] *)
Definition PriceAnalyzer_init (price_data : option (list (string * Q)))
  : PriceAnalyzer :=
  match price_data with
  | Some (e :: d) => mkPriceAnalyzer (e :: d)
  | _ => mkPriceAnalyzer AVG_PRICE_PER_COMMUNE
  end.

Definition get_commune_average (self : PriceAnalyzer) (comuna : string) : Q :=
  match dict_lookup (price_data self) comuna with
  | Some price => price
  | None =>
      let comuna_lower := lower comuna in
      match partial_match (price_data self) comuna_lower with
      | Some price => price
      | None => default 50.0 (dict_lookup (price_data self) "_default")
      end
  end.

Definition PriceAnalyzer_analyze (self : PriceAnalyzer)
    (precio_uf superficie_m2 : Q) (comuna : string) : PriceAnalysisResult :=
  let superficie_m2 := if Qle_bool superficie_m2 0 then 1 else superficie_m2 in
  let uf_m2 := precio_uf / superficie_m2 in
  let commune_avg := get_commune_average self comuna in
  let diff_uf := uf_m2 - commune_avg in
  let diff_percent :=
    if Qlt_bool 0 commune_avg then ((uf_m2 / commune_avg) - 1) * 100 else 0 in
  let '(position, is_opportunity, analysis) :=
    if Qlt_bool diff_percent (-15) then
      (BELOW_MARKET, true,
       "Esta propiedad está un " +:+ format_f 1 (Qabs diff_percent)
       +:+ "% por debajo del promedio de " +:+ comuna +:+ " ("
       +:+ format_f 0 commune_avg
       +:+ " UF/m²). Podría ser una buena oportunidad "
       +:+ "de inversión si no hay problemas estructurales o legales.")
    else if Qlt_bool diff_percent (-5) then
      (BELOW_MARKET, true,
       "Precio ligeramente bajo el mercado ("
       +:+ format_f 1 (Qabs diff_percent) +:+ "% menos). "
       +:+ "Investiga las razones, pero podría ser una oportunidad.")
    else if Qle_bool diff_percent 10 then
      (AT_MARKET, false,
       "El precio está alineado con el mercado de " +:+ comuna +:+ ". "
       +:+ "Es un precio justo para la zona.")
    else if Qle_bool diff_percent 25 then
      (ABOVE_MARKET, false,
       "Esta propiedad está un " +:+ format_f 1 diff_percent
       +:+ "% sobre el promedio de " +:+ comuna +:+ ". "
       +:+ "Verifica si hay factores que justifiquen el premium (vista, piso alto, etc.).")
    else
      (PREMIUM, false,
       "Precio premium significativamente sobre el mercado ("
       +:+ format_f 1 diff_percent +:+ "% más). "
       +:+ "Solo justificable si tiene características excepcionales.") in
  mkPriceAnalysisResult uf_m2 commune_avg position diff_percent diff_uf
                        is_opportunity analysis.

(** *** statistics *)

Definition fsum (data : list Q) : Q := foldr Qplus 0 data.

(** [statistics.mean] *)
Definition mean (data : list Q) : result Q :=
  match data with
  | [] => Raise StatisticsError
  | _ => Ok (Qred (fsum data / inject_Z (Z.of_nat (length data))))
  end.

(** [statistics.variance]: the sample variance, for two points or more. *)
Definition variance (data : list Q) : result Q :=
  if (length data <? 2)%nat then Raise StatisticsError
  else
    m ← mean data;
    let ss := fsum (map (λ x, (x - m) * (x - m)) data) in
    mret (Qred (ss / (inject_Z (Z.of_nat (length data)) - 1))).

(** [statistics.stdev] *)
Definition stdev (data : list Q) : result R :=
  v ← variance data;
  mret (sqrt (Q2R v)).

Fixpoint insert_sorted (x : Q) (l : list Q) : list Q :=
  match l with
  | [] => [x]
  | h :: t => if Qlt_bool h x then h :: insert_sorted x t else x :: l
  end.

(** [sorted(data)] *)
Definition sorted (data : list Q) : list Q := foldr insert_sorted [] data.

(** [statistics.median] *)
Definition median (data : list Q) : result Q :=
  let data := sorted data in
  let n := Z.of_nat (length data) in
  if (n =? 0)%Z then Raise StatisticsError
  else if Z.odd n then getitem data (n / 2)
  else
    let i := (n / 2)%Z in
    a ← getitem data (i - 1);
    b ← getitem data i;
    mret ((a + b) / 2).

(** [min(seq)] and [max(seq)]: [ValueError] on an empty sequence. *)
Definition list_min (data : list Q) : result Q :=
  match data with
  | [] => Raise ValueError
  | x :: l => Ok (fold_left min2 l x)
  end.

Definition list_max (data : list Q) : result Q :=
  match data with
  | [] => Raise ValueError
  | x :: l => Ok (fold_left max2 l x)
  end.

(** [round(x, 0)] on a real. *)
Definition Rrint (x : R) : Z :=
  let f := Int_part x in
  let r := (x - IZR f)%R in
  if decide (r < 1 / 2)%R then f
  else if decide (1 / 2 < r)%R then (f + 1)%Z
  else if Z.even f then f else (f + 1)%Z.

Definition Rround0 (x : R) : R := IZR (Rrint x).

#[export] Instance Req_decision : EqDecision R := Req_dec_T.

(** *** Comparable rents *)

Record MarketCompScraper : Type := mkMarketCompScraper {
  rent_data : gmap string (Q * Q)
}.

(** [self.rent_data = rent_data or AVG_RENT_PER_COMMUNE] *)
Definition MarketCompScraper_init (rent_data : option (gmap string (Q * Q)))
  : MarketCompScraper :=
  match rent_data with
  | Some d => if decide (d = ∅) then mkMarketCompScraper AVG_RENT_PER_COMMUNE
              else mkMarketCompScraper d
  | None => mkMarketCompScraper AVG_RENT_PER_COMMUNE
  end.

Section WithRandom.

(** The module-level generator of [random]: its hidden state, and the
    three functions the code calls. *)
Variable rng_state : Type.
Variable seed : Z → rng_state.
Variable uniform : Q → Q → rng_state → Q * rng_state.
Variable choice : list Z → rng_state → Z * rng_state.

(** The body of [for i in range(n_samples)], for the [k] samples that
    remain. *)
Fixpoint generate_loop (comuna : string) (superficie_m2 : Q)
    (dormitorios : Z) (min_price_m2 max_price_m2 : Q) (k : nat)
    (g : rng_state) : list RentComparable * rng_state :=
  match k with
  | O => ([], g)
  | S k' =>
      let '(sup_factor, g) := uniform 0.85 1.15 g in
      let sup := superficie_m2 * sup_factor in
      let '(price_m2, g) := uniform min_price_m2 max_price_m2 g in
      let price_m2 :=
        if Qlt_bool 100 sup then price_m2 * 0.92
        else if Qlt_bool sup 50 then price_m2 * 1.05
        else price_m2 in
      let dorm_adjust := 1 + inject_Z (dormitorios - 2) * 0.03 in
      let price_m2 := price_m2 * dorm_adjust in
      let precio_total := price_m2 * sup in
      let '(d_dorm, g) := choice [-1; 0; 0; 1]%Z g in
      let '(d_banos, g) := choice [-1; 0]%Z g in
      let comparable :=
        RentComparable_init (round precio_total (-3)) (round sup 1) comuna
          (dormitorios + d_dorm) (Z.max 1 (dormitorios + d_banos)) None in
      let '(rest, g) :=
        generate_loop comuna superficie_m2 dormitorios
                      min_price_m2 max_price_m2 k' g in
      (comparable :: rest, g)
  end.

(** The default of [dict.get] is an argument, evaluated before the call:
    [self.rent_data["_default"]] raises [KeyError] when the key is
    missing, whether or not [comuna] is present. *)
Definition _generate_synthetic_comparables (self : MarketCompScraper)
    (comuna : string) (superficie_m2 : Q) (dormitorios n_samples : Z)
    (g : rng_state) : result (list RentComparable) * rng_state :=
  match rent_data self !! "_default" with
  | None => (Raise KeyError, g)
  | Some fallback =>
      let rent_range := default fallback (rent_data self !! comuna) in
      let '(min_price_m2, max_price_m2) := rent_range in
      let g := seed 42 in
      let '(comparables, g) :=
        generate_loop comuna superficie_m2 dormitorios
                      min_price_m2 max_price_m2 (Z.to_nat n_samples) g in
      (Ok comparables, g)
  end.

Definition _remove_outliers (self : MarketCompScraper)
    (comparables : list RentComparable) (std_factor : Q)
  : result (list RentComparable) :=
  if (length comparables <? 3)%nat then mret comparables
  else
    let prices := map precio_clp comparables in
    avg ← mean prices;
    std ← (if (1 <? length prices)%nat then stdev prices else mret 0%R);
    if decide (std = 0%R) then mret comparables
    else
      let lower_bound := (Q2R avg - std * Q2R std_factor)%R in
      let upper_bound := (Q2R avg + std * Q2R std_factor)%R in
      mret (filter (λ c, (lower_bound <= Q2R (precio_clp c))%R
                         ∧ (Q2R (precio_clp c) <= upper_bound)%R)
                   comparables).

Definition analyze_market_rent (self : MarketCompScraper) (comuna : string)
    (superficie_m2 : Q) (dormitorios banos : Z) (use_scraping : bool)
    (g : rng_state) : result MarketRentAnalysis * rng_state :=
  let '(generated, g) :=
    _generate_synthetic_comparables self comuna superficie_m2 dormitorios 15 g in
  (comparables ← generated;
   let methodology :=
     "Estimación basada en rangos de mercado para " +:+ comuna
     +:+ " y propiedades similares" in
   filtered ← _remove_outliers self comparables 2.0;
   let filtered := match filtered with [] => comparables | _ => filtered end in
   let prices := map precio_clp filtered in
   let prices_m2 := map precio_m2 filtered in
   avg_rent ← mean prices;
   med_rent ← median prices;
   min_rent ← list_min prices;
   max_rent ← list_max prices;
   std_rent ← (if (1 <? length prices)%nat then stdev prices else mret 0%R);
   avg_m2 ← (match prices_m2 with [] => mret 0 | _ => mean prices_m2 end);
   let suggested := med_rent * 0.95 in
   let suggested_range := (med_rent * 0.90, med_rent * 1.05) in
   mret {|
     comparables_count := Z.of_nat (length filtered);
     average_rent_clp := round avg_rent 0;
     median_rent_clp := round med_rent 0;
     min_rent_clp := round min_rent 0;
     max_rent_clp := round max_rent 0;
     std_dev_clp := Rround0 std_rent;
     average_price_m2 := round avg_m2 0;
     suggested_rent_clp := round suggested (-3);
     suggested_rent_range :=
       (round (fst suggested_range) (-3), round (snd suggested_range) (-3));
     comparables := filtered;
     methodology := methodology
   |},
   g).

(** *** The report *)

Record MarketIntelligenceReport : Type := mkMarketIntelligenceReport {
  rent_analysis : option MarketRentAnalysis;
  location_analysis : option LocationAnalysisResult;
  price_analysis : option PriceAnalysisResult;
  timestamp : string;
  property_comuna : string;
  property_superficie : Q
}.

Record MarketIntelligence : Type := mkMarketIntelligence {
  location_analyzer : LocationAnalyzer;
  price_analyzer : PriceAnalyzer;
  rent_analyzer : MarketCompScraper
}.

Definition MarketIntelligence_init : MarketIntelligence :=
  mkMarketIntelligence (LocationAnalyzer_init None) (PriceAnalyzer_init None)
                       (MarketCompScraper_init None).

(** [now] is what [datetime.now().isoformat()] returns when the report
    is built. *)
Definition generate_report (self : MarketIntelligence) (now : string)
    (precio_uf superficie_m2 : Q) (comuna : string) (dormitorios banos : Z)
    (lat lon : option R) (g : rng_state)
  : result MarketIntelligenceReport * rng_state :=
  let '(rent, g) :=
    analyze_market_rent (rent_analyzer self) comuna superficie_m2
                        dormitorios banos false g in
  (rent_analysis ← rent;
   let location_analysis :=
     LocationAnalyzer_analyze (location_analyzer self) lat lon (Some comuna) in
   let price_analysis :=
     PriceAnalyzer_analyze (price_analyzer self) precio_uf superficie_m2
                           comuna in
   mret (mkMarketIntelligenceReport (Some rent_analysis)
           (Some location_analysis) (Some price_analysis) now comuna
           superficie_m2),
   g).

End WithRandom.

End WithBuiltins.

End MarketIntelligence.

(** ** Annuities

    The geometric sum [1 + q + ... + q^(m-1)], in which the proofs about
    the fixed payment and the amortization table are carried out. *)

Module Annuity.

Local Open Scope Q_scope.

Fixpoint geom (q : Q) (m : nat) : Q :=
  match m with
  | O => 0
  | S m' => geom q m' + q ^ Z.of_nat m'
  end.

(** The payment per unit of principal over [m] periods at growth factor
    [q]. *)
Definition rho (q : Q) (m : nat) : Q := q ^ Z.of_nat m / geom q m.

End Annuity.

(** ** Sample inputs *)

Module Scenario.

Import Financials.
Local Open Scope Q_scope.

(** The backup rates of the module's usage example. *)
Definition backup_rates : CurrencyRates :=
  mkCurrencyRates 38500.0 1020.0 980.0 0%Z.

Definition calculator : RealEstateCalculator :=
  mkRealEstateCalculator backup_rates.

(** An analysis whose five-year cash flows add up to zero: an
    interest-free loan over ten years with a down payment of a fifth of
    the price, no appreciation and no operating rates.  The investment
    is 38232000, the monthly cash flow -962800 and the equity after five
    years 96000000. *)
Definition even_rates : CurrencyRates := mkCurrencyRates 40000 1000 900 0%Z.

Definition even_calculator : RealEstateCalculator :=
  mkRealEstateCalculator even_rates.

Definition even_property : PropertyInput :=
  mkPropertyInput 4000 267868 0 0 "" "".

Definition even_mortgage : MortgageInput := mkMortgageInput 0.2 0 10.

Definition even_operating : OperatingInput := mkOperatingInput 0 0 0 0.

(** The flows that [calculate_irr] hands to the root finder for the
    five-year horizon of this analysis. *)
Definition even_flows : list Q :=
  (-38232000) :: repeat (-962800) 59 ++ [95037200].

(** A root finder that answers where the answer is plain: the rate 0
    zeroes the net present value exactly when the flows add up to zero;
    on other flows it gives no answer. *)
Definition zero_when_balanced (cashflows : list Q) : npf.irr_outcome :=
  if Qeq_bool (fold_right Qplus 0 cashflows) 0 then npf.IrrRate 0
  else npf.IrrNone.

End Scenario.

(** * Properties *)

(** ** The Python prelude *)

Section PreludeFacts.

Local Open Scope Q_scope.

Lemma Qlt_bool_iff (x y : Q) : Qlt_bool x y = true <-> x < y.
Proof.
  unfold Qlt_bool. rewrite negb_true_iff. split.
  - intros H. apply Qnot_le_lt. intros Hle.
    apply Qle_bool_iff in Hle. congruence.
  - intros H. destruct (Qle_bool y x) eqn:E; [|reflexivity].
    apply Qle_bool_iff in E. lra.
Qed.

Lemma Qlt_bool_false (x y : Q) : Qlt_bool x y = false <-> y <= x.
Proof.
  unfold Qlt_bool. rewrite negb_false_iff. apply Qle_bool_iff.
Qed.

Lemma Qle_bool_false (x y : Q) : Qle_bool x y = false <-> y < x.
Proof.
  split.
  - intros H. apply Qnot_le_lt. intros Hle.
    apply Qle_bool_iff in Hle. congruence.
  - intros H. destruct (Qle_bool x y) eqn:E; [|reflexivity].
    apply Qle_bool_iff in E. lra.
Qed.

Lemma Qeq_bool_false (x y : Q) : Qeq_bool x y = false <-> ~ x == y.
Proof.
  split.
  - apply Qeq_bool_neq.
  - intros H. destruct (Qeq_bool x y) eqn:E; [|reflexivity].
    apply Qeq_bool_iff in E. contradiction.
Qed.

#[global] Instance Qlt_bool_proper : Proper (Qeq ==> Qeq ==> eq) Qlt_bool.
Proof.
  intros x x' Hx y y' Hy. unfold Qlt_bool. now rewrite Hx, Hy.
Qed.

#[global] Instance max2_proper : Proper (Qeq ==> Qeq ==> Qeq) max2.
Proof.
  intros x x' Hx y y' Hy. unfold max2. rewrite Hx, Hy.
  destruct (Qlt_bool x' y'); assumption.
Qed.

#[global] Instance min2_proper : Proper (Qeq ==> Qeq ==> Qeq) min2.
Proof.
  intros x x' Hx y y' Hy. unfold min2. rewrite Hx, Hy.
  destruct (Qlt_bool y' x'); assumption.
Qed.

Lemma max2_le_mono (a x y : Q) : x <= y -> max2 a x <= max2 a y.
Proof.
  intros H. unfold max2.
  destruct (Qlt_bool a x) eqn:Ex; destruct (Qlt_bool a y) eqn:Ey;
    rewrite ?Qlt_bool_iff, ?Qlt_bool_false in *; lra.
Qed.

Lemma max2_nonneg (x : Q) : 0 <= max2 0 x.
Proof.
  unfold max2. destruct (Qlt_bool 0 x) eqn:E;
    rewrite ?Qlt_bool_iff, ?Qlt_bool_false in *; lra.
Qed.

Lemma min2_le_r (a b : Q) : min2 a b <= b.
Proof.
  unfold min2. destruct (Qlt_bool b a) eqn:E;
    rewrite ?Qlt_bool_iff, ?Qlt_bool_false in *; lra.
Qed.

Lemma min2_le_l (a b : Q) : min2 a b <= a.
Proof.
  unfold min2. destruct (Qlt_bool b a) eqn:E;
    rewrite ?Qlt_bool_iff, ?Qlt_bool_false in *; lra.
Qed.

Lemma min2_glb (a b c : Q) : c <= a -> c <= b -> c <= min2 a b.
Proof.
  intros. unfold min2. destruct (Qlt_bool b a); assumption.
Qed.

(** [rint x] is one of the two integers around [x]. *)
Lemma rint_floor (x : Q) : rint x = Qfloor x \/ rint x = (Qfloor x + 1)%Z.
Proof.
  unfold rint.
  destruct (Qlt_bool _ _); [now left|].
  destruct (Qlt_bool _ _); [now right|].
  destruct (Z.even _); [now left | now right].
Qed.

#[global] Instance rint_proper : Proper (Qeq ==> eq) rint.
Proof.
  intros x y H. unfold rint. cbv zeta.
  rewrite (Qfloor_comp _ _ H).
  assert (E1 : Qlt_bool (x - inject_Z (Qfloor y)) (1 # 2)
               = Qlt_bool (y - inject_Z (Qfloor y)) (1 # 2)).
  { apply Qlt_bool_proper; [now rewrite H | reflexivity]. }
  assert (E2 : Qlt_bool (1 # 2) (x - inject_Z (Qfloor y))
               = Qlt_bool (1 # 2) (y - inject_Z (Qfloor y))).
  { apply Qlt_bool_proper; [reflexivity | now rewrite H]. }
  now rewrite E1, E2.
Qed.

Lemma rint_mono (x y : Q) : x <= y -> (rint x <= rint y)%Z.
Proof.
  intros H.
  pose proof (Qfloor_resp_le _ _ H) as Hf.
  destruct (Z.eq_dec (Qfloor x) (Qfloor y)) as [E|NE].
  - unfold rint. rewrite <- E.
    destruct (Qlt_bool (x - inject_Z (Qfloor x)) (1 # 2)) eqn:E1.
    + destruct (Qlt_bool (y - _) _); [lia|].
      destruct (Qlt_bool _ (y - _)); [lia|].
      destruct (Z.even _); lia.
    + apply Qlt_bool_false in E1.
      assert (Hy : 1 # 2 <= y - inject_Z (Qfloor x)) by lra.
      apply Qlt_bool_false in Hy. rewrite Hy.
      destruct (Qlt_bool (1 # 2) (x - _)) eqn:E2.
      * apply Qlt_bool_iff in E2.
        assert (Hy2 : 1 # 2 < y - inject_Z (Qfloor x)) by lra.
        apply Qlt_bool_iff in Hy2. rewrite Hy2. lia.
      * destruct (Qlt_bool (1 # 2) (y - _)); destruct (Z.even _); lia.
  - destruct (rint_floor x) as [-> | ->], (rint_floor y) as [-> | ->]; lia.
Qed.

Lemma rint_inject_Z (z : Z) : rint (inject_Z z) = z.
Proof.
  unfold rint. rewrite Qfloor_Z.
  assert (H : Qlt_bool (inject_Z z - inject_Z z) (1 # 2) = true).
  { apply Qlt_bool_iff. lra. }
  now rewrite H.
Qed.

Lemma pow10_pos (nd : Z) : 0 < 10 ^ nd.
Proof. apply Qpower_0_lt. lra. Qed.

#[global] Instance round_proper : Proper (Qeq ==> eq ==> Qeq) round.
Proof.
  intros x y H n ? <-. unfold round. now rewrite H.
Qed.

Lemma round_mono (x y : Q) (nd : Z) : x <= y -> round x nd <= round y nd.
Proof.
  intros H. unfold round.
  pose proof (pow10_pos nd) as Hs.
  apply Qmult_le_compat_r.
  - rewrite <- Zle_Qle. apply rint_mono.
    apply Qmult_le_compat_r; lra.
  - apply Qlt_le_weak, Qinv_lt_0_compat, Hs.
Qed.

Lemma round_0 (nd : Z) : round 0 nd == 0.
Proof.
  unfold round.
  assert (E : 0 * 10 ^ nd == inject_Z 0) by (unfold inject_Z; ring).
  rewrite E, rint_inject_Z. unfold Qdiv, inject_Z. ring.
Qed.

Lemma round_nonneg (x : Q) (nd : Z) : 0 <= x -> 0 <= round x nd.
Proof.
  intros H. rewrite <- (round_0 nd). now apply round_mono.
Qed.

Lemma rint_error (y : Q) :
  y - (1 # 2) <= inject_Z (rint y) /\ inject_Z (rint y) <= y + (1 # 2).
Proof.
  pose proof (Qfloor_le y) as Hlo. pose proof (Qlt_floor y) as Hhi.
  rewrite inject_Z_plus in Hhi. change (inject_Z 1) with 1 in Hhi.
  unfold rint. cbv zeta.
  destruct (Qlt_bool (y - inject_Z (Qfloor y)) (1 # 2)) eqn:E1.
  - apply Qlt_bool_iff in E1. lra.
  - apply Qlt_bool_false in E1.
    destruct (Qlt_bool (1 # 2) (y - inject_Z (Qfloor y))) eqn:E2.
    + apply Qlt_bool_iff in E2. rewrite inject_Z_plus.
      change (inject_Z 1) with 1. lra.
    + apply Qlt_bool_false in E2.
      destruct (Z.even (Qfloor y)); rewrite ?inject_Z_plus;
        change (inject_Z 1) with 1; lra.
Qed.

(** The rounded figure is within half a unit of the last decimal of the
    exact value. *)
Lemma round_error (x : Q) (nd : Z) :
  x - (1 # 2) / 10 ^ nd <= round x nd /\ round x nd <= x + (1 # 2) / 10 ^ nd.
Proof.
  unfold round. cbv zeta.
  pose proof (rint_error (x * 10 ^ nd)) as [H1 H2].
  pose proof (pow10_pos nd) as Hs.
  set (K := inject_Z (rint (x * 10 ^ nd))) in *.
  set (s := 10 ^ nd) in *.
  split.
  - apply Qle_shift_div_l; [exact Hs|].
    setoid_replace ((x - (1 # 2) / s) * s) with (x * s - (1 # 2))
      using relation Qeq by (field; lra).
    exact H1.
  - apply Qle_shift_div_r; [exact Hs|].
    setoid_replace ((x + (1 # 2) / s) * s) with (x * s + (1 # 2))
      using relation Qeq by (field; lra).
    exact H2.
Qed.

Lemma round_hundredths (x : Q) : exists z : Z, round x 2 == inject_Z z / 100.
Proof.
  exists (rint (x * 10 ^ 2)). unfold round.
  assert (E : 10 ^ 2 == 100) by reflexivity.
  rewrite E at 2. reflexivity.
Qed.

(** A multiple of [10^-nd] is its own rounding. *)
Lemma round_exact (z : Z) (nd : Z) :
  round (inject_Z z / 10 ^ nd) nd == inject_Z z / 10 ^ nd.
Proof.
  unfold round. pose proof (pow10_pos nd) as Hs.
  assert (E : inject_Z z / 10 ^ nd * 10 ^ nd == inject_Z z)
    by (field; lra).
  now rewrite E, rint_inject_Z.
Qed.

Lemma getitem_nil {A} (i : Z) : getitem (@nil A) i = Raise IndexError.
Proof.
  unfold getitem. cbn [length]. change (Z.of_nat 0) with 0%Z.
  rewrite Z.add_0_l.
  destruct (i <? 0)%Z eqn:E; rewrite ?E; [reflexivity|].
  now destruct (Z.to_nat i).
Qed.

Lemma getitem_nonneg {A} (l : list A) (i : Z) :
  (0 <= i)%Z ->
  getitem l i = match nth_error l (Z.to_nat i) with
                | Some x => Ok x
                | None => Raise IndexError
                end.
Proof.
  intros H. unfold getitem.
  assert (E : (i <? 0)%Z = false) by (apply Z.ltb_ge; lia).
  now rewrite E, E.
Qed.

Lemma getitem_last {A} (l : list A) (x : A) :
  getitem (l ++ [x]) (-1) = Ok x.
Proof.
  unfold getitem. rewrite length_app. simpl.
  replace (-1 <? 0)%Z with true by reflexivity.
  assert (E : (Z.of_nat (length l + 1) + -1 <? 0)%Z = false)
    by (apply Z.ltb_ge; lia).
  rewrite E.
  replace (Z.to_nat (Z.of_nat (length l + 1) + -1)) with (length l) by lia.
  rewrite nth_error_app2 by lia. now rewrite Nat.sub_diag.
Qed.

End PreludeFacts.

(** ** financials.py: exchange rates and conversions *)

Section ConversionFacts.

Import Financials.
Local Open Scope Q_scope.

Lemma fdiv_ok (x y : Q) : ~ y == 0 -> fdiv x y = Ok (x / y).
Proof.
  intros H. unfold fdiv. apply Qeq_bool_false in H. now rewrite H.
Qed.

Lemma fdiv_zero (x y : Q) : y == 0 -> fdiv x y = Raise ZeroDivisionError.
Proof.
  intros H. unfold fdiv. apply Qeq_bool_iff in H. now rewrite H.
Qed.

(** C1, as the code has it: a snapshot with a negative and a zero rate
    is constructed without complaint. *)
Lemma C1_nonpositive_rates_accepted :
  exists r, CurrencyRates_init (-1) 0 950 0%Z = Ok r
            /\ ~ 0 < uf_clp r /\ ~ 0 < eur_clp r.
Proof.
  eexists. split; [reflexivity|]. simpl. split; intros H; discriminate H.
Qed.

(** C1, amended: constructing a [CurrencyRates] never fails and stores
    the three rates as they are given, whatever their sign.  A zero rate
    is met only later, by the conversions that divide by it, which raise
    [ZeroDivisionError]; the conversions that multiply always return. *)
Theorem C1_snapshot_construction_unchecked (uf eur usd : Q) (f : datetime) :
  exists r,
    CurrencyRates_init uf eur usd f = Ok r
    /\ uf_clp r = uf /\ eur_clp r = eur /\ usd_clp r = usd
    /\ forall x,
        let calc := mkRealEstateCalculator r in
        clp_to_uf calc x
          = (if Qeq_bool uf 0 then Raise ZeroDivisionError else Ok (x / uf))
        /\ clp_to_eur calc x
          = (if Qeq_bool eur 0 then Raise ZeroDivisionError else Ok (x / eur))
        /\ uf_to_eur calc x
          = (if Qeq_bool eur 0 then Raise ZeroDivisionError
             else Ok (x * uf / eur))
        /\ eur_to_uf calc x
          = (if Qeq_bool uf 0 then Raise ZeroDivisionError
             else Ok (x * eur / uf))
        /\ uf_to_clp calc x = x * uf
        /\ eur_to_clp calc x = x * eur.
Proof.
  eexists. split; [reflexivity|]. simpl. repeat split.
Qed.

(** C6: with positive rates, local currency to euros and back, and
    indexed units to local currency and back, return the amount they
    started from; in exact arithmetic the round trips are equalities, so
    they hold within every tolerance. *)
Theorem C6_conversion_round_trips (self : RealEstateCalculator) (x : Q) :
  0 < uf_clp (rates self) ->
  0 < eur_clp (rates self) ->
  (exists e, clp_to_eur self x = Ok e /\ eur_to_clp self e == x)
  /\ (exists u, clp_to_uf self (uf_to_clp self x) = Ok u /\ u == x)
  /\ forall tol, 0 <= tol ->
       (forall e, clp_to_eur self x = Ok e ->
                  Qabs (eur_to_clp self e - x) <= tol)
       /\ (forall u, clp_to_uf self (uf_to_clp self x) = Ok u ->
                     Qabs (u - x) <= tol).
Proof.
  intros Huf Heur.
  assert (Huf0 : ~ uf_clp (rates self) == 0) by lra.
  assert (Heur0 : ~ eur_clp (rates self) == 0) by lra.
  unfold clp_to_eur, eur_to_clp, clp_to_uf, uf_to_clp.
  rewrite !fdiv_ok by assumption.
  assert (E1 : x / eur_clp (rates self) * eur_clp (rates self) == x)
    by (field; assumption).
  assert (E2 : x * uf_clp (rates self) / uf_clp (rates self) == x)
    by (field; assumption).
  split; [eexists; split; [reflexivity | exact E1]|].
  split; [eexists; split; [reflexivity | exact E2]|].
  intros tol Htol. split.
  - intros e [= <-].
    assert (E : x / eur_clp (rates self) * eur_clp (rates self) - x == 0)
      by (rewrite E1; ring).
    rewrite E. exact Htol.
  - intros u [= <-].
    assert (E : x * uf_clp (rates self) / uf_clp (rates self) - x == 0)
      by (rewrite E2; ring).
    rewrite E. exact Htol.
Qed.

Lemma C6_conversion_round_trips_witness :
  (exists e, clp_to_eur Scenario.calculator 1000000 = Ok e
             /\ eur_to_clp Scenario.calculator e == 1000000)
  /\ (exists u, clp_to_uf Scenario.calculator
                  (uf_to_clp Scenario.calculator 5000) = Ok u
                /\ u == 5000).
Proof.
  split.
  - apply (C6_conversion_round_trips Scenario.calculator 1000000);
      reflexivity.
  - apply (C6_conversion_round_trips Scenario.calculator 5000);
      reflexivity.
Defined.

End ConversionFacts.

(** ** financials.py: initial investment *)

Section CapexFacts.

Import Financials.
Local Open Scope Q_scope.

(** C5, as the code has it: the registry fee is rounded to two decimals,
    so for a value of 1.5 it is 0.01 and not [min(1.5 * 0.005, 50)]. *)
Lemma C5_registry_fee_is_rounded :
  cbrs_uf (calculate_initial_investment Scenario.calculator 1.5 0.30) == 0.01
  /\ ~ cbrs_uf (calculate_initial_investment Scenario.calculator 1.5 0.30)
       == min2 (1.5 * 0.005) 50.
Proof.
  split; vm_compute; [reflexivity | discriminate].
Qed.

(** C5, amended: for every positive property value and every
    down-payment fraction the registry fee is [min(V * 0.005, 50)] brought
    to two decimals: a whole number of hundredths within 0.005 of
    [min(V * 0.005, 50)], whichever way a tie is settled; a value of 5000
    gives 25 and a value of 20000 gives 50. *)
Theorem C5_registry_fee (self : RealEstateCalculator) (V pie : Q) :
  0 < V ->
  Qabs (cbrs_uf (calculate_initial_investment self V pie)
        - min2 (V * 0.005) 50) <= 0.005
  /\ (exists z : Z,
        cbrs_uf (calculate_initial_investment self V pie)
        == inject_Z z / 100)
  /\ cbrs_uf (calculate_initial_investment self 5000 pie) == 25
  /\ cbrs_uf (calculate_initial_investment self 20000 pie) == 50.
Proof.
  intros _.
  split; [|split; [|split; vm_compute; reflexivity]].
  - unfold calculate_initial_investment. cbn [cbrs_uf].
    assert (E : min2 (V * MARKET_RATES.cbrs_rate) MARKET_RATES.cbrs_tope_uf
                == min2 (V * 0.005) 50)
      by (apply min2_proper; reflexivity).
    rewrite E.
    pose proof (round_error (min2 (V * 0.005) 50) 2) as [H1 H2].
    assert (E2 : (1 # 2) / 10 ^ 2 == 0.005) by reflexivity.
    rewrite E2 in H1, H2.
    apply Qabs_Qle_condition. split; lra.
  - unfold calculate_initial_investment. cbn [cbrs_uf].
    apply round_hundredths.
Qed.

End CapexFacts.

Lemma C5_registry_fee_witness :
  (Qabs (Financials.cbrs_uf
           (Financials.calculate_initial_investment Scenario.calculator
              5005 0.30)
         - min2 (5005 * 0.005) 50) <= 0.005)%Q.
Proof.
  destruct (C5_registry_fee Scenario.calculator 5005 0.30) as [H _];
    [reflexivity | exact H].
Defined.

(** ** financials.py: internal rate of return *)

Section IrrFacts.

Import Financials.
Local Open Scope Q_scope.

Variable npf_irr : list Q → npf.irr_outcome.

Lemma calculate_irr_cons (self : RealEstateCalculator) (ci ev c : Q)
    (cfs : list Q) :
  exists o, calculate_irr npf_irr self ci (c :: cfs) ev = Ok o.
Proof.
  unfold calculate_irr.
  destruct (exists_last (l := c :: cfs)) as (l' & a & E); [discriminate|].
  rewrite E, getitem_last. simpl.
  destruct (npf_irr _); eexists; reflexivity.
Qed.

(** C8: [calculate_irr] raises [IndexError] exactly when the list of
    monthly cash flows is empty; on every other list it returns, with a
    rate or with [None], whatever the root finder does. *)
Theorem C8_calculate_irr_index_error (self : RealEstateCalculator)
    (cash_invested exit_value : Q) (monthly_cashflows : list Q) :
  (calculate_irr npf_irr self cash_invested monthly_cashflows exit_value
     = Raise IndexError
   <-> monthly_cashflows = [])
  /\ match monthly_cashflows with
     | [] => calculate_irr npf_irr self cash_invested [] exit_value
             = Raise IndexError
     | _ :: _ =>
         exists o : option Q,
           calculate_irr npf_irr self cash_invested monthly_cashflows
                         exit_value = Ok o
     end.
Proof.
  destruct monthly_cashflows as [|c cfs].
  - split; [|reflexivity]. split; reflexivity.
  - destruct (calculate_irr_cons self cash_invested exit_value c cfs)
      as [o Ho].
    split; [|eauto]. rewrite Ho. split; discriminate.
Qed.

Lemma irr_field_none (v : Q) : irr_field (Some v) = None <-> v == 0.
Proof.
  unfold irr_field, truthy. split.
  - destruct (Qeq_bool v 0) eqn:E; [|discriminate].
    intros _. now apply Qeq_bool_iff.
  - intros H. apply Qeq_bool_iff in H. now rewrite H.
Qed.

Lemma irr_field_some (v : Q) :
  ~ v == 0 -> irr_field (Some v) = Some (round v 4).
Proof.
  intros H. unfold irr_field, truthy.
  apply Qeq_bool_false in H. now rewrite H.
Qed.

Lemma calculate_irr_spec (self : RealEstateCalculator) (ci ev final : Q)
    (cfs : list Q) :
  getitem cfs (-1) = Ok final ->
  calculate_irr npf_irr self ci cfs ev
  = match npf_irr (([- ci] ++ all_but_last cfs) ++ [final + ev]) with
    | npf.IrrRate r => Ok (Some ((1 + r) ^ 12 - 1))
    | _ => Ok None
    end.
Proof.
  intros H. unfold calculate_irr. rewrite H.
  cbn [mbind result_bind]. now destruct (npf_irr _).
Qed.

(** Evaluate the first stage of a chain of binds when it is closed. *)
Ltac eval_stage :=
  match goal with
  | |- context [@mbind result _ ?A ?B ?k ?e] =>
      let v := eval vm_compute in e in
      replace e with v by (vm_compute; reflexivity);
      cbn [mbind result_bind]; cbv beta
  end.

(** Bring the list on the left of a [Forall2 Qeq] to normal form and
    compare it with the one on the right entry by entry. *)
Ltac compare_flows :=
  match goal with
  | |- Forall2 Qeq ?l _ =>
      let v := eval vm_compute in l in
      replace l with v by (vm_compute; reflexivity)
  end;
  vm_compute;
  repeat (constructor; [reflexivity|]); constructor.

(** C2, where the code departs from it: in the analysis of
    [Scenario.even_property] the five-year flows are
    [Scenario.even_flows], which add up to zero.  When the root finder
    answers the rate zero for these flows, [calculate_irr] returns the
    number 0, and the analysis reports [irr_5_years = None] although a
    rate was computed. *)
Theorem C2_zero_irr_reported_as_none :
  (forall cfs, Forall2 Qeq cfs Scenario.even_flows ->
               npf_irr cfs = npf.IrrRate 0) ->
  fold_right Qplus 0 Scenario.even_flows == 0
  /\ (exists v, calculate_irr npf_irr Scenario.even_calculator 38232000
                  (repeat (-962800) 60) 96000000 = Ok (Some v) /\ v == 0)
  /\ exists m, analyze_investment npf_irr Scenario.even_calculator
                 Scenario.even_property Scenario.even_mortgage
                 Scenario.even_operating = Ok m
               /\ irr_5_years m = None.
Proof.
  intros Hroot. split; [vm_compute; reflexivity|]. split.
  - erewrite calculate_irr_spec by (vm_compute; reflexivity).
    rewrite Hroot by compare_flows.
    eexists. split; reflexivity.
  - unfold analyze_investment. cbv zeta.
    eval_stage.
    unfold calculate_monthly_cashflow at 1. cbv beta iota zeta.
    do 3 eval_stage.
    erewrite calculate_irr_spec by (vm_compute; reflexivity).
    rewrite Hroot by compare_flows.
    cbn [mbind result_bind]; cbv beta.
    do 2 eval_stage.
    erewrite calculate_irr_spec by (vm_compute; reflexivity).
    match goal with
    | |- context [npf_irr ?l] => destruct (npf_irr l)
    end; cbn [mbind result_bind]; cbv beta; do 5 eval_stage;
      (eexists; split; [reflexivity | vm_compute; reflexivity]).
Qed.

Lemma fold_plus_Qeq (l l' : list Q) :
  Forall2 Qeq l l' -> fold_right Qplus 0 l == fold_right Qplus 0 l'.
Proof.
  induction 1 as [|x y l l' Hxy _ IH]; cbn [fold_right]; [reflexivity|].
  now rewrite Hxy, IH.
Qed.

End IrrFacts.

Lemma C2_zero_irr_reported_as_none_witness :
  exists m, Financials.analyze_investment Scenario.zero_when_balanced
              Scenario.even_calculator Scenario.even_property
              Scenario.even_mortgage Scenario.even_operating = Py.Ok m
            /\ Financials.irr_5_years m = None.
Proof.
  apply (C2_zero_irr_reported_as_none Scenario.zero_when_balanced).
  intros cfs H. unfold Scenario.zero_when_balanced.
  apply fold_plus_Qeq in H.
  assert (E : Qeq_bool (fold_right Qplus 0%Q cfs) 0 = true).
  { apply Qeq_bool_iff. rewrite H. vm_compute. reflexivity. }
  now rewrite E.
Defined.

(** ** Geometric sums and the annuity factor *)

Section AnnuityFacts.

Import Annuity.
Local Open Scope Q_scope.

Lemma pow_S (q : Q) (m : nat) : q ^ Z.of_nat (S m) == q * q ^ Z.of_nat m.
Proof.
  rewrite Nat2Z.inj_succ. unfold Z.succ.
  rewrite Qpower_plus' by lia. rewrite Qpower_1_r. ring.
Qed.

Lemma pow_gt0 (q : Q) (m : nat) : 0 < q -> 0 < q ^ Z.of_nat m.
Proof. intros. now apply Qpower_0_lt. Qed.

Lemma pow_add (q : Q) (a b : nat) :
  q ^ Z.of_nat (a + b) == q ^ Z.of_nat a * q ^ Z.of_nat b.
Proof.
  induction a as [|a IH].
  - simpl. ring.
  - change (S a + b)%nat with (S (a + b)). rewrite !pow_S, IH. ring.
Qed.

Lemma pow_le_base (q1 q2 : Q) (d : nat) :
  0 <= q1 -> q1 <= q2 -> q1 ^ Z.of_nat d <= q2 ^ Z.of_nat d.
Proof.
  intros H0 H. induction d as [|d IH].
  - simpl. lra.
  - rewrite !pow_S.
    assert (0 <= q1 ^ Z.of_nat d) by (apply Qpower_0_le; assumption).
    nra.
Qed.

Lemma pow_lt_base (q1 q2 : Q) (d : nat) :
  0 < q1 -> q1 < q2 -> q1 ^ Z.of_nat (S d) < q2 ^ Z.of_nat (S d).
Proof.
  intros H0 H. induction d as [|d IH].
  - rewrite !pow_S. simpl. lra.
  - rewrite (pow_S q1 (S d)), (pow_S q2 (S d)).
    assert (0 < q1 ^ Z.of_nat (S d)) by (apply pow_gt0; assumption).
    nra.
Qed.

Lemma geom_closed (i : Q) (m : nat) :
  i * geom (1 + i) m == (1 + i) ^ Z.of_nat m - 1.
Proof.
  induction m as [|m IH].
  - simpl. ring.
  - cbn [geom]. rewrite pow_S.
    setoid_replace (i * (geom (1 + i) m + (1 + i) ^ Z.of_nat m))
      with (i * geom (1 + i) m + i * (1 + i) ^ Z.of_nat m)
      using relation Qeq by ring.
    rewrite IH. ring.
Qed.

Lemma geom_nonneg (q : Q) (m : nat) : 0 < q -> 0 <= geom q m.
Proof.
  intros H. induction m as [|m IH]; cbn [geom]; [lra|].
  pose proof (pow_gt0 q m H). lra.
Qed.

Lemma geom_pos (q : Q) (m : nat) : 0 < q -> 0 < geom q (S m).
Proof.
  intros H. cbn [geom].
  pose proof (geom_nonneg q m H). pose proof (pow_gt0 q m H). lra.
Qed.

Lemma geom_one (q : Q) (m : nat) :
  q == 1 -> geom q m == inject_Z (Z.of_nat m).
Proof.
  intros H. induction m as [|m IH].
  - reflexivity.
  - cbn [geom]. rewrite IH, H, Qpower_1.
    rewrite Nat2Z.inj_succ. unfold Z.succ. rewrite inject_Z_plus.
    reflexivity.
Qed.

(** How [npf.pmt] evaluates on the domain of a mortgage: a rate that is
    not negative and at least one period. *)
Lemma pmt_annuity (i P : Q) (m : nat) :
  0 <= i ->
  exists p, npf.pmt i (Z.of_nat (S m)) P = Ok p
            /\ - p == P * rho (1 + i) (S m).
Proof.
  intros Hi. unfold npf.pmt, rho.
  assert (Hq : 0 < 1 + i) by lra.
  assert (E0 : Qeq_bool (1 + i) 0 = false) by (apply Qeq_bool_false; lra).
  rewrite E0. cbn [andb].
  pose proof (geom_pos (1 + i) m Hq) as HG.
  pose proof (geom_closed i (S m)) as HC.
  set (T := (1 + i) ^ Z.of_nat (S m)) in *.
  set (G := geom (1 + i) (S m)) in *.
  assert (Hfact : (if Qeq_bool i 0 then inject_Z (Z.of_nat (S m))
                   else (T - 1) / i) == G).
  { destruct (Qeq_bool i 0) eqn:E.
    - apply Qeq_bool_iff in E. subst G. symmetry. apply geom_one.
      rewrite E. ring.
    - apply Qeq_bool_false in E. rewrite <- HC. field. exact E. }
  destruct (Qeq_bool (if Qeq_bool i 0 then _ else _) 0) eqn:E1.
  - apply Qeq_bool_iff in E1. rewrite Hfact in E1. lra.
  - eexists. split; [reflexivity|]. rewrite Hfact. field. lra.
Qed.

(** The factor falls when a period is added. *)
Lemma rho_step (i : Q) (m : nat) :
  0 <= i -> rho (1 + i) (S (S m)) < rho (1 + i) (S m).
Proof.
  intros Hi. unfold rho.
  assert (Hq : 0 < 1 + i) by lra.
  pose proof (geom_pos (1 + i) m Hq) as HG1.
  pose proof (geom_pos (1 + i) (S m) Hq) as HG2.
  pose proof (geom_closed i (S m)) as HC.
  pose proof (pow_gt0 (1 + i) (S m) Hq) as HT.
  rewrite (pow_S (1 + i) (S m)).
  change (geom (1 + i) (S (S m)))
    with (geom (1 + i) (S m) + (1 + i) ^ Z.of_nat (S m)).
  set (T := (1 + i) ^ Z.of_nat (S m)) in *.
  set (G := geom (1 + i) (S m)) in *.
  apply Qlt_shift_div_r; [lra|].
  setoid_replace (T / G * (G + T)) with (T * (G + T) / G)
    using relation Qeq by (field; lra).
  apply Qlt_shift_div_l; [lra|].
  nra.
Qed.

Lemma rho_anti (i : Q) (m d : nat) :
  0 <= i -> rho (1 + i) (S m + d) <= rho (1 + i) (S m).
Proof.
  intros Hi. induction d as [|d IH].
  - rewrite Nat.add_0_r. lra.
  - replace (S m + S d)%nat with (S (S (m + d))) by lia.
    pose proof (rho_step i (m + d) Hi) as Hs.
    change (S m + d)%nat with (S (m + d)) in IH. lra.
Qed.

Lemma rho_anti_strict (i : Q) (m d : nat) :
  0 <= i -> rho (1 + i) (S m + S d) < rho (1 + i) (S m).
Proof.
  intros Hi.
  replace (S m + S d)%nat with (S (S (m + d))) by lia.
  pose proof (rho_step i (m + d) Hi) as Hs.
  pose proof (rho_anti i m d Hi) as Ha.
  change (S m + d)%nat with (S (m + d)) in Ha. lra.
Qed.

(** Term by term, the sum for the higher rate weighs less against its
    top power. *)
Lemma geom_cross (q1 q2 : Q) (k d : nat) :
  0 < q1 -> q1 <= q2 ->
  q1 ^ Z.of_nat (k + d) * geom q2 k <= q2 ^ Z.of_nat (k + d) * geom q1 k.
Proof.
  intros H1 H12. revert d. induction k as [|k IH]; intros d.
  - cbn [geom]. lra.
  - cbn [geom].
    specialize (IH (S d)).
    replace (k + S d)%nat with (S k + d)%nat in IH by lia.
    assert (Hterm : q1 ^ Z.of_nat (S k + d) * q2 ^ Z.of_nat k
                    <= q2 ^ Z.of_nat (S k + d) * q1 ^ Z.of_nat k).
    { replace (S k + d)%nat with (k + S d)%nat by lia.
      rewrite !pow_add.
      pose proof (pow_le_base q1 q2 (S d) (Qlt_le_weak _ _ H1) H12) as Hd.
      pose proof (pow_gt0 q1 k H1) as Ha.
      assert (Hq2 : 0 < q2) by lra.
      pose proof (pow_gt0 q2 k Hq2) as Hc.
      assert (Hac : 0 <= q1 ^ Z.of_nat k * q2 ^ Z.of_nat k)
        by (apply Qmult_le_0_compat; lra).
      pose proof (Qmult_le_compat_r _ _ _ Hd Hac).
      lra. }
    lra.
Qed.

Lemma geom_cross_strict (q1 q2 : Q) (k d : nat) :
  0 < q1 -> q1 < q2 ->
  q1 ^ Z.of_nat (S k + d) * geom q2 (S k)
  < q2 ^ Z.of_nat (S k + d) * geom q1 (S k).
Proof.
  intros H1 H12. cbn [geom].
  pose proof (geom_cross q1 q2 k (S d) H1 (Qlt_le_weak _ _ H12)) as Hc.
  replace (k + S d)%nat with (S k + d)%nat in Hc by lia.
  assert (Hterm : q1 ^ Z.of_nat (S k + d) * q2 ^ Z.of_nat k
                  < q2 ^ Z.of_nat (S k + d) * q1 ^ Z.of_nat k).
  { replace (S k + d)%nat with (k + S d)%nat by lia.
    rewrite !pow_add.
    pose proof (pow_lt_base q1 q2 d H1 H12) as Hd.
    pose proof (pow_gt0 q1 k H1) as Ha.
    assert (Hq2 : 0 < q2) by lra.
    pose proof (pow_gt0 q2 k Hq2) as Hb.
    assert (Hac : 0 < q1 ^ Z.of_nat k * q2 ^ Z.of_nat k)
      by (apply Qmult_lt_0_compat; lra).
    pose proof (Qmult_lt_compat_r _ _ _ Hac Hd).
    lra. }
  lra.
Qed.

Lemma div_le_cross (a b c d : Q) :
  0 < b -> 0 < d -> a * d <= c * b -> a / b <= c / d.
Proof.
  intros Hb Hd H.
  apply Qle_shift_div_r; [exact Hb|].
  setoid_replace (c / d * b) with (c * b / d)
    using relation Qeq by (field; lra).
  apply Qle_shift_div_l; [exact Hd|]. exact H.
Qed.

Lemma div_lt_cross (a b c d : Q) :
  0 < b -> 0 < d -> a * d < c * b -> a / b < c / d.
Proof.
  intros Hb Hd H.
  apply Qlt_shift_div_r; [exact Hb|].
  setoid_replace (c / d * b) with (c * b / d)
    using relation Qeq by (field; lra).
  apply Qlt_shift_div_l; [exact Hd|]. exact H.
Qed.

(** The factor rises with the rate. *)
Lemma rho_mono (i1 i2 : Q) (m : nat) :
  0 <= i1 -> i1 <= i2 -> rho (1 + i1) (S m) <= rho (1 + i2) (S m).
Proof.
  intros H1 H12. unfold rho.
  assert (Hq1 : 0 < 1 + i1) by lra. assert (Hq2 : 0 < 1 + i2) by lra.
  apply div_le_cross; try (apply geom_pos; assumption).
  pose proof (geom_cross (1 + i1) (1 + i2) (S m) 0 Hq1) as Hc.
  rewrite Nat.add_0_r in Hc. apply Hc. lra.
Qed.

Lemma rho_mono_strict (i1 i2 : Q) (m : nat) :
  0 <= i1 -> i1 < i2 -> rho (1 + i1) (S m) < rho (1 + i2) (S m).
Proof.
  intros H1 H12. unfold rho.
  assert (Hq1 : 0 < 1 + i1) by lra. assert (Hq2 : 0 < 1 + i2) by lra.
  apply div_lt_cross; try (apply geom_pos; assumption).
  pose proof (geom_cross_strict (1 + i1) (1 + i2) m 0 Hq1) as Hc.
  rewrite Nat.add_0_r in Hc. apply Hc. lra.
Qed.

Lemma rho_pos (i : Q) (m : nat) : 0 <= i -> 0 < rho (1 + i) (S m).
Proof.
  intros Hi. unfold rho. assert (Hq : 0 < 1 + i) by lra.
  apply Qlt_shift_div_l; [now apply geom_pos|].
  rewrite Qmult_0_l. now apply pow_gt0.
Qed.

End AnnuityFacts.

(** ** financials.py: the fixed payment and the amortization table *)

Section MortgageFacts.

Import Financials Annuity.
Local Open Scope Q_scope.

Lemma monthly_rate_nonneg (r : Q) : 0 <= r -> 0 <= r / 100 / 12.
Proof.
  intros H. unfold Qdiv.
  repeat apply Qmult_le_0_compat; try assumption; discriminate.
Qed.

Lemma monthly_rate_le (r1 r2 : Q) : r1 <= r2 -> r1 / 100 / 12 <= r2 / 100 / 12.
Proof.
  intros H. unfold Qdiv.
  repeat apply Qmult_le_compat_r; try assumption; discriminate.
Qed.

Lemma monthly_rate_lt (r1 r2 : Q) : r1 < r2 -> r1 / 100 / 12 < r2 / 100 / 12.
Proof.
  intros H. unfold Qdiv.
  repeat apply Qmult_lt_compat_r; try assumption; reflexivity.
Qed.

(** A term of [n >= 1] years has [12 n = S m] payments. *)
Lemma payments_succ (n : Z) :
  (1 <= n)%Z -> exists m, (n * 12)%Z = Z.of_nat (S m)
                          /\ Z.to_nat (n * 12) = S m
                          /\ (11 <= m)%nat.
Proof.
  intros H. exists (Z.to_nat (n * 12) - 1)%nat. lia.
Qed.

Lemma strongly_sorted_lookup {A} (R : A -> A -> Prop) (l : list A) :
  StronglySorted R l ->
  forall (i j : nat) (a b : A),
    (i < j)%nat -> l !! i = Some a -> l !! j = Some b -> R a b.
Proof.
  induction 1 as [|x l Hs IH Hall]; intros i j a b Hij Ha Hb.
  - discriminate.
  - destruct j as [|j]; [lia|]. destruct i as [|i].
    + injection Ha as <-. simpl in Hb.
      rewrite Forall_forall in Hall. apply Hall.
      eapply list_elem_of_lookup_2. exact Hb.
    + simpl in Ha, Hb. apply (IH i j); [lia | assumption | assumption].
Qed.

(** The loop of the amortization table, started with [m] periods to go
    from a balance that these periods repay exactly. *)
Lemma schedule_loop_spec (i cuota : Q) :
  0 <= i -> 0 <= cuota ->
  forall (m : nat) (p : Z) (s : Q),
    s * (1 + i) ^ Z.of_nat m == cuota * geom (1 + i) m ->
    let l := schedule_loop i cuota p s m in
    length l = m
    /\ Forall (fun e => saldo_uf e <= round (max2 0 s) 4) l
    /\ StronglySorted (fun a b => saldo_uf b <= saldo_uf a) l
    /\ forall e, last l = Some e -> saldo_uf e == 0.
Proof.
  intros Hi Hc. assert (Hq : 0 < 1 + i) by lra.
  induction m as [|m IH]; intros p s Hinv.
  - simpl. repeat split; [constructor | constructor | discriminate].
  - cbn [schedule_loop]. cbv zeta.
    set (s' := Qred (s - (cuota - s * i))).
    assert (Es' : s' == s * (1 + i) - cuota).
    { subst s'. rewrite Qred_correct. ring. }
    pose proof (pow_gt0 (1 + i) m Hq) as HT.
    assert (Hinv' : s' * (1 + i) ^ Z.of_nat m == cuota * geom (1 + i) m).
    { rewrite Es'. cbn [geom] in Hinv. rewrite pow_S in Hinv.
      setoid_replace ((s * (1 + i) - cuota) * (1 + i) ^ Z.of_nat m)
        with (s * ((1 + i) * (1 + i) ^ Z.of_nat m)
              - cuota * (1 + i) ^ Z.of_nat m)
        using relation Qeq by ring.
      rewrite Hinv. ring. }
    assert (Hle : s' <= s).
    { pose proof (geom_closed i (S m)) as HC.
      pose proof (pow_gt0 (1 + i) (S m) Hq) as HTS.
      assert (E : (cuota - s * i) * (1 + i) ^ Z.of_nat (S m) == cuota).
      { setoid_replace ((cuota - s * i) * (1 + i) ^ Z.of_nat (S m))
          with (cuota * (1 + i) ^ Z.of_nat (S m)
                - i * (s * (1 + i) ^ Z.of_nat (S m)))
          using relation Qeq by ring.
        rewrite Hinv.
        setoid_replace (i * (cuota * geom (1 + i) (S m)))
          with (cuota * (i * geom (1 + i) (S m)))
          using relation Qeq by ring.
        rewrite HC. ring. }
      assert (0 <= cuota - s * i).
      { destruct (Qlt_le_dec (cuota - s * i) 0) as [Hneg|]; [|assumption].
        exfalso.
        assert (- (cuota - s * i) * (1 + i) ^ Z.of_nat (S m) > 0)
          by (apply Qmult_lt_0_compat; lra).
        lra. }
      rewrite Es'. lra. }
    destruct (IH (p + 1)%Z s' Hinv') as (Hlen & Hall & Hsort & Hlast).
    assert (Hmono : round (max2 0 s') 4 <= round (max2 0 s) 4)
      by (apply round_mono, max2_le_mono, Hle).
    repeat split.
    + cbn [length]. now rewrite Hlen.
    + constructor; [exact Hmono|].
      eapply Forall_impl; [exact Hall|].
      intros e He. cbv beta in He |- *. lra.
    + constructor; [exact Hsort|]. exact Hall.
    + intros e He. destruct m as [|m].
      * cbn in He. injection He as <-. cbn [saldo_uf].
        cbn [geom] in Hinv'. change (Z.of_nat 0) with 0%Z in Hinv'.
        assert (E0 : s' == 0).
        { rewrite Qpower_0_r in Hinv'. lra. }
        rewrite E0. apply round_0.
      * apply Hlast. cbn [schedule_loop] in He |- *. exact He.
Qed.

(** C3: for a positive principal, a rate that is not negative and a term
    of at least one year, the amortization table has [12 n] rows, the
    recorded balance never rises from one row to a later one, and the
    last recorded balance is zero, hence within every tolerance of it. *)
Theorem C3_amortization_schedule (self : RealEstateCalculator)
    (P r : Q) (n : Z) :
  0 < P -> 0 <= r -> (1 <= n)%Z ->
  exists schedule,
    generate_amortization_schedule self P r n = Ok schedule
    /\ length schedule = Z.to_nat (12 * n)
    /\ (forall (i j : nat) (a b : ScheduleEntry),
          (i <= j)%nat -> schedule !! i = Some a -> schedule !! j = Some b ->
          saldo_uf b <= saldo_uf a)
    /\ exists final,
         last schedule = Some final
         /\ saldo_uf final == 0
         /\ forall eps, 0 <= eps -> Qabs (saldo_uf final) <= eps.
Proof.
  intros HP Hr Hn.
  destruct (payments_succ n Hn) as (m & EZ & EN & _).
  pose proof (monthly_rate_nonneg r Hr) as Hi.
  unfold generate_amortization_schedule. cbv zeta.
  destruct (pmt_annuity (r / 100 / 12) P m Hi) as (p & Ep & Hp).
  rewrite EZ, Nat2Z.id, Ep. cbn [mbind result_bind mret result_ret].
  set (i := r / 100 / 12) in *. set (cuota := Qred (- p)).
  assert (Ec : cuota == P * rho (1 + i) (S m))
    by (subst cuota; rewrite Qred_correct; exact Hp).
  pose proof (rho_pos i m Hi) as Hrho.
  assert (Hc : 0 <= cuota).
  { rewrite Ec. apply Qmult_le_0_compat; lra. }
  assert (Hq : 0 < 1 + i) by lra.
  pose proof (geom_pos (1 + i) m Hq) as HG.
  assert (Hinv : P * (1 + i) ^ Z.of_nat (S m) == cuota * geom (1 + i) (S m)).
  { rewrite Ec. unfold rho. field. lra. }
  destruct (schedule_loop_spec i cuota Hi Hc (S m) 1%Z P Hinv)
    as (Hlen & _ & Hsort & Hlast).
  eexists. split; [reflexivity|].
  split; [rewrite Hlen; lia|].
  split.
  - intros a b x y Hab Hx Hy.
    destruct (Nat.eq_dec a b) as [<-|Hne].
    + rewrite Hx in Hy. injection Hy as <-. lra.
    + eapply (strongly_sorted_lookup _ _ Hsort a b); [lia | eauto | eauto].
  - destruct (last (schedule_loop i cuota 1 P (S m))) as [e|] eqn:El.
    + exists e. split; [reflexivity|].
      pose proof (Hlast e eq_refl) as E0. split; [exact E0|].
      intros eps Heps. rewrite E0. exact Heps.
    + apply last_None in El. cbn [schedule_loop] in El. discriminate.
Qed.

Lemma C3_amortization_schedule_witness :
  exists schedule,
    generate_amortization_schedule Scenario.calculator 3500 4.5 20
      = Ok schedule
    /\ length schedule = 240%nat.
Proof.
  destruct (C3_amortization_schedule Scenario.calculator 3500 4.5 20)
    as (schedule & E & Hlen & _); [reflexivity | discriminate | lia |].
  exists schedule. split; [exact E | exact Hlen].
Defined.

(** The base installment, before and after rounding. *)
Lemma mortgage_payment_annuity (self : RealEstateCalculator)
    (P r V : Q) (n : Z) (m : nat) :
  0 <= r -> (n * 12)%Z = Z.of_nat (S m) ->
  exists p mp,
    npf.pmt (r / 100 / 12) (n * 12) P = Ok p
    /\ - p == P * rho (1 + r / 100 / 12) (S m)
    /\ calculate_mortgage_payment self P r n V = Ok mp
    /\ cuota_base_uf mp = round (- p) 4.
Proof.
  intros Hr EZ.
  pose proof (monthly_rate_nonneg r Hr) as Hi.
  destruct (pmt_annuity (r / 100 / 12) P m Hi) as (p & Ep & Hp).
  unfold calculate_mortgage_payment. cbv zeta.
  rewrite EZ, Ep. cbn [mbind result_bind mret result_ret].
  exists p. eexists. split; [reflexivity|]. split; [exact Hp|].
  split; reflexivity.
Qed.

(** C4: with the principal fixed at a positive value, the base
    installment does not fall when the annual rate rises (over rates that
    are not negative) and does not rise when the term in years grows (over
    terms of at least one year).  Before it is rounded to four decimals
    the payment is strictly monotone in both. *)
Theorem C4_installment_monotone (self : RealEstateCalculator) (P V : Q) :
  0 < P ->
  (forall (r1 r2 : Q) (n : Z),
      0 <= r1 -> r1 <= r2 -> (1 <= n)%Z ->
      exists m1 m2,
        calculate_mortgage_payment self P r1 n V = Ok m1
        /\ calculate_mortgage_payment self P r2 n V = Ok m2
        /\ cuota_base_uf m1 <= cuota_base_uf m2)
  /\ (forall (r : Q) (n1 n2 : Z),
        0 <= r -> (1 <= n1)%Z -> (n1 <= n2)%Z ->
        exists m1 m2,
          calculate_mortgage_payment self P r n1 V = Ok m1
          /\ calculate_mortgage_payment self P r n2 V = Ok m2
          /\ cuota_base_uf m2 <= cuota_base_uf m1)
  /\ (forall (r1 r2 : Q) (n : Z),
        0 <= r1 -> r1 < r2 -> (1 <= n)%Z ->
        exists p1 p2,
          npf.pmt (r1 / 100 / 12) (n * 12) P = Ok p1
          /\ npf.pmt (r2 / 100 / 12) (n * 12) P = Ok p2
          /\ - p1 < - p2)
  /\ (forall (r : Q) (n1 n2 : Z),
        0 <= r -> (1 <= n1)%Z -> (n1 < n2)%Z ->
        exists p1 p2,
          npf.pmt (r / 100 / 12) (n1 * 12) P = Ok p1
          /\ npf.pmt (r / 100 / 12) (n2 * 12) P = Ok p2
          /\ - p2 < - p1).
Proof.
  intros HP. repeat split.
  - intros r1 r2 n H1 H12 Hn.
    destruct (payments_succ n Hn) as (m & EZ & _ & _).
    assert (H2 : 0 <= r2) by lra.
    destruct (mortgage_payment_annuity self P r1 V n m H1 EZ)
      as (p1 & mp1 & _ & Hp1 & E1 & C1).
    destruct (mortgage_payment_annuity self P r2 V n m H2 EZ)
      as (p2 & mp2 & _ & Hp2 & E2 & C2).
    exists mp1, mp2. repeat split; [assumption | assumption |].
    rewrite C1, C2. apply round_mono. rewrite Hp1, Hp2.
    pose proof (rho_mono _ _ m (monthly_rate_nonneg r1 H1)
                  (monthly_rate_le r1 r2 H12)) as Hm.
    apply Qmult_le_l; assumption.
  - intros r n1 n2 Hr Hn1 Hn12.
    assert (Hn2 : (1 <= n2)%Z) by lia.
    destruct (payments_succ n1 Hn1) as (m1 & EZ1 & _ & _).
    destruct (payments_succ n2 Hn2) as (m2 & EZ2 & _ & _).
    destruct (mortgage_payment_annuity self P r V n1 m1 Hr EZ1)
      as (p1 & mp1 & _ & Hp1 & E1 & C1).
    destruct (mortgage_payment_annuity self P r V n2 m2 Hr EZ2)
      as (p2 & mp2 & _ & Hp2 & E2 & C2).
    exists mp1, mp2. repeat split; [assumption | assumption |].
    rewrite C1, C2. apply round_mono. rewrite Hp1, Hp2.
    replace (S m2) with (S m1 + (m2 - m1))%nat by lia.
    pose proof (rho_anti _ m1 (m2 - m1) (monthly_rate_nonneg r Hr)) as Hm.
    apply Qmult_le_l; assumption.
  - intros r1 r2 n H1 H12 Hn.
    destruct (payments_succ n Hn) as (m & EZ & _ & _).
    assert (H2 : 0 <= r2) by lra.
    destruct (mortgage_payment_annuity self P r1 V n m H1 EZ)
      as (p1 & mp1 & Ep1 & Hp1 & _).
    destruct (mortgage_payment_annuity self P r2 V n m H2 EZ)
      as (p2 & mp2 & Ep2 & Hp2 & _).
    exists p1, p2. repeat split; [assumption | assumption |].
    rewrite Hp1, Hp2.
    pose proof (rho_mono_strict _ _ m (monthly_rate_nonneg r1 H1)
                  (monthly_rate_lt r1 r2 H12)) as Hm.
    apply Qmult_lt_l; assumption.
  - intros r n1 n2 Hr Hn1 Hn12.
    assert (Hn2 : (1 <= n2)%Z) by lia.
    destruct (payments_succ n1 Hn1) as (m1 & EZ1 & _ & _).
    destruct (payments_succ n2 Hn2) as (m2 & EZ2 & _ & _).
    destruct (mortgage_payment_annuity self P r V n1 m1 Hr EZ1)
      as (p1 & mp1 & Ep1 & Hp1 & _).
    destruct (mortgage_payment_annuity self P r V n2 m2 Hr EZ2)
      as (p2 & mp2 & Ep2 & Hp2 & _).
    exists p1, p2. repeat split; [assumption | assumption |].
    rewrite Hp1, Hp2.
    replace (S m2) with (S m1 + S (m2 - m1 - 1))%nat by lia.
    pose proof (rho_anti_strict _ m1 (m2 - m1 - 1)
                  (monthly_rate_nonneg r Hr)) as Hm.
    apply Qmult_lt_l; assumption.
Qed.

Lemma C4_installment_monotone_witness :
  exists m1 m2,
    calculate_mortgage_payment Scenario.calculator 3500 4.5 20 5000 = Ok m1
    /\ calculate_mortgage_payment Scenario.calculator 3500 5 20 5000 = Ok m2
    /\ cuota_base_uf m1 <= cuota_base_uf m2.
Proof.
  destruct (C4_installment_monotone Scenario.calculator 3500 5000)
    as (Hrate & _); [reflexivity|].
  apply Hrate; [discriminate | discriminate | lia].
Defined.

End MortgageFacts.

(** ** market_intelligence.py: location analysis *)

Section LocationFacts.

Import MarketIntelligence.
Local Open Scope R_scope.

Variable lower : string → string.

Lemma analyze_at_invariant (self : LocationAnalyzer) (la lo : R) :
  let r := analyze_at self la lo in
  has_metro_access r = dist_lt (distance_meters r) 1500
  /\ (has_metro_access r = true <-> connectivity_level r <> NONE).
Proof.
  unfold analyze_at. cbv zeta. cbn [has_metro_access distance_meters
                                   connectivity_level].
  split; [reflexivity|].
  destruct (head _) as [s|]; cbn [dist_lt].
  - repeat case_bool_decide; split; intros Hx;
      try discriminate; try reflexivity; try contradiction; try lra.
  - split; [discriminate | contradiction].
Qed.

(** C10: every result of [LocationAnalyzer.analyze] has
    [has_metro_access] true exactly when the connectivity level is not
    [NONE], and exactly when the distance to the nearest station is below
    1500 meters; when no coordinates are given and the commune is
    missing, empty or unknown, the distance is infinite, there is no
    nearest station, no nearby station and no line, and the walking time
    is 0. *)
Theorem C10_metro_access_invariant (self : LocationAnalyzer)
    (lat lon : option R) (comuna : option string) :
  let r := LocationAnalyzer_analyze lower self lat lon comuna in
  (has_metro_access r = true <-> connectivity_level r <> NONE)
  /\ has_metro_access r = dist_lt (distance_meters r) 1500
  /\ ((lat = None \/ lon = None) ->
      (forall c, comuna = Some c ->
                 c = EmptyString
                 \/ get_coordinates_for_comuna lower self c = None) ->
      distance_meters r = Infinite
      /\ nearest_station r = None
      /\ nearby_stations r = []
      /\ metro_lines_nearby r = []
      /\ walking_time_minutes r = 0%Z
      /\ connectivity_level r = NONE
      /\ has_metro_access r = false).
Proof.
  assert (Hno : (has_metro_access no_coordinates = true
                 <-> connectivity_level no_coordinates <> NONE)
                /\ has_metro_access no_coordinates
                   = dist_lt (distance_meters no_coordinates) 1500).
  { cbn. split; [|reflexivity]. split; [discriminate | contradiction]. }
  assert (Hat : forall la lo,
             (has_metro_access (analyze_at self la lo) = true
              <-> connectivity_level (analyze_at self la lo) <> NONE)
             /\ has_metro_access (analyze_at self la lo)
                = dist_lt (distance_meters (analyze_at self la lo)) 1500).
  { intros la lo. pose proof (analyze_at_invariant self la lo) as [H1 H2].
    split; assumption. }
  assert (Hcom : let r := match comuna with
                          | Some (String c s) =>
                              match get_coordinates_for_comuna lower self
                                      (String c s) with
                              | Some (la, lo) => analyze_at self la lo
                              | None => no_coordinates
                              end
                          | _ => no_coordinates
                          end in
                 (has_metro_access r = true <-> connectivity_level r <> NONE)
                 /\ has_metro_access r = dist_lt (distance_meters r) 1500).
  { destruct comuna as [[|c s]|]; try exact Hno.
    destruct (get_coordinates_for_comuna _ _ _) as [[la lo]|];
      [apply Hat | exact Hno]. }
  cbv zeta in *. split; [|split].
  - unfold LocationAnalyzer_analyze.
    destruct lat, lon; try apply Hcom. apply Hat.
  - unfold LocationAnalyzer_analyze.
    destruct lat, lon; try apply Hcom. apply Hat.
  - intros Hcoord Hunknown. unfold LocationAnalyzer_analyze.
    assert (Hr : match comuna with
                 | Some (String c s) =>
                     match get_coordinates_for_comuna lower self
                             (String c s) with
                     | Some (la, lo) => analyze_at self la lo
                     | None => no_coordinates
                     end
                 | _ => no_coordinates
                 end = no_coordinates).
    { destruct comuna as [[|c s]|]; try reflexivity.
      destruct (Hunknown _ eq_refl) as [E|E]; [discriminate E|].
      now rewrite E. }
    destruct lat, lon;
      try (destruct Hcoord as [Hx|Hx]; discriminate Hx);
      rewrite Hr; cbn; repeat split; reflexivity.
Qed.

End LocationFacts.

Lemma C10_metro_access_invariant_witness :
  let r := MarketIntelligence.LocationAnalyzer_analyze (fun s => s)
             (MarketIntelligence.LocationAnalyzer_init None)
             None None (Some "Atlantis") in
  MarketIntelligence.distance_meters r = MarketIntelligence.Infinite
  /\ MarketIntelligence.has_metro_access r = false.
Proof.
  destruct (C10_metro_access_invariant (fun s => s)
              (MarketIntelligence.LocationAnalyzer_init None)
              None None (Some "Atlantis")) as (_ & _ & H).
  destruct H as (Hd & _ & _ & _ & _ & _ & Ha).
  - left. reflexivity.
  - intros c [= <-]. right. reflexivity.
  - split; [exact Hd | exact Ha].
Defined.

(** ** market_intelligence.py: comparable rents *)

Section ComparableFacts.

Import MarketIntelligence.
Local Open Scope Q_scope.

Variable rng_state : Type.
Variable seed : Z → rng_state.
Variable uniform : Q → Q → rng_state → Q * rng_state.
Variable choice : list Z → rng_state → Z * rng_state.

Local Abbreviation generate := (_generate_synthetic_comparables rng_state seed
                        uniform choice).

(** C7: the list of comparables does not depend on the state in which
    the call finds the random generator, because the call reseeds it with
    42: two calls with the same arguments return the same list, in two
    runs or one after the other in the same run. *)
Theorem C7_generator_deterministic (self : MarketCompScraper)
    (comuna : string) (superficie_m2 : Q) (dormitorios n_samples : Z)
    (g1 g2 : rng_state) :
  (generate self comuna superficie_m2 dormitorios n_samples g1).1
  = (generate self comuna superficie_m2 dormitorios n_samples g2).1
  /\ (generate self comuna superficie_m2 dormitorios n_samples
        (generate self comuna superficie_m2 dormitorios n_samples g1).2).1
     = (generate self comuna superficie_m2 dormitorios n_samples g1).1.
Proof.
  assert (H : forall g g',
             (generate self comuna superficie_m2 dormitorios n_samples g).1
             = (generate self comuna superficie_m2 dormitorios n_samples
                  g').1).
  { intros g g'. unfold _generate_synthetic_comparables.
    destruct (rent_data self !! "_default") as [fallback|]; [|reflexivity].
    destruct (default fallback (rent_data self !! comuna)) as [lo hi].
    destruct (generate_loop _ _ _ _ _ _ _ _ _ _) as [l g'']. reflexivity. }
  split; apply H.
Qed.

Lemma generate_loop_length (comuna : string) (sup : Q) (dorm : Z)
    (lo hi : Q) (k : nat) (g : rng_state) :
  length (generate_loop rng_state uniform choice comuna sup dorm lo hi k g).1
  = k.
Proof.
  revert g. induction k as [|k IH]; intros g; [reflexivity|].
  cbn [generate_loop].
  destruct (uniform _ _ g) as [f g1].
  destruct (uniform lo hi g1) as [pm g2].
  destruct (choice _ g2) as [d1 g3].
  destruct (choice _ g3) as [d2 g4].
  specialize (IH g4).
  destruct (generate_loop _ _ _ _ _ _ _ _ _ g4) as [rest g5].
  cbn in *. now rewrite IH.
Qed.

Lemma generate_length (self : MarketCompScraper) (comuna : string)
    (sup : Q) (dorm n : Z) (g : rng_state) (l : list RentComparable) :
  (generate self comuna sup dorm n g).1 = Ok l -> length l = Z.to_nat n.
Proof.
  unfold _generate_synthetic_comparables.
  destruct (rent_data self !! "_default") as [fallback|]; [|discriminate].
  destruct (default fallback (rent_data self !! comuna)) as [lo hi].
  pose proof (generate_loop_length comuna sup dorm lo hi (Z.to_nat n)
                (seed 42)) as Hlen.
  destruct (generate_loop _ _ _ _ _ _ _ _ _ _) as [l' g'].
  cbn in *. intros [= <-]. exact Hlen.
Qed.

Lemma inject_nat_S (n : nat) :
  inject_Z (Z.of_nat (S n)) == inject_Z (Z.of_nat n) + 1.
Proof.
  rewrite Nat2Z.inj_succ. unfold Z.succ. now rewrite inject_Z_plus.
Qed.

Lemma inject_nat_nonneg (n : nat) : 0 <= inject_Z (Z.of_nat n).
Proof.
  change 0 with (inject_Z 0). rewrite <- Zle_Qle. lia.
Qed.

Lemma fsum_cons (x : Q) (l : list Q) : fsum (x :: l) = x + fsum l.
Proof. reflexivity. Qed.

Lemma square_nonneg (y : Q) : 0 <= y * y.
Proof.
  destruct (Qlt_le_dec y 0) as [Hn|Hp].
  - setoid_replace (y * y) with ((- y) * (- y)) using relation Qeq by ring.
    apply Qmult_le_0_compat; lra.
  - apply Qmult_le_0_compat; lra.
Qed.

Lemma fsum_squares_nonneg (m : Q) (l : list Q) :
  0 <= fsum (map (fun x => (x - m) * (x - m)) l).
Proof.
  induction l as [|x l IH]; [cbn; lra|].
  cbn [map]. rewrite fsum_cons.
  pose proof (square_nonneg (x - m)). lra.
Qed.

(** If every term exceeds [c], the sum exceeds [c] times the length. *)
Lemma fsum_above (f : Q -> Q) (c : Q) (l : list Q) :
  Forall (fun x => c < f x) l ->
  c * inject_Z (Z.of_nat (length l)) <= fsum (map f l)
  /\ (l <> [] -> c * inject_Z (Z.of_nat (length l)) < fsum (map f l)).
Proof.
  induction 1 as [|x l Hx Hl [IH _]].
  - cbn [length map]. change (fsum []) with 0.
    change (inject_Z (Z.of_nat 0)) with 0.
    split; [lra | contradiction].
  - cbn [length map]. rewrite fsum_cons, inject_nat_S.
    setoid_replace (c * (inject_Z (Z.of_nat (length l)) + 1))
      with (c * inject_Z (Z.of_nat (length l)) + c)
      using relation Qeq by ring.
    split; [lra|]. intros _. lra.
Qed.

Lemma all_above_or_one_below (f : Q -> Q) (c : Q) (l : list Q) :
  Forall (fun x => c < f x) l \/ exists x, x ∈ l /\ f x <= c.
Proof.
  induction l as [|x l [IH|(y & Hin & Hy)]].
  - left. constructor.
  - destruct (Qlt_le_dec c (f x)) as [Hlt|Hle].
    + left. constructor; assumption.
    + right. exists x. split; [constructor | assumption].
  - right. exists y. split; [now constructor | assumption].
Qed.

(** Some point lies within two sample standard deviations of the
    centre: the squared deviations sum to [n - 1] times the variance. *)
Lemma exists_within_two_sigma (m v : Q) (l : list Q) :
  l <> [] -> 0 <= v ->
  fsum (map (fun x => (x - m) * (x - m)) l)
    == v * (inject_Z (Z.of_nat (length l)) - 1) ->
  exists x, x ∈ l /\ (x - m) * (x - m) <= 4 * v.
Proof.
  intros Hne Hv Hss.
  destruct (all_above_or_one_below (fun x => (x - m) * (x - m)) (4 * v) l)
    as [Hall|He]; [|exact He].
  exfalso.
  destruct (fsum_above (fun x => (x - m) * (x - m)) (4 * v) l Hall)
    as [_ Hgt].
  specialize (Hgt Hne).
  pose proof (inject_nat_nonneg (length l)) as Hn0.
  rewrite Hss in Hgt. nra.
Qed.

Lemma mean_ok (l : list Q) :
  l <> [] ->
  mean l = Ok (Qred (fsum l / inject_Z (Z.of_nat (length l)))).
Proof. destruct l; [contradiction | reflexivity]. Qed.

Lemma Q2R_two : Q2R 2.0 = 2%R.
Proof.
  rewrite (Qreals.Qeq_eqR 2.0 2) by reflexivity.
  unfold Q2R. cbn. lra.
Qed.

(** A squared deviation of at most [4 v] puts the point between the two
    bounds of the filter. *)
Lemma within_bounds (x m v : Q) :
  0 <= v -> (x - m) * (x - m) <= 4 * v ->
  (Q2R m - sqrt (Q2R v) * Q2R 2.0 <= Q2R x)%R
  /\ (Q2R x <= Q2R m + sqrt (Q2R v) * Q2R 2.0)%R.
Proof.
  intros Hv H. rewrite Q2R_two.
  apply Qreals.Qle_Rle in H, Hv.
  rewrite !Qreals.Q2R_mult, !Qreals.Q2R_minus in H.
  rewrite RMicromega.Q2R_0 in Hv.
  replace (Q2R 4) with 4%R in H by (unfold Q2R; cbn; lra).
  pose proof (sqrt_pos (Q2R v)) as Hs.
  pose proof (sqrt_sqrt (Q2R v) Hv) as Hss.
  set (s := sqrt (Q2R v)) in *. set (d := (Q2R x - Q2R m)%R) in *.
  assert (Hd : (d * d <= (2 * s) * (2 * s))%R) by nra.
  split.
  - destruct (Rle_dec (- (2 * s)) d) as [Hle|Hnle]; [subst d; lra|].
    exfalso. assert (0 < - d - 2 * s)%R by lra. nra.
  - destruct (Rle_dec d (2 * s)) as [Hle|Hnle]; [subst d; lra|].
    exfalso. assert (0 < d - 2 * s)%R by lra. nra.
Qed.

Lemma remove_outliers_nonempty (self : MarketCompScraper)
    (comparables : list RentComparable) :
  comparables <> [] ->
  exists filtered,
    _remove_outliers self comparables 2.0 = Ok filtered /\ filtered <> [].
Proof.
  intros Hne. unfold _remove_outliers.
  destruct (length comparables <? 3)%nat eqn:E3; [eauto|].
  apply Nat.ltb_ge in E3.
  set (prices := map precio_clp comparables).
  assert (Hlen : length prices = length comparables)
    by (subst prices; apply length_map).
  assert (Hpne : prices <> []).
  { intros E. rewrite E in Hlen. cbn in Hlen. lia. }
  rewrite (mean_ok prices Hpne). cbn [mbind result_bind].
  assert (E1 : (1 <? length prices)%nat = true) by (apply Nat.ltb_lt; lia).
  rewrite E1. unfold stdev, variance.
  assert (E2 : (length prices <? 2)%nat = false) by (apply Nat.ltb_ge; lia).
  rewrite E2, (mean_ok prices Hpne).
  cbn [mbind result_bind mret result_ret].
  set (m := Qred (fsum prices / inject_Z (Z.of_nat (length prices)))).
  set (ss := fsum (map (fun x => (x - m) * (x - m)) prices)).
  set (v := Qred (ss / (inject_Z (Z.of_nat (length prices)) - 1))).
  destruct (decide (sqrt (Q2R v) = 0%R)) as [_|_]; [eauto|].
  eexists. split; [reflexivity|].
  assert (Hn1 : 0 < inject_Z (Z.of_nat (length prices)) - 1).
  { assert (H2 : inject_Z 2 <= inject_Z (Z.of_nat (length prices)))
      by (rewrite <- Zle_Qle; lia).
    change (inject_Z 2) with 2 in H2. lra. }
  assert (Ev : v == ss / (inject_Z (Z.of_nat (length prices)) - 1))
    by (subst v; apply Qred_correct).
  assert (Hv : 0 <= v).
  { rewrite Ev. apply Qle_shift_div_l; [exact Hn1|].
    rewrite Qmult_0_l. apply fsum_squares_nonneg. }
  assert (Hss : ss == v * (inject_Z (Z.of_nat (length prices)) - 1)).
  { rewrite Ev. field. lra. }
  destruct (exists_within_two_sigma m v prices Hpne Hv Hss)
    as (x & Hin & Hx).
  subst prices. apply list_elem_of_fmap in Hin.
  destruct Hin as (c & -> & Hc).
  pose proof (within_bounds (precio_clp c) m v Hv Hx) as Hb.
  intros Hnil.
  assert (Hcf : c ∈ filter
                  (fun c => (Q2R m - sqrt (Q2R v) * Q2R 2.0
                             <= Q2R (precio_clp c))%R
                            /\ (Q2R (precio_clp c)
                                <= Q2R m + sqrt (Q2R v) * Q2R 2.0)%R)
                  comparables).
  { apply list_elem_of_filter. split; assumption. }
  rewrite Hnil in Hcf. inversion Hcf.
Qed.

(** C9: with the default factor, [_remove_outliers] returns a list that
    is not empty whenever its input is not empty; the fifteen comparables
    that [analyze_market_rent] generates therefore never take its
    fallback to the unfiltered set. *)
Theorem C9_outlier_filter_keeps_a_sample (self : MarketCompScraper) :
  (forall comparables : list RentComparable,
      match comparables with
      | [] => _remove_outliers self [] 2.0 = Ok []
      | _ :: _ =>
          exists filtered,
            _remove_outliers self comparables 2.0 = Ok filtered
            /\ filtered <> []
      end)
  /\ forall (comuna : string) (superficie_m2 : Q) (dormitorios : Z)
            (g : rng_state) (comparables : list RentComparable),
       (generate self comuna superficie_m2 dormitorios 15 g).1
         = Ok comparables ->
       exists filtered,
         _remove_outliers self comparables 2.0 = Ok filtered
         /\ match filtered with
            | [] => comparables
            | _ :: _ => filtered
            end = filtered.
Proof.
  split.
  - intros [|c l]; [reflexivity|].
    apply remove_outliers_nonempty. discriminate.
  - intros comuna sup dorm g comparables Hgen.
    apply generate_length in Hgen.
    destruct comparables as [|c l]; [discriminate Hgen|].
    destruct (remove_outliers_nonempty self (c :: l)) as (f & Ef & Hf);
      [discriminate|].
    exists f. split; [exact Ef|]. destruct f; [contradiction | reflexivity].
Qed.

End ComparableFacts.

Lemma C9_outlier_filter_keeps_a_sample_witness :
  exists comparables filtered,
    (MarketIntelligence._generate_synthetic_comparables unit
       (fun _ => tt) (fun a b g => (((a + b) / 2)%Q, g))
       (fun l g => (0%Z, g))
       (MarketIntelligence.MarketCompScraper_init None)
       "Providencia" 65 2 15 tt).1 = Py.Ok comparables
    /\ MarketIntelligence._remove_outliers
         (MarketIntelligence.MarketCompScraper_init None)
         comparables 2.0%Q = Py.Ok filtered.
Proof.
  destruct (C9_outlier_filter_keeps_a_sample unit (fun _ => tt)
              (fun a b g => (((a + b) / 2)%Q, g)) (fun l g => (0%Z, g))
              (MarketIntelligence.MarketCompScraper_init None))
    as [_ H].
  destruct (MarketIntelligence._generate_synthetic_comparables unit
              (fun _ => tt) (fun a b g => (((a + b) / 2)%Q, g))
              (fun l g => (0%Z, g))
              (MarketIntelligence.MarketCompScraper_init None)
              "Providencia" 65 2 15 tt).1 as [comparables|e] eqn:E.
  - destruct (H "Providencia" 65%Q 2%Z tt comparables E) as (f & Ef & _).
    exists comparables, f. split; [reflexivity | exact Ef].
  - vm_compute in E. discriminate E.
Defined.

(** ** financials.py: further properties *)

Section CacheFacts.

Import Financials.
Context {V : Type}.

(** A value stored in the cache is returned for exactly one hour, under
    its own key only, and storing again replaces it. *)
Theorem cache_set_then_get (c : gmap string (V * Z)) (t t' : Z)
    (key key' : string) (v w : V) :
  (_get_cached (_set_cache c t key v) t' key = Some v
   <-> (t' - t < CACHE_DURATION)%Z)
  /\ ((CACHE_DURATION <= t' - t)%Z ->
      _get_cached (_set_cache c t key v) t' key = None)
  /\ (key <> key' ->
      _get_cached (_set_cache c t key v) t' key' = _get_cached c t' key')
  /\ _set_cache (_set_cache c t key v) t' key w = _set_cache c t' key w.
Proof.
  unfold _get_cached, _set_cache. repeat split.
  - rewrite lookup_insert_eq.
    destruct (t' - t <? CACHE_DURATION)%Z eqn:E; [|discriminate].
    intros _. now apply Z.ltb_lt.
  - intros H. rewrite lookup_insert_eq.
    apply Z.ltb_lt in H. now rewrite H.
  - intros H. rewrite lookup_insert_eq.
    apply Z.ltb_ge in H. now rewrite H.
  - intros H. now rewrite lookup_insert_ne.
  - apply insert_insert_eq.
Qed.

End CacheFacts.

Lemma cache_set_then_get_witness :
  Financials._get_cached
    (Financials._set_cache ∅ 0 "rates_today" Scenario.backup_rates)
    1000000 "rates_today" = Some Scenario.backup_rates.
Proof.
  apply (cache_set_then_get (V := Financials.CurrencyRates) ∅ 0 1000000
           "rates_today" "x" Scenario.backup_rates Scenario.backup_rates).
  reflexivity.
Defined.

Section ProjectionFacts.

Import Financials.
Local Open Scope Q_scope.

Lemma project_loop_spec (rate : Q) (k : nat) :
  forall (v : Q) (j : nat),
    (j < k)%nat ->
    exists x, project_loop rate v k !! j = Some x
              /\ x == v * (1 + rate) ^ Z.of_nat (S j).
Proof.
  induction k as [|k IH]; intros v j Hj; [lia|].
  cbn [project_loop]. cbv zeta. destruct j as [|j].
  - eexists. split; [reflexivity|]. rewrite Qred_correct.
    rewrite Qpower_1_r. reflexivity.
  - destruct (IH (Qred (v * (1 + rate))) j) as (x & Ex & Hx); [lia|].
    exists x. split; [exact Ex|].
    rewrite Hx, Qred_correct, (pow_S (1 + rate) (S j)). ring.
Qed.

Lemma project_loop_length (rate v : Q) (k : nat) :
  length (project_loop rate v k) = k.
Proof.
  revert v. induction k as [|k IH]; intros v; [reflexivity|].
  cbn [project_loop length]. cbv zeta. now rewrite IH.
Qed.

(** The projection of the property value has [years + 1] entries, starts
    at the initial value, and its [k]-th entry is the initial value grown
    [k] times: [initial * (1 + rate)^k]. *)
Theorem project_property_value_growth (self : RealEstateCalculator)
    (initial rate : Q) (years : Z) :
  (0 <= years)%Z ->
  length (project_property_value self initial years rate)
    = S (Z.to_nat years)
  /\ forall k : nat,
       (k <= Z.to_nat years)%nat ->
       exists x, project_property_value self initial years rate !! k = Some x
                 /\ x == initial * (1 + rate) ^ Z.of_nat k.
Proof.
  intros Hy. unfold project_property_value. split.
  - cbn [length]. now rewrite project_loop_length.
  - intros [|k] Hk.
    + exists initial. split; [reflexivity|]. simpl. ring.
    + apply (project_loop_spec rate (Z.to_nat years) initial k). lia.
Qed.

Lemma project_property_value_growth_witness :
  exists x, project_property_value Scenario.calculator 5000 10 0.02 !! 5%nat
            = Some x
            /\ x == 5000 * (1 + 0.02) ^ 5.
Proof.
  destruct (project_property_value_growth Scenario.calculator 5000 0.02 10)
    as [_ H]; [lia|].
  apply (H 5%nat). cbn. lia.
Defined.

End ProjectionFacts.

Section EquityFacts.

Import Financials.
Local Open Scope Q_scope.

Lemma nth_error_lookup {A} (l : list A) (i : nat) : nth_error l i = l !! i.
Proof.
  revert i. induction l as [|x l IH]; intros [|i]; try reflexivity.
  apply IH.
Qed.

Lemma getitem_in_range {A} (l : list A) (i : Z) :
  (0 <= i < Z.of_nat (length l))%Z ->
  exists x, getitem l i = Ok x /\ l !! Z.to_nat i = Some x.
Proof.
  intros [H0 H1]. rewrite getitem_nonneg by assumption.
  rewrite nth_error_lookup.
  destruct (l !! Z.to_nat i) as [x|] eqn:E; [eauto|].
  apply lookup_ge_None in E. lia.
Qed.

Lemma getitem_out_of_range {A} (l : list A) (i : Z) :
  (Z.of_nat (length l) <= i)%Z -> getitem l i = Raise IndexError.
Proof.
  intros H. rewrite getitem_nonneg by lia.
  rewrite nth_error_lookup.
  destruct (l !! Z.to_nat i) as [x|] eqn:E; [|reflexivity].
  apply lookup_lt_Some in E. lia.
Qed.

Lemma project_equity_loop_spec (schedule : list ScheduleEntry) :
  schedule <> [] ->
  forall (values : list Q) (y0 : Z),
    (0 <= y0)%Z ->
    exists rows,
      project_equity_loop schedule y0 values = Ok rows
      /\ length rows = length values
      /\ forall (k : nat) (v : Q),
           values !! k = Some v ->
           exists row e,
             rows !! k = Some row
             /\ schedule !! equity_row_index (length schedule)
                              (y0 + Z.of_nat k) = Some e
             /\ year row = (y0 + Z.of_nat k)%Z
             /\ property_value_uf row = round v 2
             /\ debt_uf row = round (saldo_uf e) 2
             /\ equity_uf row = round (v - saldo_uf e) 2.
Proof.
  intros Hne. induction values as [|v values IH]; intros y0 Hy.
  - exists []. repeat split. intros k v Hk. discriminate.
  - cbn [project_equity_loop].
    assert (Hdebt : exists e,
               (if (y0 =? 0)%Z
                then match schedule with
                     | [] => mret 0
                     | _ :: _ => row ← getitem schedule 0; mret (saldo_uf row)
                     end
                else row ← getitem schedule
                             (Z.min (y0 * 12 - 1)
                                    (Z.of_nat (length schedule) - 1));
                     mret (saldo_uf row)) = Ok (saldo_uf e)
               /\ schedule !! equity_row_index (length schedule) y0 = Some e).
    { unfold equity_row_index.
      assert (Hlen : (0 < length schedule)%nat)
        by (destruct schedule; [contradiction | cbn; lia]).
      destruct (y0 =? 0)%Z eqn:E0.
      - destruct schedule as [|e0 rest]; [contradiction|].
        exists e0. split; reflexivity.
      - apply Z.eqb_neq in E0.
        destruct (getitem_in_range schedule
                    (Z.min (y0 * 12 - 1) (Z.of_nat (length schedule) - 1)))
          as (e & Eg & El); [lia|].
        exists e. rewrite Eg. split; [reflexivity | exact El]. }
    destruct Hdebt as (e & Ed & El). rewrite Ed.
    cbn [mbind result_bind].
    destruct (IH (y0 + 1)%Z) as (rows & Er & Hlen & Hrows); [lia|].
    rewrite Er. cbn [mbind result_bind mret result_ret].
    eexists. split; [reflexivity|]. split; [cbn; now rewrite Hlen|].
    intros [|k] w Hk.
    + injection Hk as <-. eexists. exists e.
      split; [reflexivity|]. rewrite Z.add_0_r.
      split; [exact El|]. repeat split.
    + destruct (Hrows k w Hk) as (row & e' & R1 & R2 & R3 & R4).
      exists row, e'. split; [exact R1|].
      replace (y0 + Z.of_nat (S k))%Z with (y0 + 1 + Z.of_nat k)%Z by lia.
      split; [exact R2|]. exact (conj R3 R4).
Qed.

(** With a table that is not empty, [project_equity] never raises and
    returns one row per projected value.  Year 0 reads the first row of
    the table (the balance after the first payment); year [y >= 1] reads
    row [12 y - 1], or the last row when the table is shorter. *)
Theorem project_equity_clamps (self : RealEstateCalculator)
    (values : list Q) (schedule : list ScheduleEntry) :
  schedule <> [] ->
  exists rows,
    project_equity self values schedule = Ok rows
    /\ length rows = length values
    /\ forall (y : nat) (v : Q),
         values !! y = Some v ->
         exists row e,
           rows !! y = Some row
           /\ schedule !! (if (y =? 0)%nat then 0%nat
                           else Nat.min (12 * y - 1) (length schedule - 1))
              = Some e
           /\ year row = Z.of_nat y
           /\ property_value_uf row = round v 2
           /\ debt_uf row = round (saldo_uf e) 2
           /\ equity_uf row = round (v - saldo_uf e) 2.
Proof.
  intros Hne. unfold project_equity.
  destruct (project_equity_loop_spec schedule Hne values 0)
    as (rows & Er & Hlen & Hrows); [lia|].
  exists rows. split; [exact Er|]. split; [exact Hlen|].
  intros y v Hy. destruct (Hrows y v Hy) as (row & e & R1 & R2 & R3 & R4).
  exists row, e. split; [exact R1|]. rewrite Z.add_0_l in R2, R3.
  split; [|exact (conj R3 R4)].
  unfold equity_row_index in R2.
  destruct y as [|y]; [exact R2|].
  cbn [Nat.eqb].
  replace (Z.of_nat (S y) =? 0)%Z with false in R2
    by (symmetry; apply Z.eqb_neq; lia).
  replace (Nat.min (12 * S y - 1) (length schedule - 1))
    with (Z.to_nat (Z.min (Z.of_nat (S y) * 12 - 1)
                          (Z.of_nat (length schedule) - 1)))
    by lia.
  exact R2.
Qed.

Lemma project_equity_clamps_witness :
  exists rows,
    project_equity Scenario.calculator [5000; 5100; 5202]
      [mkScheduleEntry 1 22 13 9 3491; mkScheduleEntry 2 22 13 9 3482]
    = Ok rows
    /\ length rows = 3%nat.
Proof.
  destruct (project_equity_clamps Scenario.calculator [5000; 5100; 5202]
              [mkScheduleEntry 1 22 13 9 3491; mkScheduleEntry 2 22 13 9 3482])
    as (rows & E & Hlen & _); [discriminate|].
  exists rows. split; [exact E | exact Hlen].
Defined.

(** With an empty table only year 0 is guarded: the projection raises
    [IndexError] as soon as there are two values or more. *)
Theorem project_equity_empty_schedule (self : RealEstateCalculator)
    (values : list Q) :
  project_equity self values []
  = match values with
    | [] => Ok []
    | [v] => Ok [mkEquityRow 0 (round v 2) (round 0 2) (round (v - 0) 2)]
    | _ :: _ :: _ => Raise IndexError
    end.
Proof.
  destruct values as [|v [|w rest]]; reflexivity.
Qed.

End EquityFacts.

Section AnalysisFacts.

Import Financials Annuity.
Local Open Scope Q_scope.

Variable npf_irr : list Q → npf.irr_outcome.

Lemma schedule_loop_length (i c : Q) (p : Z) (s : Q) (k : nat) :
  length (schedule_loop i c p s k) = k.
Proof.
  revert p s. induction k as [|k IH]; intros p s; [reflexivity|].
  cbn [schedule_loop length]. cbv zeta. now rewrite IH.
Qed.

Lemma generate_schedule_ok (self : RealEstateCalculator) (P r : Q) (n : Z) :
  0 <= r -> (1 <= n)%Z ->
  exists schedule,
    generate_amortization_schedule self P r n = Ok schedule
    /\ length schedule = Z.to_nat (n * 12).
Proof.
  intros Hr Hn.
  destruct (payments_succ n Hn) as (m & EZ & EN & _).
  destruct (pmt_annuity (r / 100 / 12) P m (monthly_rate_nonneg r Hr))
    as (p & Ep & _).
  unfold generate_amortization_schedule. cbv zeta.
  rewrite EZ, Ep. cbn [mbind result_bind mret result_ret].
  eexists. split; [reflexivity|]. apply schedule_loop_length.
Qed.

Lemma bind_Ok {A B} (k : A -> result B) (x : A) : mbind k (Ok x) = k x.
Proof. reflexivity. Qed.

Lemma calculate_irr_replicate (self : RealEstateCalculator) (ci cf ev : Q)
    (n : Z) :
  (1 <= n)%Z ->
  exists o, calculate_irr npf_irr self ci (replicate_list cf n) ev = Ok o.
Proof.
  intros Hn. unfold replicate_list.
  destruct (Z.to_nat n) as [|k] eqn:E; [lia|].
  apply calculate_irr_cons.
Qed.

Lemma getitem_projection (self : RealEstateCalculator) (v0 g : Q) (i : Z) :
  (0 <= i <= 10)%Z ->
  exists x, getitem (project_property_value self v0 10 g) i = Ok x.
Proof.
  intros Hi.
  destruct (getitem_in_range (project_property_value self v0 10 g) i)
    as (x & E & _); [|eauto].
  unfold project_property_value. cbn [length].
  rewrite project_loop_length. lia.
Qed.

(** Reduce the first two stages of [analyze_investment], which succeed
    whenever the rate is not negative and the term is at least a year. *)
Ltac analysis_prefix Hr Hn mp sched Hlen :=
  unfold analyze_investment; cbv zeta;
  match goal with
  | |- context [calculate_mortgage_payment ?s ?P ?r ?n ?V] =>
      let m := fresh "m" in
      let EZ := fresh "EZ" in
      let E := fresh "E" in
      destruct (payments_succ n Hn) as (m & EZ & _ & _);
      destruct (mortgage_payment_annuity s P r V n m Hr EZ)
        as (? & mp & _ & _ & E & _);
      rewrite E; clear E; rewrite bind_Ok;
      unfold calculate_monthly_cashflow at 1; cbv beta iota zeta;
      destruct (generate_schedule_ok s P r n Hr Hn) as (sched & E & Hlen);
      rewrite E; clear E; rewrite bind_Ok
  end.

(** A term of one to nine years cannot be analysed: the ten-year horizon
    reads row 119 of the amortization table (and the five-year horizon
    row 59), which a shorter table does not have. *)
Theorem analyze_investment_short_term (self : RealEstateCalculator)
    (property_input : PropertyInput) (mortgage_input : MortgageInput)
    (operating_input : OperatingInput) :
  0 <= tasa_anual mortgage_input ->
  (1 <= plazo_anos mortgage_input <= 9)%Z ->
  analyze_investment npf_irr self property_input mortgage_input
                     operating_input = Raise IndexError.
Proof.
  intros Hr [Hn H9].
  analysis_prefix Hr Hn mp sched Hlen.
  match goal with
  | |- context [getitem ?l 5] =>
      destruct (getitem_projection self (precio_uf property_input)
                  (plusvalia_annual operating_input) 5) as (v5 & E5); [lia|];
      rewrite E5; rewrite bind_Ok
  end.
  destruct (Z_lt_le_dec (plazo_anos mortgage_input) 5) as [Hlt|Hge].
  - rewrite (getitem_out_of_range sched 59) by lia. reflexivity.
  - destruct (getitem_in_range sched 59) as (r59 & E59 & _); [lia|].
    rewrite E59. rewrite bind_Ok.
    match goal with
    | |- context [calculate_irr npf_irr self ?ci (replicate_list ?cf 60) ?ev] =>
        destruct (calculate_irr_replicate self ci cf ev 60) as (i5 & Ei);
          [lia|]; rewrite Ei; rewrite bind_Ok
    end.
    destruct (getitem_projection self (precio_uf property_input)
                (plusvalia_annual operating_input) 10) as (v10 & E10); [lia|].
    rewrite E10. rewrite bind_Ok.
    rewrite (getitem_out_of_range sched 119) by lia. reflexivity.
Qed.

(** With a rate that is not negative, a term of at least ten years and a
    euro rate other than zero, the analysis returns.  Its price, CAPEX,
    OPEX, mortgage and rate fields are the inputs and intermediate results
    unchanged, the flag tells whether the monthly cash flow is positive,
    and each IRR field is the answer of [calculate_irr] for its horizon
    passed through [round(irr, 4) if irr else None]. *)
Theorem analyze_investment_returns (self : RealEstateCalculator)
    (property_input : PropertyInput) (mortgage_input : MortgageInput)
    (operating_input : OperatingInput) :
  0 <= tasa_anual mortgage_input ->
  (10 <= plazo_anos mortgage_input)%Z ->
  ~ eur_clp (rates self) == 0 ->
  let capex := calculate_initial_investment self (precio_uf property_input)
                 (pie_percent mortgage_input) in
  let opex := calculate_monthly_opex self (precio_uf property_input)
                (arriendo_clp property_input)
                (gastos_comunes_clp property_input) operating_input in
  exists metrics mp,
    analyze_investment npf_irr self property_input mortgage_input
                       operating_input = Ok metrics
    /\ calculate_mortgage_payment self
         (precio_uf property_input - pie_uf capex)
         (tasa_anual mortgage_input) (plazo_anos mortgage_input)
         (precio_uf property_input) = Ok mp
    /\ mortgage_payment metrics = mp
    /\ capex_breakdown metrics = capex
    /\ opex_breakdown metrics = opex
    /\ currency_rates metrics = rates self
    /\ precio_total_uf metrics = precio_uf property_input
    /\ inversion_inicial_uf metrics = total_uf capex
    /\ dividendo_mensual_uf metrics = dividendo_total_uf mp
    /\ (let cashflow :=
          (calculate_monthly_cashflow self (arriendo_clp property_input)
             opex mp).2 in
        (is_cashflow_positive metrics = true <-> 0 < cashflow)
        /\ cashflow_mensual_clp metrics = round cashflow 0
        /\ exists i5 i10 e5 e10,
             calculate_irr npf_irr self (uf_to_clp self (total_uf capex))
               (replicate_list cashflow 60) e5 = Ok i5
             /\ calculate_irr npf_irr self (uf_to_clp self (total_uf capex))
                  (replicate_list cashflow 120) e10 = Ok i10
             /\ irr_5_years metrics = irr_field i5
             /\ irr_10_years metrics = irr_field i10).
Proof.
  intros Hr Hn Heur. cbv zeta.
  assert (Hn1 : (1 <= plazo_anos mortgage_input)%Z) by lia.
  unfold analyze_investment; cbv zeta.
  destruct (payments_succ _ Hn1) as (m & EZ & _ & _).
  destruct (mortgage_payment_annuity self
              (precio_uf property_input
               - pie_uf (calculate_initial_investment self
                           (precio_uf property_input)
                           (pie_percent mortgage_input)))
              (tasa_anual mortgage_input) (precio_uf property_input)
              (plazo_anos mortgage_input) m Hr EZ)
    as (p & mp & _ & _ & Emp & _).
  rewrite Emp. rewrite bind_Ok.
  unfold calculate_monthly_cashflow at 1. cbv beta iota zeta.
  destruct (generate_schedule_ok self
              (precio_uf property_input
               - pie_uf (calculate_initial_investment self
                           (precio_uf property_input)
                           (pie_percent mortgage_input)))
              (tasa_anual mortgage_input) (plazo_anos mortgage_input) Hr Hn1)
    as (sched & Es & Hlen).
  rewrite Es. rewrite bind_Ok.
  destruct (getitem_projection self (precio_uf property_input)
              (plusvalia_annual operating_input) 5) as (v5 & E5); [lia|].
  rewrite E5. rewrite bind_Ok.
  destruct (getitem_in_range sched 59) as (r59 & E59 & _); [lia|].
  rewrite E59. rewrite bind_Ok.
  match goal with
  | |- context [calculate_irr npf_irr self ?ci (replicate_list ?cf 60) ?ev] =>
      destruct (calculate_irr_replicate self ci cf ev 60) as (i5 & Ei5);
        [lia|]; rewrite Ei5; rewrite bind_Ok
  end.
  destruct (getitem_projection self (precio_uf property_input)
              (plusvalia_annual operating_input) 10) as (v10 & E10); [lia|].
  rewrite E10. rewrite bind_Ok.
  destruct (getitem_in_range sched 119) as (r119 & E119 & _); [lia|].
  rewrite E119. rewrite bind_Ok.
  match goal with
  | |- context [calculate_irr npf_irr self ?ci (replicate_list ?cf 120) ?ev] =>
      destruct (calculate_irr_replicate self ci cf ev 120) as (i10 & Ei10);
        [lia|]; rewrite Ei10; rewrite bind_Ok
  end.
  unfold uf_to_eur, clp_to_eur. rewrite !fdiv_ok by exact Heur.
  rewrite !bind_Ok. unfold mret, result_ret.
  eexists. exists mp. split; [reflexivity|].
  cbn [mortgage_payment capex_breakdown opex_breakdown currency_rates
       precio_total_uf inversion_inicial_uf dividendo_mensual_uf
       is_cashflow_positive cashflow_mensual_clp irr_5_years irr_10_years].
  repeat (split; [reflexivity|]).
  unfold calculate_monthly_cashflow. cbn [snd].
  split; [apply Qlt_bool_iff|]. split; [reflexivity|].
  eexists i5, i10, _, _. repeat split; eassumption.
Qed.

(** With a euro rate of zero the same analysis runs through both IRR
    computations and then raises [ZeroDivisionError] in the conversion of
    the price to euros. *)
Theorem analyze_investment_zero_euro_rate (self : RealEstateCalculator)
    (property_input : PropertyInput) (mortgage_input : MortgageInput)
    (operating_input : OperatingInput) :
  0 <= tasa_anual mortgage_input ->
  (10 <= plazo_anos mortgage_input)%Z ->
  eur_clp (rates self) == 0 ->
  analyze_investment npf_irr self property_input mortgage_input
                     operating_input = Raise ZeroDivisionError.
Proof.
  intros Hr Hn Heur.
  assert (Hn1 : (1 <= plazo_anos mortgage_input)%Z) by lia.
  analysis_prefix Hr Hn1 mp sched Hlen.
  destruct (getitem_projection self (precio_uf property_input)
              (plusvalia_annual operating_input) 5) as (v5 & E5); [lia|].
  rewrite E5. rewrite bind_Ok.
  destruct (getitem_in_range sched 59) as (r59 & E59 & _); [lia|].
  rewrite E59. rewrite bind_Ok.
  match goal with
  | |- context [calculate_irr npf_irr self ?ci (replicate_list ?cf 60) ?ev] =>
      destruct (calculate_irr_replicate self ci cf ev 60) as (i5 & Ei5);
        [lia|]; rewrite Ei5; rewrite bind_Ok
  end.
  destruct (getitem_projection self (precio_uf property_input)
              (plusvalia_annual operating_input) 10) as (v10 & E10); [lia|].
  rewrite E10. rewrite bind_Ok.
  destruct (getitem_in_range sched 119) as (r119 & E119 & _); [lia|].
  rewrite E119. rewrite bind_Ok.
  match goal with
  | |- context [calculate_irr npf_irr self ?ci (replicate_list ?cf 120) ?ev] =>
      destruct (calculate_irr_replicate self ci cf ev 120) as (i10 & Ei10);
        [lia|]; rewrite Ei10; rewrite bind_Ok
  end.
  unfold uf_to_eur. rewrite !fdiv_zero by exact Heur. reflexivity.
Qed.

End AnalysisFacts.

Lemma analyze_investment_short_term_witness :
  Financials.analyze_investment (fun _ => npf.IrrNaN) Scenario.calculator
    (Financials.mkPropertyInput 5000 800000 80000 65 "Providencia" "")
    (Financials.mkMortgageInput 0.30 4.5 5)
    (Financials.mkOperatingInput 0.05 0.10 0.05 0.02)
  = Py.Raise Py.IndexError.
Proof.
  apply (analyze_investment_short_term (fun _ => npf.IrrNaN)
           Scenario.calculator
           (Financials.mkPropertyInput 5000 800000 80000 65 "Providencia" "")
           (Financials.mkMortgageInput 0.30 4.5 5)
           (Financials.mkOperatingInput 0.05 0.10 0.05 0.02)).
  - discriminate.
  - cbn. lia.
Defined.

Lemma analyze_investment_returns_witness :
  exists metrics,
    Financials.analyze_investment (fun _ => npf.IrrNaN) Scenario.calculator
      (Financials.mkPropertyInput 5000 800000 80000 65 "Providencia" "")
      (Financials.mkMortgageInput 0.30 4.5 20)
      (Financials.mkOperatingInput 0.05 0.10 0.05 0.02)
    = Py.Ok metrics.
Proof.
  destruct (analyze_investment_returns (fun _ => npf.IrrNaN)
              Scenario.calculator
              (Financials.mkPropertyInput 5000 800000 80000 65
                 "Providencia" "")
              (Financials.mkMortgageInput 0.30 4.5 20)
              (Financials.mkOperatingInput 0.05 0.10 0.05 0.02))
    as (metrics & mp & E & _).
  - discriminate.
  - cbn. lia.
  - discriminate.
  - exists metrics. exact E.
Defined.

Lemma analyze_investment_zero_euro_rate_witness :
  Financials.analyze_investment (fun _ => npf.IrrNaN)
    (Financials.mkRealEstateCalculator
       (Financials.mkCurrencyRates 38500 0 980 0%Z))
    (Financials.mkPropertyInput 5000 800000 80000 65 "Providencia" "")
    (Financials.mkMortgageInput 0.30 4.5 20)
    (Financials.mkOperatingInput 0.05 0.10 0.05 0.02)
  = Py.Raise Py.ZeroDivisionError.
Proof.
  apply (analyze_investment_zero_euro_rate (fun _ => npf.IrrNaN)
           (Financials.mkRealEstateCalculator
              (Financials.mkCurrencyRates 38500 0 980 0%Z))
           (Financials.mkPropertyInput 5000 800000 80000 65 "Providencia" "")
           (Financials.mkMortgageInput 0.30 4.5 20)
           (Financials.mkOperatingInput 0.05 0.10 0.05 0.02)).
  - discriminate.
  - cbn. lia.
  - reflexivity.
Defined.

Section PaymentFacts.

Import Financials Annuity.
Local Open Scope Q_scope.

Lemma schedule_loop_rows (i c : Q) (k : nat) :
  forall (p : Z) (s : Q) (j : nat) (row : ScheduleEntry),
    schedule_loop i c p s k !! j = Some row ->
    periodo row = (p + Z.of_nat j)%Z /\ cuota_uf row = round c 4.
Proof.
  induction k as [|k IH]; intros p s j row H; [discriminate|].
  cbn [schedule_loop] in H. cbv zeta in H. destruct j as [|j].
  - injection H as <-. cbn. split; [lia | reflexivity].
  - destruct (IH _ _ _ _ H) as [H1 H2]. split; [lia | exact H2].
Qed.

(** The amortization table and the mortgage payment agree: the rows are
    numbered 1, 2, ... and every row carries the base installment that
    [calculate_mortgage_payment] reports for the same loan. *)
Theorem schedule_rows_carry_the_installment (self : RealEstateCalculator)
    (P r V : Q) (n : Z) :
  0 <= r -> (1 <= n)%Z ->
  exists schedule mp,
    generate_amortization_schedule self P r n = Ok schedule
    /\ calculate_mortgage_payment self P r n V = Ok mp
    /\ forall (k : nat) (row : ScheduleEntry),
         schedule !! k = Some row ->
         periodo row = (Z.of_nat k + 1)%Z
         /\ cuota_uf row == cuota_base_uf mp.
Proof.
  intros Hr Hn.
  destruct (payments_succ n Hn) as (m & EZ & _ & _).
  destruct (mortgage_payment_annuity self P r V n m Hr EZ)
    as (p & mp & Ep & _ & Emp & Ec).
  unfold generate_amortization_schedule. cbv zeta.
  rewrite Ep. cbn [mbind result_bind mret result_ret].
  eexists. exists mp. split; [reflexivity|]. split; [exact Emp|].
  intros k row Hk. destruct (schedule_loop_rows _ _ _ _ _ _ _ Hk) as [H1 H2].
  split; [lia|]. rewrite H2, Ec.
  apply round_proper; [apply Qred_correct | reflexivity].
Qed.

Lemma schedule_rows_carry_the_installment_witness :
  exists schedule mp,
    generate_amortization_schedule Scenario.calculator 3500 4.5 20
      = Ok schedule
    /\ calculate_mortgage_payment Scenario.calculator 3500 4.5 20 5000
       = Ok mp.
Proof.
  destruct (schedule_rows_carry_the_installment Scenario.calculator
              3500 4.5 5000 20) as (schedule & mp & E1 & E2 & _);
    [discriminate | lia |].
  exists schedule, mp. split; assumption.
Defined.

(** At a rate of zero the base installment is the principal divided by
    the number of payments, rounded to four decimals. *)
Theorem zero_rate_installment (self : RealEstateCalculator) (P V : Q)
    (n : Z) :
  (1 <= n)%Z ->
  exists mp,
    calculate_mortgage_payment self P 0 n V = Ok mp
    /\ cuota_base_uf mp == round (P / inject_Z (n * 12)) 4.
Proof.
  intros Hn.
  destruct (payments_succ n Hn) as (m & EZ & _ & _).
  destruct (mortgage_payment_annuity self P 0 V n m (Qle_refl 0) EZ)
    as (p & mp & _ & Hp & Emp & Ec).
  exists mp. split; [exact Emp|]. rewrite Ec.
  apply round_proper; [|reflexivity]. rewrite Hp, EZ. unfold rho.
  assert (E1 : 1 + 0 / 100 / 12 == 1) by reflexivity.
  rewrite (geom_one _ (S m) E1), E1, Qpower_1.
  assert (0 < inject_Z (Z.of_nat (S m))).
  { change 0 with (inject_Z 0). rewrite <- Zlt_Qlt. lia. }
  field. lra.
Qed.

Lemma zero_rate_installment_witness :
  exists mp,
    calculate_mortgage_payment Scenario.calculator 2000 0 10 4000 = Ok mp
    /\ cuota_base_uf mp == round (2000 / inject_Z (10 * 12)) 4.
Proof.
  apply (zero_rate_installment Scenario.calculator 2000 4000 10). lia.
Defined.

(** For a property value that is not negative and a down-payment
    fraction between 0 and 1, no CAPEX line is negative, the registry
    fee stays within its cap of 50, and the closing costs are at least
    the fifteen units of the four fixed fees. *)
Theorem capex_bounds (self : RealEstateCalculator) (V pie : Q) :
  0 <= V -> 0 <= pie <= 1 ->
  let capex := calculate_initial_investment self V pie in
  0 <= pie_uf capex
  /\ 0 <= impuesto_mutuo_uf capex
  /\ 0 <= cbrs_uf capex <= 50
  /\ 0 <= corretaje_uf capex
  /\ 15 <= gastos_cierre_uf capex
  /\ pie_uf capex <= total_uf capex.
Proof.
  intros HV [Hp0 Hp1]. cbv zeta.
  unfold gastos_cierre_uf, total_uf, calculate_initial_investment.
  cbn [pie_uf impuesto_mutuo_uf cbrs_uf corretaje_uf tasacion_uf
       estudio_titulos_uf borrador_escritura_uf notaria_uf].
  assert (H1 : 0 <= round (V * pie) 2)
    by (apply round_nonneg, Qmult_le_0_compat; assumption).
  assert (H2 : 0 <= round ((V - V * pie) * MARKET_RATES.impuesto_mutuo) 2).
  { apply round_nonneg, Qmult_le_0_compat; [|discriminate].
    assert (0 <= V * (1 - pie)) by (apply Qmult_le_0_compat; lra). lra. }
  assert (H3 : 0 <= round (min2 (V * MARKET_RATES.cbrs_rate)
                              MARKET_RATES.cbrs_tope_uf) 2).
  { apply round_nonneg, min2_glb; [|discriminate].
    apply Qmult_le_0_compat; [assumption | discriminate]. }
  assert (H4 : round (min2 (V * MARKET_RATES.cbrs_rate)
                         MARKET_RATES.cbrs_tope_uf) 2 <= 50).
  { assert (E : round MARKET_RATES.cbrs_tope_uf 2 == 50)
      by (vm_compute; reflexivity).
    rewrite <- E. apply round_mono, min2_le_r. }
  assert (H5 : 0 <= round (V * MARKET_RATES.corretaje_rate
                           * (1 + MARKET_RATES.iva)) 2).
  { apply round_nonneg. repeat apply Qmult_le_0_compat;
      try assumption; discriminate. }
  unfold FIXED_COSTS_UF.tasacion, FIXED_COSTS_UF.estudio_titulos,
    FIXED_COSTS_UF.borrador_escritura, FIXED_COSTS_UF.notaria.
  repeat split; lra.
Qed.

Lemma capex_bounds_witness :
  15 <= gastos_cierre_uf
          (calculate_initial_investment Scenario.calculator 5000 0.30).
Proof.
  apply (capex_bounds Scenario.calculator 5000 0.30);
    [discriminate | split; discriminate].
Defined.

(** Indexed units to euros is the composition of the two conversions
    through local currency, it multiplies by the [uf_eur] rate of the
    snapshot, and converting back returns the amount. *)
Theorem uf_eur_round_trip (self : RealEstateCalculator) (x : Q) :
  ~ uf_clp (rates self) == 0 ->
  ~ eur_clp (rates self) == 0 ->
  exists e u k,
    uf_to_eur self x = Ok e
    /\ clp_to_eur self (uf_to_clp self x) = Ok e
    /\ uf_eur (rates self) = Ok k
    /\ e == x * k
    /\ eur_to_uf self e = Ok u
    /\ u == x.
Proof.
  intros Huf Heur.
  exists (x * uf_clp (rates self) / eur_clp (rates self)),
    (x * uf_clp (rates self) / eur_clp (rates self) * eur_clp (rates self)
     / uf_clp (rates self)),
    (uf_clp (rates self) / eur_clp (rates self)).
  unfold uf_to_eur, clp_to_eur, eur_to_uf, clp_to_uf, uf_eur,
    uf_to_clp, eur_to_clp.
  rewrite !fdiv_ok by assumption.
  repeat split; try reflexivity; field; try assumption.
  split; assumption.
Qed.

Lemma uf_eur_round_trip_witness :
  exists e u,
    uf_to_eur Scenario.calculator 5000 = Ok e
    /\ eur_to_uf Scenario.calculator e = Ok u
    /\ u == 5000.
Proof.
  destruct (uf_eur_round_trip Scenario.calculator 5000)
    as (e & u & k & E1 & _ & _ & _ & E2 & E3);
    [discriminate | discriminate |].
  exists e, u. repeat split; assumption.
Defined.

End PaymentFacts.

Section IrrAnnualisation.
Import Financials.
Local Open Scope Q_scope.
Variable npf_irr : list Q → npf.irr_outcome.






End IrrAnnualisation.

Section OpexFacts.
Import Financials.
Local Open Scope Q_scope.

Lemma round_whole (x : Q) : exists z : Z, round x 0 == inject_Z z.
Proof.
  exists (rint (x * 10 ^ 0)). unfold round.
  change (10 ^ 0) with 1 at 2. field.
Qed.

(** With an exchange rate, a property value, a rent, common expenses
    and operating rates that are not negative, every OPEX line is a whole
    non-negative number of pesos; the net operating income then is at
    most the rent, and for a payment that is not negative the cash flow
    is at most the net operating income, the two differing by the payment
    in local currency. *)
Theorem opex_and_cashflow_bounds (self : RealEstateCalculator)
    (V arriendo gastos : Q) (operating : OperatingInput)
    (mortgage : MortgagePayment) :
  0 <= uf_clp (rates self) -> 0 <= V -> 0 <= arriendo -> 0 <= gastos ->
  0 <= vacancy_rate operating -> 0 <= property_mgmt_rate operating ->
  0 <= maintenance_rate operating ->
  0 <= dividendo_total_uf mortgage ->
  let opex := calculate_monthly_opex self V arriendo gastos operating in
  let (noi, cashflow) := calculate_monthly_cashflow self arriendo opex mortgage in
  Forall (fun line => 0 <= line /\ exists z : Z, line == inject_Z z)
    [contribuciones_clp opex; administracion_clp opex; mantencion_clp opex;
     vacancia_clp opex; opex_gastos_comunes_clp opex]
  /\ 0 <= total_clp opex
  /\ noi == arriendo - total_clp opex
  /\ noi - cashflow == dividendo_total_uf mortgage * uf_clp (rates self)
  /\ cashflow <= noi /\ noi <= arriendo.
Proof.
  intros Huf HV Ha Hg Hv Hp Hm Hd. cbv zeta.
  unfold calculate_monthly_cashflow. cbv zeta.
  assert (Hlines :
    0 <= contribuciones_clp
           (calculate_monthly_opex self V arriendo gastos operating)
    /\ 0 <= administracion_clp
              (calculate_monthly_opex self V arriendo gastos operating)
    /\ 0 <= mantencion_clp
              (calculate_monthly_opex self V arriendo gastos operating)
    /\ 0 <= vacancia_clp
              (calculate_monthly_opex self V arriendo gastos operating)
    /\ 0 <= opex_gastos_comunes_clp
              (calculate_monthly_opex self V arriendo gastos operating)).
  { unfold calculate_monthly_opex. cbv zeta.
    cbn [contribuciones_clp administracion_clp mantencion_clp vacancia_clp
         opex_gastos_comunes_clp].
    assert (0 <= uf_to_clp self V)
      by (unfold uf_to_clp; apply Qmult_le_0_compat; assumption).
    repeat match goal with |- _ /\ _ => split end; apply round_nonneg.
    - unfold MARKET_RATES.contribuciones_annual.
      apply Qle_shift_div_l; [lra|].
      setoid_replace (0 * 12) with 0 using relation Qeq by ring.
      apply Qmult_le_0_compat; lra.
    - unfold MARKET_RATES.iva.
      apply Qmult_le_0_compat; [apply Qmult_le_0_compat; assumption | lra].
    - apply Qmult_le_0_compat; assumption.
    - apply Qmult_le_0_compat; assumption.
    - assumption. }
  destruct Hlines as (H1 & H2 & H3 & H4 & H5).
  assert (Ht : 0 <= total_clp
                      (calculate_monthly_opex self V arriendo gastos operating))
    by (unfold total_clp; lra).
  split.
  { repeat constructor; try assumption;
      unfold calculate_monthly_opex; cbv zeta;
      cbn [contribuciones_clp administracion_clp mantencion_clp vacancia_clp
           opex_gastos_comunes_clp]; apply round_whole. }
  split; [exact Ht|]. split; [reflexivity|].
  assert (Hdiv : 0 <= uf_to_clp self (dividendo_total_uf mortgage))
    by (unfold uf_to_clp; apply Qmult_le_0_compat; assumption).
  split; [unfold uf_to_clp; ring|].
  split; lra.
Qed.

End OpexFacts.

Lemma opex_and_cashflow_bounds_witness :
  (0 <= Financials.total_clp
          (Financials.calculate_monthly_opex Scenario.calculator 5000 800000
             90000 (Financials.mkOperatingInput 0.05 0.10 0.05 0.02)))%Q.
Proof.
  pose proof (opex_and_cashflow_bounds Scenario.calculator 5000 800000 90000
                (Financials.mkOperatingInput 0.05 0.10 0.05 0.02)
                (Financials.mkMortgagePayment 20 1 1)) as H.
  do 8 (specialize (H ltac:(vm_compute; discriminate))).
  cbv zeta in H. unfold Financials.calculate_monthly_cashflow in H.
  cbv beta iota zeta in H. apply H.
Defined.

Section ScheduleRowFacts.
Import Financials Annuity.
Local Open Scope Q_scope.

Lemma round4_error (x : Q) :
  x - (1 # 20000) <= round x 4 /\ round x 4 <= x + (1 # 20000).
Proof.
  pose proof (round_error x 4) as H.
  assert (E : (1 # 2) / 10 ^ 4 == 1 # 20000) by reflexivity.
  rewrite E in H. exact H.
Qed.

Lemma schedule_loop_rows_consistent (i cuota : Q) :
  0 <= i -> 0 <= cuota ->
  forall (m : nat) (p : Z) (s : Q),
    s * (1 + i) ^ Z.of_nat m == cuota * geom (1 + i) m ->
    Forall (fun row =>
            0 <= interes_uf row /\ 0 <= capital_uf row /\ 0 <= saldo_uf row
            /\ Qabs (interes_uf row + capital_uf row - cuota_uf row)
               <= 3 # 20000)
      (schedule_loop i cuota p s m).
Proof.
  intros Hi Hc. assert (Hq : 0 < 1 + i) by lra.
  induction m as [|m IH]; intros p s Hinv; [constructor|].
  cbn [schedule_loop]. cbv zeta.
  set (s' := Qred (s - (cuota - s * i))).
  assert (Es' : s' == s * (1 + i) - cuota).
  { subst s'. rewrite Qred_correct. ring. }
  pose proof (pow_gt0 (1 + i) m Hq) as HT.
  pose proof (pow_gt0 (1 + i) (S m) Hq) as HTS.
  pose proof (geom_nonneg (1 + i) (S m) Hq) as HG.
  assert (Hinv' : s' * (1 + i) ^ Z.of_nat m == cuota * geom (1 + i) m).
  { rewrite Es'. cbn [geom] in Hinv. rewrite pow_S in Hinv.
    setoid_replace ((s * (1 + i) - cuota) * (1 + i) ^ Z.of_nat m)
      with (s * ((1 + i) * (1 + i) ^ Z.of_nat m)
            - cuota * (1 + i) ^ Z.of_nat m)
      using relation Qeq by ring.
    rewrite Hinv. ring. }
  assert (Hs : 0 <= s).
  { destruct (Qlt_le_dec s 0) as [Hneg|]; [|assumption]. exfalso.
    assert (0 <= cuota * geom (1 + i) (S m))
      by (apply Qmult_le_0_compat; assumption).
    assert (s * (1 + i) ^ Z.of_nat (S m) < 0).
    { setoid_replace (s * (1 + i) ^ Z.of_nat (S m))
        with (- ((- s) * (1 + i) ^ Z.of_nat (S m)))
        using relation Qeq by ring.
      assert (0 < (- s) * (1 + i) ^ Z.of_nat (S m))
        by (apply Qmult_lt_0_compat; lra).
      lra. }
    lra. }
  assert (Hint : 0 <= s * i) by (apply Qmult_le_0_compat; assumption).
  assert (Hcap : 0 <= cuota - s * i).
  { pose proof (geom_closed i (S m)) as HC.
    assert (E : (cuota - s * i) * (1 + i) ^ Z.of_nat (S m) == cuota).
    { setoid_replace ((cuota - s * i) * (1 + i) ^ Z.of_nat (S m))
        with (cuota * (1 + i) ^ Z.of_nat (S m)
              - i * (s * (1 + i) ^ Z.of_nat (S m)))
        using relation Qeq by ring.
      rewrite Hinv.
      setoid_replace (i * (cuota * geom (1 + i) (S m)))
        with (cuota * (i * geom (1 + i) (S m)))
        using relation Qeq by ring.
      rewrite HC. ring. }
    destruct (Qlt_le_dec (cuota - s * i) 0) as [Hneg|]; [|assumption].
    exfalso.
    assert (0 < (- (cuota - s * i)) * (1 + i) ^ Z.of_nat (S m))
      by (apply Qmult_lt_0_compat; lra).
    setoid_replace ((- (cuota - s * i)) * (1 + i) ^ Z.of_nat (S m))
      with (- ((cuota - s * i) * (1 + i) ^ Z.of_nat (S m)))
      using relation Qeq in H by ring.
    lra. }
  constructor; [|apply IH; exact Hinv'].
  cbn [interes_uf capital_uf saldo_uf cuota_uf].
  split; [now apply round_nonneg|]. split; [now apply round_nonneg|].
  split; [apply round_nonneg, max2_nonneg|].
  pose proof (round4_error (s * i)) as [A1 A2].
  pose proof (round4_error (cuota - s * i)) as [B1 B2].
  pose proof (round4_error cuota) as [C1 C2].
  apply Qabs_Qle_condition. split; lra.
Qed.

(** In every row of the amortization table interest, repayment and
    balance are not negative, and interest plus repayment differ from the
    installment by the rounding of the three figures only, at most
    0.00015; the interest of the first row is that of the whole
    principal for one month, within half a unit of the fourth decimal. *)
Theorem schedule_row_components (self : RealEstateCalculator)
    (P r : Q) (n : Z) :
  0 <= P -> 0 <= r -> (1 <= n)%Z ->
  exists schedule first,
    generate_amortization_schedule self P r n = Ok schedule
    /\ Forall (fun row =>
            0 <= interes_uf row /\ 0 <= capital_uf row /\ 0 <= saldo_uf row
            /\ Qabs (interes_uf row + capital_uf row - cuota_uf row)
               <= 3 # 20000)
         schedule
    /\ schedule !! 0%nat = Some first
    /\ Qabs (interes_uf first - P * (r / 100 / 12)) <= 1 # 20000.
Proof.
  intros HP Hr Hn.
  destruct (payments_succ n Hn) as (m & EZ & EN & _).
  pose proof (monthly_rate_nonneg r Hr) as Hi.
  unfold generate_amortization_schedule. cbv zeta.
  destruct (pmt_annuity (r / 100 / 12) P m Hi) as (p & Ep & Hp).
  rewrite EZ, Nat2Z.id, Ep. rewrite bind_Ok.
  set (i := r / 100 / 12) in *. set (cuota := Qred (- p)).
  assert (Ec : cuota == P * rho (1 + i) (S m))
    by (subst cuota; rewrite Qred_correct; exact Hp).
  pose proof (rho_pos i m Hi) as Hrho.
  assert (Hc : 0 <= cuota).
  { rewrite Ec. apply Qmult_le_0_compat; lra. }
  assert (Hq : 0 < 1 + i) by lra.
  pose proof (geom_pos (1 + i) m Hq) as HG.
  assert (Hinv : P * (1 + i) ^ Z.of_nat (S m) == cuota * geom (1 + i) (S m)).
  { rewrite Ec. unfold rho. field. lra. }
  eexists. eexists. split; [reflexivity|].
  split; [exact (schedule_loop_rows_consistent i cuota Hi Hc (S m) 1 P Hinv)|].
  cbn [schedule_loop]. cbv zeta. split; [reflexivity|].
  cbn [interes_uf].
  pose proof (round4_error (P * i)) as [A1 A2].
  apply Qabs_Qle_condition. split; lra.
Qed.

End ScheduleRowFacts.

Lemma schedule_row_components_witness :
  exists schedule first,
    Financials.generate_amortization_schedule Scenario.calculator 1001 4.5 20
    = Ok schedule
    /\ Forall (fun row =>
                 0 <= Financials.interes_uf row
                 /\ 0 <= Financials.capital_uf row
                 /\ 0 <= Financials.saldo_uf row
                 /\ Qabs (Financials.interes_uf row
                          + Financials.capital_uf row
                          - Financials.cuota_uf row) <= 3 # 20000)%Q
         schedule
    /\ schedule !! 0%nat = Some first
    /\ (Qabs (Financials.interes_uf first - 1001 * (4.5 / 100 / 12))
        <= 1 # 20000)%Q.
Proof.
  apply (schedule_row_components Scenario.calculator 1001 4.5 20);
    [discriminate | discriminate | lia].
Defined.

(** ** market_intelligence.py: further properties of the comparables *)

Section GeneratorFacts.

Import MarketIntelligence.
Local Open Scope Q_scope.

Variable rng_state : Type.
Variable seed : Z → rng_state.
Variable uniform : Q → Q → rng_state → Q * rng_state.
Variable choice : list Z → rng_state → Z * rng_state.

Lemma round_thousands (x : Q) : exists z : Z, round x (-3) == inject_Z z * 1000.
Proof.
  exists (rint (x * 10 ^ (-3))). unfold round.
  assert (E : 10 ^ (-3) == 1 / 1000) by reflexivity.
  rewrite E at 2. field.
Qed.

Lemma RentComparable_init_well_formed (p s : Q) (commune : string)
    (d b : Z) :
  (1 <= b)%Z -> (exists z : Z, p == inject_Z z * 1000) ->
  well_formed_comparable commune (RentComparable_init p s commune d b None).
Proof.
  intros Hb Hp. unfold well_formed_comparable, RentComparable_init.
  cbn [comuna url banos precio_clp superficie_m2 precio_m2].
  repeat split; try assumption.
  - intros Hs. apply Qlt_bool_iff in Hs as Hs'. rewrite Hs'. field. lra.
  - intros Hs. apply Qlt_bool_false in Hs. rewrite Hs. reflexivity.
Qed.

Lemma generate_loop_well_formed (commune : string) (sup : Q) (dorm : Z)
    (lo hi : Q) (k : nat) (g : rng_state) :
  Forall (well_formed_comparable commune)
    (generate_loop rng_state uniform choice commune sup dorm lo hi k g).1.
Proof.
  revert g. induction k as [|k IH]; intros g; [constructor|].
  cbn [generate_loop].
  destruct (uniform _ _ g) as [f g1].
  destruct (uniform lo hi g1) as [pm g2].
  destruct (choice _ g2) as [d1 g3].
  destruct (choice _ g3) as [d2 g4].
  specialize (IH g4).
  destruct (generate_loop _ _ _ _ _ _ _ _ _ g4) as [rest g5].
  cbn [fst] in *. constructor; [|exact IH].
  apply RentComparable_init_well_formed; [lia | apply round_thousands].
Qed.

Lemma generate_spec (self : MarketCompScraper)
    (commune : string) (sup : Q) (dorm n : Z) (g : rng_state) :
  match rent_data self !! "_default" with
  | None =>
      _generate_synthetic_comparables rng_state seed uniform choice self
        commune sup dorm n g = (Raise KeyError, g)
  | Some _ =>
      exists l g',
        _generate_synthetic_comparables rng_state seed uniform choice self
          commune sup dorm n g = (Ok l, g')
        /\ length l = Z.to_nat n
        /\ Forall (well_formed_comparable commune) l
  end.
Proof.
  unfold _generate_synthetic_comparables.
  destruct (rent_data self !! "_default") as [fallback|]; [|reflexivity].
  destruct (default fallback (rent_data self !! commune)) as [lo hi].
  pose proof (generate_loop_length rng_state uniform choice commune sup dorm
                lo hi (Z.to_nat n) (seed 42)) as Hlen.
  pose proof (generate_loop_well_formed commune sup dorm lo hi (Z.to_nat n)
                (seed 42)) as Hwf.
  destruct (generate_loop _ _ _ _ _ _ _ _ _ _) as [l g'].
  exists l, g'. repeat split; assumption.
Qed.

(** The generator raises [KeyError] exactly when the rent table has no
    ["_default"] entry, even for a commune that the table lists, and then
    leaves the random generator untouched.  Otherwise it returns
    [n_samples] comparables (none when the number is negative), each in
    the commune asked for, without URL, with at least one bathroom, a
    price in whole thousands and a price per square meter that matches
    price and area. *)
Theorem generator_needs_default_key (self : MarketCompScraper)
    (commune : string) (sup : Q) (dorm n : Z) (g : rng_state) :
  match rent_data self !! "_default" with
  | None =>
      _generate_synthetic_comparables rng_state seed uniform choice self
        commune sup dorm n g = (Raise KeyError, g)
  | Some _ =>
      exists l g',
        _generate_synthetic_comparables rng_state seed uniform choice self
          commune sup dorm n g = (Ok l, g')
        /\ length l = Z.to_nat n
        /\ Forall (well_formed_comparable commune) l
  end.
Proof. apply generate_spec. Qed.

Lemma remove_outliers_ok (self : MarketCompScraper)
    (comparables : list RentComparable) (std_factor : Q) :
  exists filtered,
    _remove_outliers self comparables std_factor = Ok filtered
    /\ filtered `sublist_of` comparables
    /\ match comparables with
       | [] | [_] | [_; _] => filtered = comparables
       | _ => True
       end.
Proof.
  unfold _remove_outliers.
  destruct (length comparables <? 3)%nat eqn:E3.
  - exists comparables. split; [reflexivity|]. split; [reflexivity|].
    destruct comparables as [|a [|b [|c l]]]; trivial.
  - apply Nat.ltb_ge in E3.
    assert (Hshape : match comparables with
                     | [] | [_] | [_; _] => False
                     | _ => True
                     end).
    { destruct comparables as [|a [|b [|c l]]]; cbn in E3;
        first [lia | exact I]. }
    set (prices := map precio_clp comparables).
    assert (Hlen : length prices = length comparables)
      by (subst prices; apply length_map).
    assert (Hpne : prices <> []).
    { intros E. rewrite E in Hlen. cbn in Hlen. lia. }
    rewrite (mean_ok prices Hpne). cbn [mbind result_bind].
    assert (E1 : (1 <? length prices)%nat = true) by (apply Nat.ltb_lt; lia).
    rewrite E1. unfold stdev, variance.
    assert (E2 : (length prices <? 2)%nat = false)
      by (apply Nat.ltb_ge; lia).
    rewrite E2, (mean_ok prices Hpne).
    cbn [mbind result_bind mret result_ret].
    destruct (decide (sqrt _ = 0%R)) as [_|_].
    + exists comparables. split; [reflexivity|]. split; [reflexivity|].
      destruct comparables as [|a [|b [|c l]]]; trivial.
    + eexists. split; [reflexivity|]. split; [apply sublist_filter|].
      destruct comparables as [|a [|b [|c l]]];
        first [contradiction | exact I].
Qed.

(** [_remove_outliers] never raises, whatever the factor; it returns
    its input unchanged when there are fewer than three comparables and
    otherwise removes entries without reordering the rest. *)
Theorem remove_outliers_sublist (self : MarketCompScraper)
    (comparables : list RentComparable) (std_factor : Q) :
  exists filtered,
    _remove_outliers self comparables std_factor = Ok filtered
    /\ filtered `sublist_of` comparables
    /\ match comparables with
       | [] | [_] | [_; _] => filtered = comparables
       | _ => True
       end.
Proof. apply remove_outliers_ok. Qed.

Lemma max2_ge_l (a b : Q) : a <= max2 a b.
Proof.
  unfold max2. destruct (Qlt_bool a b) eqn:E;
    rewrite ?Qlt_bool_iff, ?Qlt_bool_false in *; lra.
Qed.

Lemma max2_ge_r (a b : Q) : b <= max2 a b.
Proof.
  unfold max2. destruct (Qlt_bool a b) eqn:E;
    rewrite ?Qlt_bool_iff, ?Qlt_bool_false in *; lra.
Qed.

Lemma fold_min2_le (l : list Q) :
  forall x, fold_left min2 l x <= x
            /\ forall y, y ∈ l -> fold_left min2 l x <= y.
Proof.
  induction l as [|a l IH]; intros x; cbn [fold_left].
  - split; [lra|]. intros y Hy. inversion Hy.
  - destruct (IH (min2 x a)) as [H1 H2].
    pose proof (min2_le_l x a). pose proof (min2_le_r x a).
    split; [lra|]. intros y Hy. apply elem_of_cons in Hy.
    destruct Hy as [->|Hy]; [lra | now apply H2].
Qed.

Lemma fold_max2_ge (l : list Q) :
  forall x, x <= fold_left max2 l x
            /\ forall y, y ∈ l -> y <= fold_left max2 l x.
Proof.
  induction l as [|a l IH]; intros x; cbn [fold_left].
  - split; [lra|]. intros y Hy. inversion Hy.
  - destruct (IH (max2 x a)) as [H1 H2].
    pose proof (max2_ge_l x a). pose proof (max2_ge_r x a).
    split; [lra|]. intros y Hy. apply elem_of_cons in Hy.
    destruct Hy as [->|Hy]; [lra | now apply H2].
Qed.

Lemma list_min_max_bounds (l : list Q) :
  l <> [] ->
  exists mn mx,
    list_min l = Ok mn /\ list_max l = Ok mx
    /\ forall y, y ∈ l -> mn <= y <= mx.
Proof.
  destruct l as [|x l]; [contradiction|]. intros _.
  destruct (fold_min2_le l x) as [H1 H2].
  destruct (fold_max2_ge l x) as [H3 H4].
  eexists _, _. split; [reflexivity|]. split; [reflexivity|].
  intros y Hy. apply elem_of_cons in Hy.
  destruct Hy as [->|Hy]; [split; assumption|].
  split; [now apply H2 | now apply H4].
Qed.

Lemma insert_sorted_elem (x y : Q) (l : list Q) :
  y ∈ insert_sorted x l -> y = x \/ y ∈ l.
Proof.
  induction l as [|h t IH]; cbn [insert_sorted].
  - intros H. apply list_elem_of_singleton in H. now left.
  - destruct (Qlt_bool h x).
    + intros H. apply elem_of_cons in H. destruct H as [->|H].
      * right. constructor.
      * destruct (IH H) as [->|Hin]; [now left|]. right. now constructor.
    + intros H. apply elem_of_cons in H. destruct H as [->|H];
        [now left | now right].
Qed.

Lemma sorted_elem (y : Q) (l : list Q) : y ∈ sorted l -> y ∈ l.
Proof.
  induction l as [|x l IH]; cbn [sorted foldr]; [trivial|].
  intros H. apply insert_sorted_elem in H. destruct H as [->|H].
  - constructor.
  - constructor. now apply IH.
Qed.

Lemma insert_sorted_length (x : Q) (l : list Q) :
  length (insert_sorted x l) = S (length l).
Proof.
  induction l as [|h t IH]; cbn [insert_sorted]; [reflexivity|].
  destruct (Qlt_bool h x); cbn [length]; [now rewrite IH | reflexivity].
Qed.

Lemma sorted_length (l : list Q) : length (sorted l) = length l.
Proof.
  induction l as [|x l IH]; [reflexivity|].
  cbn [sorted foldr]. rewrite insert_sorted_length. cbn [length].
  f_equal. exact IH.
Qed.

Lemma median_between (l : list Q) (mn mx : Q) :
  l <> [] -> (forall y, y ∈ l -> mn <= y <= mx) ->
  exists med, median l = Ok med /\ mn <= med <= mx.
Proof.
  intros Hne Hb. unfold median. cbv zeta.
  assert (Hlen : (0 < length (sorted l))%nat).
  { rewrite sorted_length. destruct l; [contradiction | cbn; lia]. }
  assert (E0 : (Z.of_nat (length (sorted l)) =? 0)%Z = false)
    by (apply Z.eqb_neq; lia).
  rewrite E0.
  assert (Hin : forall i x, sorted l !! i = Some x -> mn <= x <= mx).
  { intros i x Hx. apply Hb, sorted_elem.
    eapply list_elem_of_lookup_2. exact Hx. }
  destruct (Z.odd (Z.of_nat (length (sorted l)))) eqn:Eo.
  - destruct (getitem_in_range (sorted l)
                (Z.of_nat (length (sorted l)) / 2)) as (x & Ex & Hx).
    { split; [apply Z.div_pos; lia|]. apply Z.div_lt_upper_bound; lia. }
    exists x. split; [exact Ex | eapply Hin; exact Hx].
  - assert (Heven : (2 <= Z.of_nat (length (sorted l)))%Z).
    { destruct (length (sorted l)) as [|[|k]]; [lia | discriminate Eo | lia]. }
    destruct (getitem_in_range (sorted l)
                (Z.of_nat (length (sorted l)) / 2 - 1)) as (a & Ea & Ha).
    { split.
      - assert (1 <= Z.of_nat (length (sorted l)) / 2)%Z
          by (apply Z.div_le_lower_bound; lia). lia.
      - assert (Z.of_nat (length (sorted l)) / 2
                < Z.of_nat (length (sorted l)))%Z
          by (apply Z.div_lt_upper_bound; lia). lia. }
    destruct (getitem_in_range (sorted l)
                (Z.of_nat (length (sorted l)) / 2)) as (b & Eb & Hb').
    { split; [apply Z.div_pos; lia|]. apply Z.div_lt_upper_bound; lia. }
    rewrite Ea, Eb. cbn [mbind result_bind mret result_ret].
    eexists. split; [reflexivity|].
    pose proof (Hin _ _ Ha). pose proof (Hin _ _ Hb').
    split.
    + apply Qle_shift_div_l; lra.
    + apply Qle_shift_div_r; lra.
Qed.

Lemma fsum_between (l : list Q) (mn mx : Q) :
  (forall y, y ∈ l -> mn <= y <= mx) ->
  mn * inject_Z (Z.of_nat (length l)) <= fsum l
  /\ fsum l <= mx * inject_Z (Z.of_nat (length l)).
Proof.
  induction l as [|x l IH]; intros Hb.
  - change (fsum []) with 0. change (inject_Z (Z.of_nat (length []))) with 0.
    lra.
  - cbn [length]. rewrite fsum_cons, inject_nat_S.
    destruct IH as [H1 H2]; [intros y Hy; apply Hb; now constructor|].
    destruct (Hb x) as [H3 H4]; [constructor|].
    setoid_replace (mn * (inject_Z (Z.of_nat (length l)) + 1))
      with (mn * inject_Z (Z.of_nat (length l)) + mn)
      using relation Qeq by ring.
    setoid_replace (mx * (inject_Z (Z.of_nat (length l)) + 1))
      with (mx * inject_Z (Z.of_nat (length l)) + mx)
      using relation Qeq by ring.
    lra.
Qed.

Lemma mean_between (l : list Q) (mn mx : Q) :
  l <> [] -> (forall y, y ∈ l -> mn <= y <= mx) ->
  exists avg, mean l = Ok avg /\ mn <= avg <= mx.
Proof.
  intros Hne Hb. rewrite (mean_ok l Hne). eexists. split; [reflexivity|].
  rewrite Qred_correct. destruct (fsum_between l mn mx Hb) as [H1 H2].
  assert (Hn : 0 < inject_Z (Z.of_nat (length l))).
  { change 0 with (inject_Z 0). rewrite <- Zlt_Qlt.
    destruct l; [contradiction | cbn [length]; lia]. }
  split; [apply Qle_shift_div_l | apply Qle_shift_div_r]; assumption.
Qed.

Lemma stdev_or_zero_ok (l : list Q) :
  l <> [] ->
  exists s, (if (1 <? length l)%nat then stdev l else mret 0%R) = Ok s.
Proof.
  intros Hne. destruct (1 <? length l)%nat eqn:E; [|eauto].
  apply Nat.ltb_lt in E. unfold stdev, variance.
  assert (E2 : (length l <? 2)%nat = false) by (apply Nat.ltb_ge; lia).
  rewrite E2, (mean_ok l Hne). cbn [mbind result_bind mret result_ret].
  eauto.
Qed.

Lemma sublist_length_le {A} (l k : list A) :
  l `sublist_of` k -> (length l <= length k)%nat.
Proof. apply sublist_length. Qed.

Lemma analyze_market_rent_spec (self : MarketCompScraper)
    (commune : string) (sup : Q) (dorm baths : Z) (use_scraping : bool)
    (g : rng_state) :
  match rent_data self !! "_default" with
  | None =>
      (analyze_market_rent rng_state seed uniform choice self commune sup
         dorm baths use_scraping g).1 = Raise KeyError
  | Some _ =>
      exists a,
        (analyze_market_rent rng_state seed uniform choice self commune sup
           dorm baths use_scraping g).1 = Ok a
        /\ (1 <= comparables_count a <= 15)%Z
        /\ comparables_count a = Z.of_nat (length (comparables a))
        /\ min_rent_clp a <= average_rent_clp a <= max_rent_clp a
        /\ min_rent_clp a <= median_rent_clp a <= max_rent_clp a
        /\ (0 < median_rent_clp a ->
            (suggested_rent_range a).1 <= suggested_rent_clp a
            /\ suggested_rent_clp a <= (suggested_rent_range a).2)
  end.
Proof.
  unfold analyze_market_rent.
  pose proof (generate_spec self commune sup dorm 15 g) as Hg.
  destruct (rent_data self !! "_default") as [fallback|].
  - destruct Hg as (l & g' & Eg & Hlen & _). rewrite Eg.
    cbn [fst mbind result_bind].
    destruct (remove_outliers_ok self l 2.0) as (f & Ef & Hsub & _).
    rewrite Ef. cbn [mbind result_bind].
    assert (Hl : l <> []) by (destruct l; [discriminate Hlen | discriminate]).
    destruct (remove_outliers_nonempty self l Hl) as (f' & Ef' & Hf').
    rewrite Ef in Ef'. injection Ef' as <-.
    set (filtered := match f with [] => l | _ :: _ => f end).
    assert (Efil : filtered = f) by (subst filtered; destruct f; congruence).
    rewrite Efil. clear filtered Efil.
    set (prices := map precio_clp f).
    assert (Hpne : prices <> []).
    { subst prices. destruct f; [contradiction | discriminate]. }
    destruct (list_min_max_bounds prices Hpne) as (mn & mx & Emn & Emx & Hb).
    destruct (mean_between prices mn mx Hpne Hb) as (avg & Eavg & Havg).
    destruct (median_between prices mn mx Hpne Hb) as (med & Emed & Hmed).
    destruct (stdev_or_zero_ok prices Hpne) as (sd & Esd).
    rewrite Eavg, Emed, Emn, Emx. cbn [mbind result_bind].
    rewrite Esd. cbn [mbind result_bind].
    assert (Em2 : exists a2, match map precio_m2 f with
                             | [] => mret 0
                             | _ :: _ => mean (map precio_m2 f)
                             end = Ok a2).
    { destruct (map precio_m2 f) eqn:E; [eauto|].
      rewrite mean_ok by discriminate. eauto. }
    destruct Em2 as (a2 & Ea2). rewrite Ea2.
    cbn [mbind result_bind mret result_ret].
    eexists. split; [reflexivity|].
    cbn [comparables_count comparables min_rent_clp max_rent_clp
         average_rent_clp median_rent_clp suggested_rent_range
         suggested_rent_clp fst snd].
    apply sublist_length_le in Hsub.
    assert (0 < length f)%nat by (destruct f; [contradiction | cbn; lia]).
    split; [lia|]. split; [reflexivity|].
    split; [split; apply round_mono; apply Havg|].
    split; [split; apply round_mono; apply Hmed|].
    intros Hpos.
    assert (Hm : 0 < med).
    { destruct (Qlt_le_dec 0 med) as [|Hle]; [assumption|].
      pose proof (round_mono med 0 0 Hle) as Hr.
      rewrite round_0 in Hr. lra. }
    split; apply round_mono; lra.
  - rewrite Hg. reflexivity.
Qed.

(** [analyze_market_rent] fails only with the [KeyError] of the
    generator.  Otherwise it reports between 1 and 15 comparables, their
    number is the length of the list it returns, the reported average and
    median lie between the reported minimum and maximum, and for a
    positive median the suggested rent lies within the suggested range. *)
Theorem analyze_market_rent_statistics (self : MarketCompScraper)
    (commune : string) (sup : Q) (dorm baths : Z) (use_scraping : bool)
    (g : rng_state) :
  match rent_data self !! "_default" with
  | None =>
      (analyze_market_rent rng_state seed uniform choice self commune sup
         dorm baths use_scraping g).1 = Raise KeyError
  | Some _ =>
      exists a,
        (analyze_market_rent rng_state seed uniform choice self commune sup
           dorm baths use_scraping g).1 = Ok a
        /\ (1 <= comparables_count a <= 15)%Z
        /\ comparables_count a = Z.of_nat (length (comparables a))
        /\ min_rent_clp a <= average_rent_clp a <= max_rent_clp a
        /\ min_rent_clp a <= median_rent_clp a <= max_rent_clp a
        /\ (0 < median_rent_clp a ->
            (suggested_rent_range a).1 <= suggested_rent_clp a
            /\ suggested_rent_clp a <= (suggested_rent_range a).2)
  end.
Proof. apply analyze_market_rent_spec. Qed.

End GeneratorFacts.

(** ** market_intelligence.py: distances and the location analysis *)

Section GeographyFacts.

Import MarketIntelligence.
Local Open Scope R_scope.

Lemma atan2_quadrant (y x : R) :
  0 <= y -> 0 <= x -> 0 <= atan2 y x <= PI / 2.
Proof.
  intros Hy Hx. unfold atan2. pose proof PI_RGT_0 as Hpi.
  destruct (decide (0 < x)) as [Hpos|Hnpos].
  - pose proof (atan_bound (y / x)) as [_ Hub].
    split; [|lra].
    destruct (Rle_lt_or_eq_dec 0 y Hy) as [Hlt|<-].
    + assert (0 < y / x) by (apply Rdiv_lt_0_compat; assumption).
      pose proof (atan_increasing 0 (y / x) H) as Hinc.
      rewrite atan_0 in Hinc. lra.
    + unfold Rdiv. rewrite Rmult_0_l, atan_0. lra.
  - destruct (decide (x < 0)) as [Hneg|_]; [lra|].
    destruct (decide (0 < y)) as [_|_]; [lra|].
    destruct (decide (y < 0)) as [Hneg|_]; lra.
Qed.

Lemma haversine_a_sym (lat1 lon1 lat2 lon2 : R) :
  sin (radians (lat2 - lat1) / 2) ^ 2
  + cos (radians lat1) * cos (radians lat2)
    * sin (radians (lon2 - lon1) / 2) ^ 2
  = sin (radians (lat1 - lat2) / 2) ^ 2
    + cos (radians lat2) * cos (radians lat1)
      * sin (radians (lon1 - lon2) / 2) ^ 2.
Proof.
  replace (radians (lat1 - lat2) / 2) with (- (radians (lat2 - lat1) / 2))
    by (unfold radians; lra).
  replace (radians (lon1 - lon2) / 2) with (- (radians (lon2 - lon1) / 2))
    by (unfold radians; lra).
  rewrite !sin_neg. ring.
Qed.

Lemma haversine_facts (lat1 lon1 lat2 lon2 : R) :
  0 <= haversine_distance lat1 lon1 lat2 lon2 <= 6371000 * PI
  /\ haversine_distance lat1 lon1 lat1 lon1 = 0
  /\ haversine_distance lat1 lon1 lat2 lon2
     = haversine_distance lat2 lon2 lat1 lon1.
Proof.
  split; [|split].
  - unfold haversine_distance. cbv zeta.
    match goal with
    | |- context [atan2 (sqrt ?a) (sqrt ?b)] =>
        pose proof (atan2_quadrant (sqrt a) (sqrt b) (sqrt_pos a) (sqrt_pos b))
          as [H0 H1]
    end.
    split; nra.
  - unfold haversine_distance, radians. cbv zeta.
    replace ((lat1 - lat1) * (PI / 180) / 2) with 0 by lra.
    replace ((lon1 - lon1) * (PI / 180) / 2) with 0 by lra.
    rewrite sin_0.
    replace (0 ^ 2 + cos (lat1 * (PI / 180)) * cos (lat1 * (PI / 180)) * 0 ^ 2)
      with 0 by ring.
    rewrite Rminus_0_r, sqrt_0, sqrt_1. unfold atan2.
    destruct (decide (0 < 1)) as [_|H]; [|lra].
    unfold Rdiv. rewrite Rmult_0_l, atan_0. ring.
  - unfold haversine_distance. cbv zeta.
    now rewrite (haversine_a_sym lat1 lon1 lat2 lon2).
Qed.

(** The great-circle distance is never negative and never more than
    half the circumference of the sphere; it is zero from a point to
    itself and the same in both directions. *)
Theorem haversine_distance_properties (lat1 lon1 lat2 lon2 : R) :
  0 <= haversine_distance lat1 lon1 lat2 lon2 <= 6371000 * PI
  /\ haversine_distance lat1 lon1 lat1 lon1 = 0
  /\ haversine_distance lat1 lon1 lat2 lon2
     = haversine_distance lat2 lon2 lat1 lon1.
Proof. apply haversine_facts. Qed.

Lemma insert_by_distance_elem (x s : MetroStation) (l : list MetroStation) :
  x ∈ insert_by_distance s l <-> x = s \/ x ∈ l.
Proof.
  induction l as [|h t IH]; cbn [insert_by_distance].
  - rewrite list_elem_of_singleton. split; [now left|].
    intros [H|H]; [exact H | inversion H].
  - destruct (decide (distance_m h < distance_m s)).
    + rewrite !elem_of_cons, IH. tauto.
    + rewrite !elem_of_cons. tauto.
Qed.

Lemma sort_by_distance_elem (x : MetroStation) (l : list MetroStation) :
  x ∈ sort_by_distance l <-> x ∈ l.
Proof.
  induction l as [|h t IH]; [reflexivity|].
  cbn [sort_by_distance foldr]. fold (sort_by_distance t).
  rewrite insert_by_distance_elem, IH, elem_of_cons. tauto.
Qed.

Lemma insert_by_distance_sorted (s : MetroStation) (l : list MetroStation) :
  StronglySorted by_distance l ->
  StronglySorted by_distance (insert_by_distance s l).
Proof.
  induction 1 as [|h t Hs IH Hall]; cbn [insert_by_distance].
  - repeat constructor.
  - destruct (decide (distance_m h < distance_m s)) as [Hlt|Hge].
    + constructor; [exact IH|].
      apply Forall_forall. intros x Hx.
      apply insert_by_distance_elem in Hx. destruct Hx as [->|Hx].
      * unfold by_distance. lra.
      * rewrite Forall_forall in Hall. now apply Hall.
    + constructor; [constructor; assumption|].
      constructor; [unfold by_distance; lra|].
      eapply Forall_impl; [exact Hall|].
      intros x Hx. unfold by_distance in *. lra.
Qed.

Lemma sort_by_distance_sorted (l : list MetroStation) :
  StronglySorted by_distance (sort_by_distance l).
Proof.
  induction l as [|h t IH]; [constructor|].
  cbn [sort_by_distance foldr]. now apply insert_by_distance_sorted.
Qed.

Lemma strongly_sorted_filter {A} (R : A -> A -> Prop) (P : A -> Prop)
    `{forall x, Decision (P x)} (l : list A) :
  StronglySorted R l -> StronglySorted R (filter P l).
Proof.
  induction 1 as [|h t Hs IH Hall]; [constructor|].
  rewrite filter_cons. destruct (decide (P h)); [|exact IH].
  constructor; [exact IH|].
  apply Forall_forall. intros x Hx. apply list_elem_of_filter in Hx.
  rewrite Forall_forall in Hall. apply Hall, Hx.
Qed.

Lemma elem_of_take_elem {A} (x : A) (n : nat) (l : list A) :
  x ∈ take n l -> x ∈ l.
Proof.
  revert n. induction l as [|h t IH]; intros [|n] H; cbn [take] in H;
    try (inversion H; fail).
  apply elem_of_cons in H. destruct H as [->|H];
    [constructor | constructor; eapply IH; exact H].
Qed.

Lemma strongly_sorted_take {A} (R : A -> A -> Prop) (n : nat) (l : list A) :
  StronglySorted R l -> StronglySorted R (take n l).
Proof.
  intros Hs. revert n. induction Hs as [|h t Hs IH Hall]; intros [|n];
    cbn [take]; try constructor.
  - apply IH.
  - apply Forall_forall. intros x Hx.
    rewrite Forall_forall in Hall. apply Hall.
    eapply elem_of_take_elem. exact Hx.
Qed.

Lemma strongly_sorted_head {A} (R : A -> A -> Prop) (l : list A) (x y : A) :
  (forall a, R a a) ->
  StronglySorted R l -> head l = Some x -> y ∈ l -> R x y.
Proof.
  intros Hrefl Hs Hh Hy. destruct Hs as [|h t Hs Hall]; [discriminate|].
  injection Hh as <-. apply elem_of_cons in Hy. destruct Hy as [->|Hy].
  - apply Hrefl.
  - rewrite Forall_forall in Hall. now apply Hall.
Qed.

Lemma insert_line_elem (x s : string) (l : list string) :
  x ∈ insert_line s l <-> x = s \/ x ∈ l.
Proof.
  induction l as [|h t IH]; cbn [insert_line].
  - rewrite list_elem_of_singleton. split; [now left|].
    intros [H|H]; [exact H | inversion H].
  - destruct (String.eqb s h) eqn:E.
    + apply String.eqb_eq in E. subst h. rewrite elem_of_cons. tauto.
    + destruct (String.ltb s h).
      * rewrite !elem_of_cons. tauto.
      * rewrite !elem_of_cons, IH. tauto.
Qed.

Lemma sorted_set_elem (x : string) (l : list string) :
  x ∈ sorted_set l <-> x ∈ l.
Proof.
  induction l as [|h t IH]; [reflexivity|].
  cbn [sorted_set foldr]. fold (sorted_set t).
  rewrite insert_line_elem, IH, elem_of_cons. tauto.
Qed.

Variable lower : string → string.

Lemma with_distance_nonneg (la lo : R) (sd : StationData) :
  0 <= distance_m (with_distance la lo sd).
Proof.
  cbn. apply (haversine_facts la lo (sd_lat sd) (sd_lon sd)).
Qed.

Lemma sorted_station_origin (self : LocationAnalyzer) (la lo : R)
    (s : MetroStation) :
  s ∈ sort_by_distance (map (with_distance la lo) (stations self)) ->
  exists sd, sd ∈ stations self /\ s = with_distance la lo sd.
Proof.
  intros H. apply sort_by_distance_elem, list_elem_of_fmap in H.
  destruct H as (sd & -> & Hsd). eauto.
Qed.

(** With coordinates given and at least one station, the station
    reported as nearest is a station of the analyzer, no station is
    nearer, the reported distance is the distance to it, and the level is
    HIGH below 500 m, MEDIUM from 500 m, LOW from 800 m and NONE from
    1500 m on. *)
Theorem nearest_station_is_closest (self : LocationAnalyzer) (la lo : R)
    (comuna : option string) :
  stations self <> [] ->
  let r := LocationAnalyzer_analyze lower self (Some la) (Some lo) comuna in
  exists s sd,
    nearest_station r = Some s
    /\ sd ∈ stations self /\ s = with_distance la lo sd
    /\ distance_meters r = Meters (distance_m s)
    /\ distance_m s = haversine_distance la lo (sd_lat sd) (sd_lon sd)
    /\ (forall sd', sd' ∈ stations self ->
          distance_m s <= haversine_distance la lo (sd_lat sd') (sd_lon sd'))
    /\ (connectivity_level r = HIGH <-> distance_m s < 500)
    /\ (connectivity_level r = MEDIUM <-> 500 <= distance_m s < 800)
    /\ (connectivity_level r = LOW <-> 800 <= distance_m s < 1500)
    /\ (connectivity_level r = NONE <-> 1500 <= distance_m s).
Proof.
  intros Hne. cbv zeta. cbn [LocationAnalyzer_analyze]. unfold analyze_at.
  cbv zeta.
  cbn [nearest_station distance_meters connectivity_level].
  set (sorted_stations :=
         sort_by_distance (map (with_distance la lo) (stations self))).
  destruct (head sorted_stations) as [s|] eqn:Eh.
  - assert (Hin : s ∈ sorted_stations).
    { destruct sorted_stations; [discriminate|]. injection Eh as <-.
      constructor. }
    destruct (sorted_station_origin self la lo s Hin) as (sd & Hsd & Es).
    exists s, sd. split; [reflexivity|]. split; [exact Hsd|].
    split; [exact Es|]. split; [reflexivity|].
    split; [rewrite Es; reflexivity|]. split.
    + intros sd' Hsd'.
      change (haversine_distance la lo (sd_lat sd') (sd_lon sd'))
        with (distance_m (with_distance la lo sd')).
      apply (strongly_sorted_head by_distance sorted_stations).
      * intros a. unfold by_distance. lra.
      * apply sort_by_distance_sorted.
      * exact Eh.
      * apply sort_by_distance_elem, list_elem_of_fmap. eauto.
    + cbn [dist_lt]. repeat case_bool_decide;
        repeat match goal with |- _ /\ _ => split end;
        split; intros Hx; try discriminate; try reflexivity; lra.
  - exfalso. destruct sorted_stations as [|x l] eqn:Es; [|discriminate].
    destruct (stations self) as [|sd l]; [contradiction|].
    assert (Hx : with_distance la lo sd
                 ∈ sort_by_distance (map (with_distance la lo) (sd :: l))).
    { apply sort_by_distance_elem. constructor. }
    subst sorted_stations. rewrite Es in Hx. inversion Hx.
Qed.

(** At most five nearby stations are listed, nearest first, each a
    station of the analyzer within 1500 m; the lines are those of every
    station within 1500 m, also of stations beyond the fifth. *)
Theorem nearby_stations_listing (self : LocationAnalyzer) (la lo : R)
    (comuna : option string) :
  let r := LocationAnalyzer_analyze lower self (Some la) (Some lo) comuna in
  (length (nearby_stations r) <= 5)%nat
  /\ StronglySorted by_distance (nearby_stations r)
  /\ Forall (fun s => distance_m s <= 1500
                      /\ exists sd, sd ∈ stations self
                                    /\ s = with_distance la lo sd)
            (nearby_stations r)
  /\ (forall x : string,
        x ∈ metro_lines_nearby r
        <-> exists sd, sd ∈ stations self /\ sd_line sd = x
                       /\ haversine_distance la lo (sd_lat sd) (sd_lon sd)
                          <= 1500)
  /\ (forall s, s ∈ nearby_stations r -> line s ∈ metro_lines_nearby r).
Proof.
  cbv zeta. cbn [LocationAnalyzer_analyze]. unfold analyze_at. cbv zeta.
  cbn [nearby_stations metro_lines_nearby].
  set (sorted_stations :=
         sort_by_distance (map (with_distance la lo) (stations self))).
  assert (Hlines : forall x : string,
             x ∈ sorted_set
                   (map line (filter (fun s => distance_m s <= 1500)
                                sorted_stations))
             <-> exists sd, sd ∈ stations self /\ sd_line sd = x
                            /\ haversine_distance la lo (sd_lat sd)
                                 (sd_lon sd) <= 1500).
  { intros x. rewrite sorted_set_elem, list_elem_of_fmap. split.
    - intros (s & -> & Hs). apply list_elem_of_filter in Hs.
      destruct Hs as [Hd Hs].
      destruct (sorted_station_origin self la lo s Hs) as (sd & Hsd & ->).
      exists sd. repeat split; assumption.
    - intros (sd & Hsd & <- & Hd). exists (with_distance la lo sd).
      split; [reflexivity|]. apply list_elem_of_filter. split; [exact Hd|].
      apply sort_by_distance_elem, list_elem_of_fmap. eauto. }
  split; [rewrite length_take; lia|].
  split; [apply strongly_sorted_take, strongly_sorted_filter,
            sort_by_distance_sorted|].
  split; [|split; [exact Hlines|]].
  - apply Forall_forall. intros s Hs. apply elem_of_take_elem in Hs.
    apply list_elem_of_filter in Hs. destruct Hs as [Hd Hs].
    split; [exact Hd|]. apply (sorted_station_origin self la lo s Hs).
  - intros s Hs. apply elem_of_take_elem in Hs.
    rewrite sorted_set_elem, list_elem_of_fmap. eauto.
Qed.

Lemma trunc_walk (d : R) : 0 <= d -> d < 3000 -> (0 <= trunc (d / 80) <= 37)%Z.
Proof.
  intros H0 H1. unfold trunc.
  destruct (decide (0 <= d / 80)) as [_|Hn]; [|exfalso; apply Hn; lra].
  destruct (base_Int_part (d / 80)) as [Hle Hgt].
  split.
  - apply le_IZR. 
    assert (-1 < IZR (Int_part (d / 80))) by lra.
    assert (Hz : (-1 < Int_part (d / 80))%Z) by (apply lt_IZR; exact H).
    apply IZR_le. lia.
  - assert (IZR (Int_part (d / 80)) < 38) by lra.
    assert (Hz : (Int_part (d / 80) < 38)%Z) by (apply lt_IZR; exact H).
    lia.
Qed.

(** The walking time is between 0 and 37 minutes in every result; it is
    the whole number of 80-meter minutes for a distance below 3000 m and 0
    from there on. *)
Theorem walking_time_bounds (self : LocationAnalyzer) (lat lon : option R)
    (comuna : option string) :
  let r := LocationAnalyzer_analyze lower self lat lon comuna in
  (0 <= walking_time_minutes r <= 37)%Z
  /\ match distance_meters r with
     | Meters d =>
         0 <= d
         /\ (d < 3000 ->
             IZR (walking_time_minutes r) <= d / 80
             /\ d / 80 < IZR (walking_time_minutes r) + 1)
         /\ (3000 <= d -> walking_time_minutes r = 0%Z)
     | Infinite => walking_time_minutes r = 0%Z
     end.
Proof.
  assert (Hat : forall la lo,
             let r := analyze_at self la lo in
             (0 <= walking_time_minutes r <= 37)%Z
             /\ match distance_meters r with
                | Meters d =>
                    0 <= d
                    /\ (d < 3000 ->
                        IZR (walking_time_minutes r) <= d / 80
                        /\ d / 80 < IZR (walking_time_minutes r) + 1)
                    /\ (3000 <= d -> walking_time_minutes r = 0%Z)
                | Infinite => walking_time_minutes r = 0%Z
                end).
  { intros la lo. unfold analyze_at. cbv zeta.
    cbn [walking_time_minutes distance_meters].
    set (sorted_stations :=
           sort_by_distance (map (with_distance la lo) (stations self))).
    destruct (head sorted_stations) as [s|] eqn:Eh; [|split; [lia|reflexivity]].
    assert (Hin : s ∈ sorted_stations).
    { destruct sorted_stations; [discriminate|]. injection Eh as <-.
      constructor. }
    destruct (sorted_station_origin self la lo s Hin) as (sd & _ & ->).
    pose proof (with_distance_nonneg la lo sd) as H0.
    set (d := distance_m (with_distance la lo sd)) in *.
    destruct (decide (d < 3000)) as [Hlt|Hge].
    - pose proof (trunc_walk d H0 Hlt) as Hw. split; [exact Hw|].
      split; [exact H0|]. split; [|lra]. intros _.
      unfold trunc.
      destruct (decide (0 <= d / 80)) as [_|Hn]; [|exfalso; apply Hn; lra].
      destruct (base_Int_part (d / 80)) as [Hle Hgt]. lra.
    - split; [lia|]. split; [exact H0|]. split; [lra | reflexivity]. }
  assert (Hno : let r := no_coordinates in
                (0 <= walking_time_minutes r <= 37)%Z
                /\ walking_time_minutes r = 0%Z).
  { cbn. split; [lia | reflexivity]. }
  cbv zeta in *. unfold LocationAnalyzer_analyze.
  destruct lat as [la|], lon as [lo|]; try apply Hat;
    (destruct comuna as [[|c s]|]; try exact Hno;
     destruct (get_coordinates_for_comuna _ _ _) as [[la' lo']|];
     [apply Hat | exact Hno]).
Qed.

End GeographyFacts.

Lemma nearest_station_is_closest_witness :
  exists s,
    MarketIntelligence.nearest_station
      (MarketIntelligence.LocationAnalyzer_analyze (fun s => s)
         (MarketIntelligence.LocationAnalyzer_init None)
         (Some (-33.4170)%R) (Some (-70.5875)%R) None) = Some s.
Proof.
  destruct (nearest_station_is_closest (fun s => s)
              (MarketIntelligence.LocationAnalyzer_init None)
              (-33.4170)%R (-70.5875)%R None) as (s & sd & E & _).
  - discriminate.
  - exists s. exact E.
Defined.

Section CommuneFacts.

Import MarketIntelligence.
Local Open Scope R_scope.

Variable lower : string → string.

Lemma dict_lookup_some {V} (d : list (string * V)) (key : string) (v : V) :
  dict_lookup d key = Some v -> (key, v) ∈ d.
Proof.
  induction d as [|[k w] d IH]; [discriminate|].
  cbn [dict_lookup]. destruct (String.eqb k key) eqn:E.
  - apply String.eqb_eq in E. intros [= <-]. subst k. constructor.
  - intros H. right. now apply IH.
Qed.

Lemma dict_lookup_none {V} (d : list (string * V)) (key : string) :
  dict_lookup d key = None -> forall k v, (k, v) ∈ d -> k <> key.
Proof.
  induction d as [|[k w] d IH]; intros H k' v' Hin.
  - inversion Hin.
  - cbn [dict_lookup] in H. destruct (String.eqb k key) eqn:E; [discriminate|].
    apply String.eqb_neq in E.
    apply elem_of_cons in Hin as [[= -> ->]|Hin]; [exact E|].
    exact (IH H k' v' Hin).
Qed.

Lemma partial_match_some {V} (d : list (string * V)) (q : string) (v : V) :
  partial_match lower d q = Some v ->
  exists k, (k, v) ∈ d
            /\ (is_substring (lower k) q = true
                \/ is_substring q (lower k) = true).
Proof.
  induction d as [|[k w] d IH]; [discriminate|].
  cbn [partial_match].
  destruct (is_substring (lower k) q || is_substring q (lower k)) eqn:E.
  - intros [= <-]. exists k. split; [constructor|].
    now apply orb_true_iff in E.
  - intros H. destruct (IH H) as (k' & Hin & Hk'). exists k'.
    split; [now right | exact Hk'].
Qed.

Lemma partial_match_none {V} (d : list (string * V)) (q : string) :
  partial_match lower d q = None ->
  forall k v, (k, v) ∈ d ->
    is_substring (lower k) q = false /\ is_substring q (lower k) = false.
Proof.
  induction d as [|[k w] d IH]; intros H k' v' Hin.
  - inversion Hin.
  - cbn [partial_match] in H.
    destruct (is_substring (lower k) q || is_substring q (lower k)) eqn:E;
      [discriminate|].
    apply orb_false_iff in E.
    apply elem_of_cons in Hin as [[= -> ->]|Hin]; [exact E|].
    exact (IH H k' v' Hin).
Qed.

(** The coordinates found for a commune are those of an entry of the
    table whose name is the commune or, compared in lower case, contains
    it or is contained in it; nothing is found only when no entry is such.
    [analyze] uses them whenever a coordinate is missing, also when the
    other one was given, and reports no access when the commune is
    missing, empty or not found. *)
Theorem commune_fallback (self : LocationAnalyzer) (comuna : string)
    (la lo : R) :
  match get_coordinates_for_comuna lower self comuna with
  | Some xy =>
      (exists k, (k, xy) ∈ COMMUNE_COORDINATES
                 /\ (k = comuna
                     \/ is_substring (lower k) (lower comuna) = true
                     \/ is_substring (lower comuna) (lower k) = true))
      /\ (comuna <> EmptyString ->
          LocationAnalyzer_analyze lower self None None (Some comuna)
          = LocationAnalyzer_analyze lower self (Some xy.1) (Some xy.2) None)
  | None =>
      (forall k xy, (k, xy) ∈ COMMUNE_COORDINATES ->
         k <> comuna
         /\ is_substring (lower k) (lower comuna) = false
         /\ is_substring (lower comuna) (lower k) = false)
      /\ LocationAnalyzer_analyze lower self None None (Some comuna)
         = no_coordinates
  end
  /\ LocationAnalyzer_analyze lower self (Some la) None (Some comuna)
     = LocationAnalyzer_analyze lower self None None (Some comuna)
  /\ LocationAnalyzer_analyze lower self None (Some lo) (Some comuna)
     = LocationAnalyzer_analyze lower self None None (Some comuna)
  /\ LocationAnalyzer_analyze lower self (Some la) None None = no_coordinates
  /\ LocationAnalyzer_analyze lower self None (Some lo) (Some EmptyString)
     = no_coordinates.
Proof.
  split; [|repeat split].
  unfold LocationAnalyzer_analyze.
  destruct (get_coordinates_for_comuna lower self comuna) as [xy|] eqn:E;
    unfold get_coordinates_for_comuna in E;
    destruct (dict_lookup COMMUNE_COORDINATES comuna) as [c|] eqn:Ed.
  - injection E as <-. split.
    + exists comuna. split; [now apply dict_lookup_some | now left].
    + intros Hne. destruct comuna; [contradiction|].
      unfold get_coordinates_for_comuna. rewrite Ed. now destruct c.
  - split.
    + destruct (partial_match_some _ _ _ E) as (k & Hin & Hk).
      exists k. split; [exact Hin | right; exact Hk].
    + intros Hne. destruct comuna; [contradiction|].
      unfold get_coordinates_for_comuna. rewrite Ed, E. now destruct xy.
  - discriminate.
  - split.
    + intros k xy Hin. split; [exact (dict_lookup_none _ _ Ed k xy Hin)|].
      exact (partial_match_none _ _ E k xy Hin).
    + destruct comuna; [reflexivity|].
      unfold get_coordinates_for_comuna. now rewrite Ed, E.
Qed.

(** An analyzer built by the constructor always has stations: [None]
    and the empty list both select the built-in table, any other list is
    kept.  With coordinates given it therefore always reports a nearest
    station, at a finite distance that is not negative. *)
Theorem constructed_analyzer_finds_a_station
    (metro_stations : option (list StationData)) (la lo : R)
    (comuna : option string) :
  let self := LocationAnalyzer_init metro_stations in
  stations self <> []
  /\ (stations self
      = match metro_stations with
        | None | Some [] => METRO_STATIONS
        | Some l => l
        end)
  /\ exists s,
       nearest_station
         (LocationAnalyzer_analyze lower self (Some la) (Some lo) comuna)
       = Some s
       /\ distance_meters
            (LocationAnalyzer_analyze lower self (Some la) (Some lo) comuna)
          = Meters (distance_m s)
       /\ 0 <= distance_m s.
Proof.
  cbv zeta.
  assert (Hne : stations (LocationAnalyzer_init metro_stations) <> []).
  { destruct metro_stations as [[|s l]|]; discriminate. }
  split; [exact Hne|].
  split; [destruct metro_stations as [[|s l]|]; reflexivity|].
  cbn [LocationAnalyzer_analyze]. unfold analyze_at. cbv zeta.
  cbn [nearest_station distance_meters].
  destruct (stations (LocationAnalyzer_init metro_stations)) as [|sd l] eqn:Es;
    [contradiction|].
  assert (Hin : with_distance la lo sd
                ∈ sort_by_distance (map (with_distance la lo) (sd :: l))).
  { apply sort_by_distance_elem. constructor. }
  destruct (sort_by_distance (map (with_distance la lo) (sd :: l)))
    as [|s rest] eqn:Esort; [inversion Hin|].
  exists s. cbn [head]. split; [reflexivity|]. split; [reflexivity|].
  assert (Hs : s ∈ sort_by_distance (map (with_distance la lo) (sd :: l)))
    by (rewrite Esort; constructor).
  apply sort_by_distance_elem, list_elem_of_fmap in Hs.
  destruct Hs as (sd' & -> & _). apply with_distance_nonneg.
Qed.

End CommuneFacts.

(** ** market_intelligence.py: price position and the report *)

Section PriceFacts.

Import MarketIntelligence.
Local Open Scope Q_scope.

Variable lower : string → string.
Variable format_f : Z → Q → string.

(** The position is read off the percentage difference alone: BELOW
    MARKET under -5, AT MARKET from -5 to 10, ABOVE MARKET above 10 up to
    25, PREMIUM above 25; a property is an opportunity exactly when it is
    below market.  An area that is not positive is replaced by 1, and the
    percentage is the per-area difference relative to a positive commune
    average. *)
Theorem price_position_bands (self : PriceAnalyzer) (precio sup : Q)
    (commune : string) :
  let r := PriceAnalyzer_analyze lower format_f self precio sup commune in
  (price_position r = BELOW_MARKET <-> price_diff_percent r < -5)
  /\ (price_position r = AT_MARKET
      <-> -5 <= price_diff_percent r /\ price_diff_percent r <= 10)
  /\ (price_position r = ABOVE_MARKET
      <-> 10 < price_diff_percent r /\ price_diff_percent r <= 25)
  /\ (price_position r = PREMIUM <-> 25 < price_diff_percent r)
  /\ (is_opportunity r = true <-> price_position r = BELOW_MARKET)
  /\ price_diff_uf_m2 r = uf_per_m2 r - commune_average_uf_m2 r
  /\ commune_average_uf_m2 r = get_commune_average lower self commune
  /\ (sup <= 0 ->
      r = PriceAnalyzer_analyze lower format_f self precio 1 commune)
  /\ (0 < sup -> uf_per_m2 r * sup == precio)
  /\ (0 < commune_average_uf_m2 r ->
      price_diff_percent r * commune_average_uf_m2 r
      == 100 * price_diff_uf_m2 r).
Proof.
  cbv zeta.
  assert (Hfloor : sup <= 0 ->
            PriceAnalyzer_analyze lower format_f self precio sup commune
            = PriceAnalyzer_analyze lower format_f self precio 1 commune).
  { intros Hs. apply Qle_bool_iff in Hs. unfold PriceAnalyzer_analyze.
    rewrite Hs. reflexivity. }
  revert Hfloor. generalize (PriceAnalyzer_analyze lower format_f self
                               precio 1 commune).
  unfold PriceAnalyzer_analyze. cbv zeta.
  set (avg := get_commune_average lower self commune).
  set (area := if Qle_bool sup 0 then 1 else sup).
  set (d := if Qlt_bool 0 avg then (precio / area / avg - 1) * 100 else 0).
  set (cascade := if Qlt_bool d (-15) then _ else _).
  assert (Hbands :
    (cascade.1.1 = BELOW_MARKET <-> d < -5)
    /\ (cascade.1.1 = AT_MARKET <-> -5 <= d /\ d <= 10)
    /\ (cascade.1.1 = ABOVE_MARKET <-> 10 < d /\ d <= 25)
    /\ (cascade.1.1 = PREMIUM <-> 25 < d)
    /\ (cascade.1.2 = true <-> cascade.1.1 = BELOW_MARKET)).
  { subst cascade.
    destruct (Qlt_bool d (-15)) eqn:E1;
      [|destruct (Qlt_bool d (-5)) eqn:E2;
        [|destruct (Qle_bool d 10) eqn:E3;
          [|destruct (Qle_bool d 25) eqn:E4]]];
      rewrite ?Qlt_bool_iff, ?Qlt_bool_false, ?Qle_bool_iff,
        ?Qle_bool_false in *;
      cbn [fst snd];
      repeat match goal with |- _ /\ _ => split end;
      split; intros Hx; try discriminate; try reflexivity;
      try match type of Hx with _ /\ _ => destruct Hx end; lra. }
  clearbody cascade. destruct cascade as [[pos opp] txt].
  cbn [fst snd] in Hbands.
  cbn [price_position price_diff_percent is_opportunity price_diff_uf_m2
       uf_per_m2 commune_average_uf_m2].
  destruct Hbands as (B1 & B2 & B3 & B4 & B5).
  intros r1 Hfloor.
  split; [exact B1|]. split; [exact B2|]. split; [exact B3|].
  split; [exact B4|]. split; [exact B5|].
  split; [reflexivity|]. split; [reflexivity|].
  split; [exact Hfloor|]. split.
  - intros Hs. subst area.
    assert (Hs' : Qle_bool sup 0 = false) by (apply Qle_bool_false; exact Hs).
    rewrite Hs'. field. lra.
  - intros Ha. subst d.
    assert (Ha' : Qlt_bool 0 avg = true) by (apply Qlt_bool_iff; exact Ha).
    rewrite Ha'.
    assert (Harea : 0 < area).
    { subst area. destruct (Qle_bool sup 0) eqn:Es; [reflexivity|].
      apply Qle_bool_false in Es. exact Es. }
    field. lra.
Qed.

(** An empty commune name is not given the default: it is a substring
    of every key, so the partial match stops at the first entry of the
    table.  With the built-in table that is the average of Las Condes,
    95, and not the ["_default"] of 50. *)
Theorem empty_commune_takes_first_entry (self : PriceAnalyzer)
    (key : string) (price : Q) (others : list (string * Q)) :
  lower "" = "" ->
  price_data self = (key, price) :: others ->
  dict_lookup (price_data self) "" = None ->
  get_commune_average lower self "" = price
  /\ (get_commune_average lower (PriceAnalyzer_init None) "" == 95
      /\ dict_lookup AVG_PRICE_PER_COMMUNE "_default" = Some 50.0).
Proof.
  intros Hlow Hd Hnone.
  assert (Hgen : forall k p o,
             dict_lookup ((k, p) :: o) "" = None ->
             get_commune_average lower (mkPriceAnalyzer ((k, p) :: o)) ""
             = p).
  { intros k p o Hn. unfold get_commune_average. cbn [price_data].
    rewrite Hn, Hlow. cbn [partial_match].
    assert (E : is_substring "" (lower k) = true)
      by (destruct (lower k); reflexivity).
    rewrite E, orb_true_r. reflexivity. }
  split.
  - destruct self as [pd]. cbn [price_data] in *. subst pd.
    apply Hgen. exact Hnone.
  - split; [|reflexivity].
    unfold PriceAnalyzer_init, AVG_PRICE_PER_COMMUNE.
    rewrite Hgen by reflexivity. reflexivity.
Qed.

End PriceFacts.

Lemma empty_commune_takes_first_entry_witness :
  MarketIntelligence.get_commune_average (fun s => s)
    (MarketIntelligence.PriceAnalyzer_init None) "" = 95.0%Q.
Proof.
  apply (empty_commune_takes_first_entry (fun s => s)
           (MarketIntelligence.PriceAnalyzer_init None) "Las Condes" 95.0%Q
           (tail MarketIntelligence.AVG_PRICE_PER_COMMUNE));
    reflexivity.
Defined.

Section ReportFacts.

Import MarketIntelligence.
Local Open Scope Q_scope.

Variable lower : string → string.
Variable format_f : Z → Q → string.
Variable rng_state : Type.
Variable seed : Z → rng_state.
Variable uniform : Q → Q → rng_state → Q * rng_state.
Variable choice : list Z → rng_state → Z * rng_state.

(** On the analyzers that [MarketIntelligence()] builds, the report
    never fails: it carries the three analyses, the commune and the area
    it was asked about and the time it was built. *)
Theorem generate_report_default_returns (now : string) (precio sup : Q)
    (commune : string) (dorm baths : Z) (lat lon : option R)
    (g : rng_state) :
  exists report rent,
    (generate_report lower format_f rng_state seed uniform choice
       MarketIntelligence_init now precio sup commune dorm baths lat lon
       g).1 = Ok report
    /\ rent_analysis report = Some rent
    /\ (analyze_market_rent rng_state seed uniform choice
          (MarketCompScraper_init None) commune sup dorm baths false g).1
       = Ok rent
    /\ location_analysis report
       = Some (LocationAnalyzer_analyze lower (LocationAnalyzer_init None)
                 lat lon (Some commune))
    /\ price_analysis report
       = Some (PriceAnalyzer_analyze lower format_f (PriceAnalyzer_init None)
                 precio sup commune)
    /\ timestamp report = now
    /\ property_comuna report = commune
    /\ property_superficie report = sup.
Proof.
  unfold generate_report, MarketIntelligence_init.
  cbn [rent_analyzer location_analyzer price_analyzer].
  pose proof (analyze_market_rent_spec rng_state seed uniform choice
                (MarketCompScraper_init None) commune sup dorm baths false g)
    as Hrent.
  assert (Hkey : rent_data (MarketCompScraper_init None) !! "_default"
                 = Some (6000, 10000)) by reflexivity.
  rewrite Hkey in Hrent. destruct Hrent as (a & Ea & _).
  destruct (analyze_market_rent _ _ _ _ _ _ _ _ _ _ g) as [res g'].
  cbn [fst] in Ea. subst res. cbn [fst mbind result_bind mret result_ret].
  eexists _, a. repeat split.
Qed.

End ReportFacts.
